(** * Product store (main.py): a shallow embedding and its contract

    The program keeps one SQLite table, [products], behind the class
    [DatabaseManager], and drives it from a form ([ProductManagerApp]).
    This file embeds:

    - the builtins [str.strip], [int] and [float] used by the form, with
      the binary64 value of a decimal literal;
    - the values that cross the Python/SQLite boundary: parameter
      binding, the [NOT NULL] constraints, the table with its
      AUTOINCREMENT key, column affinity;
    - the five statements of [DatabaseManager], and the [LIKE] operator
      used by [search_products];
    - [validate_form] and [add_product] of [ProductManagerApp];

    and then states the properties of the contract.

    Numbers. A Python [int] is a [Z], a Python [float] a primitive
    binary64 [float]. Time. The reading of the clock is an argument of
    the calls that take it. Text. A [string] stands for a Python [str]
    whose characters have code points 1..255, one [ascii] per character;
    the NUL character is left out of the model. *)

From Stdlib Require Import ZArith Floats Ascii String.
From stdpp Require Import gmap strings list sorting.

Local Open Scope Z_scope.

#[local] Set Warnings "-inexact-float".

(** ** Exceptions and results *)

(** The exceptions the modelled code can raise. *)
Inductive exn : Type :=
  | OverflowError     (* Python int too large to convert to SQLite INTEGER *)
  | IntegrityError    (* NOT NULL constraint failed *)
  | OperationalError  (* database or disk is full / LIKE pattern too complex *)
  | ValueError        (* int() or float() on a malformed literal *)
  | TypeError.        (* int() or float() on None *)

Inductive result (A : Type) : Type :=
  | Ok (a : A)
  | Raise (e : exn).
Arguments Ok {A} a.
Arguments Raise {A} e.

#[global] Instance result_ret : MRet result := fun A a => Ok a.

#[global] Instance result_bind : MBind result := fun A B k r =>
  match r with
  | Ok a => k a
  | Raise e => Raise e
  end.

(** ** Characters *)

Definition code (c : ascii) : Z := Z.of_N (N_of_ascii c).

Definition is_digit (c : ascii) : bool := (48 <=? code c) && (code c <=? 57).

Definition digit_val (c : ascii) : Z := code c - 48.

(** ASCII-only case folding, as [sqlite3Tolower] and as needed for the
    ["inf"]/["nan"] spellings. *)
Definition to_lower (c : ascii) : ascii :=
  if (65 <=? code c) && (code c <=? 90)
  then ascii_of_N (Z.to_N (code c + 32)) else c.

(** [str.isspace] on code points below 256. *)
Definition py_isspace (c : ascii) : bool :=
  let n := code c in
  ((9 <=? n) && (n <=? 13)) || ((28 <=? n) && (n <=? 32))
  || (n =? 133) || (n =? 160).

(** The white space [int] and [float] allow around a literal: the ASCII
    white space, and the Unicode white space above the ASCII range. *)
Definition py_number_space (c : ascii) : bool :=
  let n := code c in
  ((9 <=? n) && (n <=? 13)) || (n =? 32) || (n =? 133) || (n =? 160).

(** [sqlite3Isspace]. *)
Definition sqlite_isspace (c : ascii) : bool :=
  let n := code c in ((9 <=? n) && (n <=? 13)) || (n =? 32).

Fixpoint lstrip_with (sp : ascii -> bool) (l : list ascii) : list ascii :=
  match l with
  | c :: l' => if sp c then lstrip_with sp l' else l
  | [] => []
  end.

Definition strip_with (sp : ascii -> bool) (l : list ascii) : list ascii :=
  reverse (lstrip_with sp (reverse (lstrip_with sp l))).

(** [s.strip()] *)
Definition strip (s : string) : string :=
  string_of_list_ascii (strip_with py_isspace (list_ascii_of_string s)).

(** ** Decimal literals and their binary64 value *)

(** Value of a run of decimal digits, most significant first. *)
Definition digits_val (ds : list ascii) : Z :=
  fold_left (fun acc d => 10 * acc + digit_val d) ds 0.

(** A plain run of digits (possibly empty) and what follows it. *)
Fixpoint span_digits (l : list ascii) : list ascii * list ascii :=
  match l with
  | c :: l' =>
      if is_digit c then let '(ds, r) := span_digits l' in (c :: ds, r)
      else ([], l)
  | [] => ([], [])
  end.

(** A run of digits in which single underscores may separate digits
    (PEP 515), possibly empty, and what follows it. *)
Fixpoint span_digits_us (l : list ascii) : list ascii * list ascii :=
  match l with
  | c :: l' =>
      if is_digit c then
        match l' with
        | u :: ((d :: _) as l'') =>
            if (code u =? 95) && is_digit d
            then let '(ds, r) := span_digits_us l'' in (c :: ds, r)
            else let '(ds, r) := span_digits_us l' in (c :: ds, r)
        | _ => let '(ds, r) := span_digits_us l' in (c :: ds, r)
        end
      else ([], l)
  | [] => ([], [])
  end.

(** An optional sign: [true] for ["-"]. *)
Definition take_sign (l : list ascii) : bool * list ascii :=
  match l with
  | c :: l' =>
      if code c =? 45 then (true, l')
      else if code c =? 43 then (false, l')
      else (false, l)
  | [] => (false, [])
  end.

(** The nearest binary64 number to [(-1)^neg * num / den], ties to even;
    [num] and [den] are positive. The quotient is taken with at least 55
    significant bits and rounded once, with the remainder as the
    location of the exact value. *)
Definition float_of_ratio (neg : bool) (num den : Z) : float :=
  let k := Z.max 0 (56 + Z.log2 den - Z.log2 num) in
  let '(q, r) := Z.div_eucl (num * 2 ^ k) den in
  let loc := if r =? 0 then SpecFloat.loc_Exact
             else SpecFloat.loc_Inexact (2 * r ?= den) in
  SF2Prim (SpecFloat.binary_round_aux prec emax neg q (- k) loc).

(** The binary64 value of [(-1)^neg * m * 10^e], correctly rounded. *)
Definition float_of_decimal (neg : bool) (m e : Z) : float :=
  if m =? 0 then (if neg then PrimFloat.neg_zero else PrimFloat.zero)
  else if 0 <=? e then float_of_ratio neg (m * 10 ^ e) 1
  else float_of_ratio neg m (10 ^ (- e)).

(** [(double)i] for a 64-bit integer. *)
Definition float_of_Z (z : Z) : float :=
  SF2Prim (SpecFloat.binary_normalize prec emax z 0 false).

(** The integer a float is equal to, when there is one. *)
Definition Z_of_float (f : float) : option Z :=
  match Prim2SF f with
  | SpecFloat.S754_zero _ => Some 0
  | SpecFloat.S754_finite s m e =>
      let v := if 0 <=? e then Z.pos m * 2 ^ e
               else Z.pos m / 2 ^ (- e) in
      if (0 <=? e) || (Z.pos m mod 2 ^ (- e) =? 0)
      then Some (if s then - v else v) else None
  | _ => None
  end.

(** A decimal mantissa with optional fraction and exponent; [digs] reads
    a run of digits. Returns mantissa, decimal exponent, whether the
    literal is a plain integer, and the rest of the input. *)
Definition span_decimal (digs : list ascii -> list ascii * list ascii)
    (l : list ascii) : option (Z * Z * bool * list ascii) :=
  let '(ip, r1) := digs l in
  let '(fp, r2, dot) :=
    match r1 with
    | c :: r1' => if code c =? 46
                  then let '(fp, r2) := digs r1' in (fp, r2, true)
                  else ([], r1, false)
    | [] => ([], r1, false)
    end in
  match ip ++ fp with
  | [] => None
  | ds =>
      let m := digits_val ds in
      let e0 := - Z.of_nat (length fp) in
      match r2 with
      | c :: r2' =>
          if code (to_lower c) =? 101 then
            let '(eneg, r3) := take_sign r2' in
            match digs r3 with
            | ([], _) => Some (m, e0, negb dot, r2)
            | (es, r4) =>
                let e := digits_val es in
                Some (m, e0 + (if eneg then - e else e), false, r4)
            end
          else Some (m, e0, negb dot, r2)
      | [] => Some (m, e0, negb dot, [])
      end
  end.

(** ** The builtins [int] and [float] on text *)

(** The most digits [int] converts: [sys.int_info.default_max_str_digits]. *)
Definition MAX_STR_DIGITS : Z := 4300.

(** [int(s)] for a [str]: surrounding whitespace, an optional sign, and
    digits with optional single underscores between them. A literal of
    more than [MAX_STR_DIGITS] digits (leading zeros counted, underscores
    not) raises [ValueError] as a malformed one does. *)
Definition py_int (s : string) : result Z :=
  let '(neg, r) :=
    take_sign (strip_with py_number_space (list_ascii_of_string s)) in
  match span_digits_us r with
  | ((_ :: _) as ds, []) =>
      if MAX_STR_DIGITS <? Z.of_nat (length ds) then Raise ValueError
      else let n := digits_val ds in Ok (if neg then - n else n)
  | _ => Raise ValueError
  end.

Definition lower_string (l : list ascii) : string :=
  string_of_list_ascii (map to_lower l).

(** [float(s)] for a [str]: surrounding whitespace, an optional sign, and
    either one of the spellings [inf], [infinity], [nan] in any case, or a
    decimal literal with optional fraction and exponent. *)
Definition py_float (s : string) : result float :=
  let '(neg, r) :=
    take_sign (strip_with py_number_space (list_ascii_of_string s)) in
  let w := lower_string r in
  if (w =? "inf")%string || (w =? "infinity")%string
  then Ok (if neg then PrimFloat.neg_infinity else PrimFloat.infinity)
  else if (w =? "nan")%string then Ok PrimFloat.nan
  else
    match span_decimal span_digits_us r with
    | Some (m, e, _, []) => Ok (float_of_decimal neg m e)
    | _ => Raise ValueError
    end.

(** [int(v)] and [float(v)] on the value of a text field, which is a
    [str] or [None]. *)
Definition int_of_field (v : option string) : result Z :=
  match v with
  | Some s => py_int s
  | None => Raise TypeError
  end.

Definition float_of_field (v : option string) : result float :=
  match v with
  | Some s => py_float s
  | None => Raise TypeError
  end.

(** ** Values crossing the Python/SQLite boundary *)

(** The Python values the [sqlite3] module binds to a [?] placeholder and
    the SQLite storage classes they are stored in: [None]/NULL, [int]/
    INTEGER, [float]/REAL and [str]/TEXT ([bytes] and objects the module
    cannot bind are left out). *)
Inductive value : Type :=
  | VNone
  | VInt (z : Z)
  | VFloat (f : float)
  | VStr (s : string).

Definition INT64_MIN : Z := - 2 ^ 63.
Definition INT64_MAX : Z := 2 ^ 63 - 1.

Definition is_int64 (z : Z) : bool := (INT64_MIN <=? z) && (z <=? INT64_MAX).

(** Binding one parameter of [cursor.execute]: an [int] outside the
    64-bit range raises [OverflowError]; a NaN is bound as NULL. *)
Definition bind_param (v : value) : result value :=
  match v with
  | VInt z => if is_int64 z then Ok (VInt z) else Raise OverflowError
  | VFloat f => Ok (if PrimFloat.is_nan f then VNone else VFloat f)
  | _ => Ok v
  end.

(** The [NOT NULL] constraint of a column. *)
Definition not_null (v : value) : result value :=
  match v with
  | VNone => Raise IntegrityError
  | _ => Ok v
  end.

(** ** The table *)

(** A row of [products] without its key: the columns [name], [category],
    [price], [quantity] and [created_date]. *)
Record row : Type := mk_row {
  name : string;
  category : string;
  price : value;
  quantity : value;
  created_date : string
}.

(** The database file: the rows of [products] by [id] (the primary key),
    and the entry of [sqlite_sequence] that AUTOINCREMENT keeps for the
    table, the largest [id] ever assigned. *)
Record database : Type := mk_database {
  products : gmap Z row;
  sqlite_sequence : Z
}.

(** The state after [create_table] on a new file. *)
Definition empty_database : database :=
  {| products := ∅; sqlite_sequence := 0 |}.

(** A fetched tuple [(id, name, category, price, quantity, created_date)]:
    the key paired with the rest of the row. *)
Definition product : Type := Z * row.

(** [ORDER BY id DESC] *)
Definition id_desc (p1 p2 : product) : Prop := p2.1 <= p1.1.

#[global] Instance id_desc_dec p1 p2 : Decision (id_desc p1 p2).
Proof. unfold id_desc. apply _. Defined.

Definition max_rowid (t : gmap Z row) : Z :=
  foldr Z.max 0 (map_to_list t).*1.

(** The largest key the table holds or has ever held. *)
Definition largest_rowid (db : database) : Z :=
  Z.max (max_rowid (products db)) (sqlite_sequence db).

(** The key AUTOINCREMENT gives to a new row: one more than the largest
    key the table holds or has ever held; the insertion fails once the
    largest 64-bit key has been used. *)
Definition new_rowid (db : database) : result Z :=
  if largest_rowid db <? INT64_MAX then Ok (largest_rowid db + 1)
  else Raise OperationalError.

(** ** Column affinity *)

(** SQLite's own conversion of the decimal literal
    [(-1)^neg * m * 10^e] found in a text to a REAL ([sqlite3AtoF]). It
    gives the nearest binary64 number for short literals; for long ones
    its last bit depends on the version of the library. The model takes
    the conversion as a parameter, and nothing proved below depends on
    it; [nearest_real] is the correctly rounded one. *)
Class TextToReal : Type := text_to_real : bool -> Z -> Z -> float.

#[global] Instance nearest_real : TextToReal := float_of_decimal.

Section Store.

Context {atof : TextToReal}.

(** A text that is a well-formed numeric literal for SQLite, as an
    INTEGER when it is a plain integer that fits 64 bits and as a REAL
    otherwise. *)
Definition sqlite_numeric (s : string) : option value :=
  let '(neg, r) :=
    take_sign (strip_with sqlite_isspace (list_ascii_of_string s)) in
  match span_decimal span_digits r with
  | Some (m, e, plain, []) =>
      let z := if neg then - m else m in
      if plain && is_int64 z then Some (VInt z)
      else Some (VFloat (text_to_real neg m e))
  | _ => None
  end.

(** A REAL that is an integer strictly inside the 64-bit range is kept
    as an INTEGER in a column of INTEGER affinity. *)
Definition real_to_integer (f : float) : value :=
  match Z_of_float f with
  | Some z => if (INT64_MIN <? z) && (z <? INT64_MAX) then VInt z
              else VFloat f
  | None => VFloat f
  end.

(** A REAL as a column of REAL affinity gives it back: a float without
    fractional part is kept as an integer in the file, so a negative
    zero is read back as zero; every other float is read back as it
    was. *)
Definition stored_real (f : float) : float :=
  if PrimFloat.eqb f 0 then 0%float else f.

(** Column affinity REAL (column [price]). *)
Definition affinity_real (v : value) : value :=
  match v with
  | VInt z => VFloat (stored_real (float_of_Z z))
  | VFloat f => VFloat (stored_real f)
  | VStr s =>
      match sqlite_numeric s with
      | Some (VInt z) => VFloat (stored_real (float_of_Z z))
      | Some (VFloat f) => VFloat (stored_real f)
      | Some n => n
      | None => VStr s
      end
  | VNone => VNone
  end.

(** Column affinity INTEGER (column [quantity]). *)
Definition affinity_integer (v : value) : value :=
  match v with
  | VFloat f => real_to_integer f
  | VStr s =>
      match sqlite_numeric s with
      | Some (VFloat f) => real_to_integer f
      | Some n => n
      | None => VStr s
      end
  | _ => v
  end.

(** ** DatabaseManager *)

(** [create_product]: [now] is the text of
    [datetime.now().strftime("%Y-%m-%d %H:%M:%S")] at the call. *)
Definition create_product (db : database) (name category : string)
    (price quantity : value) (now : string) : result Z * database :=
  match
    p ← bind_param price;
    q ← bind_param quantity;
    id ← new_rowid db;
    p' ← not_null (affinity_real p);
    q' ← not_null (affinity_integer q);
    mret (id, mk_row name category p' q' now)
  with
  | Ok (id, r) =>
      (Ok id, {| products := <[id := r]> (products db);
                 sqlite_sequence := id |})
  | Raise e => (Raise e, db)
  end.

(** [read_products] *)
Definition read_products (db : database) : list product :=
  merge_sort id_desc (map_to_list (products db)).

(** [update_product]: returns [cursor.rowcount]. *)
Definition update_product (db : database) (product_id : Z)
    (name category : string) (price quantity : value)
    : result Z * database :=
  match
    p ← bind_param price;
    q ← bind_param quantity;
    _ ← bind_param (VInt product_id);
    match products db !! product_id with
    | None => mret None
    | Some old =>
        p' ← not_null (affinity_real p);
        q' ← not_null (affinity_integer q);
        mret (Some (mk_row name category p' q' (created_date old)))
    end
  with
  | Ok (Some r) =>
      (Ok 1, {| products := <[product_id := r]> (products db);
                sqlite_sequence := sqlite_sequence db |})
  | Ok None => (Ok 0, db)
  | Raise e => (Raise e, db)
  end.

(** [delete_product]: returns [cursor.rowcount]. *)
Definition delete_product (db : database) (product_id : Z)
    : result Z * database :=
  match bind_param (VInt product_id) with
  | Ok _ =>
      match products db !! product_id with
      | Some _ =>
          (Ok 1, {| products := delete product_id (products db);
                    sqlite_sequence := sqlite_sequence db |})
      | None => (Ok 0, db)
      end
  | Raise e => (Raise e, db)
  end.

(** ** The LIKE operator *)

Definition PERCENT : ascii := "%"%char.
Definition UNDERSCORE : ascii := "_"%char.

(** Two characters match when they are equal up to the case of the
    letters A-Z. *)
Definition eq_nocase (c d : ascii) : bool :=
  bool_decide (to_lower c = to_lower d).

(** [pattern_compare p s]: does the text [s] match the LIKE pattern [p]?
    ["%"] stands for any run of characters, ["_"] for any one character;
    there is no escape character. *)
Fixpoint pattern_compare (p : list ascii) : list ascii -> bool :=
  match p with
  | [] => fun s => match s with [] => true | _ :: _ => false end
  | c :: p' =>
      if bool_decide (c = PERCENT) then
        fix any_run (s : list ascii) : bool :=
          pattern_compare p' s ||
          match s with [] => false | _ :: s' => any_run s' end
      else if bool_decide (c = UNDERSCORE) then
        fun s => match s with [] => false | _ :: s' => pattern_compare p' s' end
      else
        fun s => match s with
                 | [] => false
                 | d :: s' => eq_nocase c d && pattern_compare p' s'
                 end
  end.

Definition like (pattern text : string) : bool :=
  pattern_compare (list_ascii_of_string pattern) (list_ascii_of_string text).

(** The length in bytes of the UTF-8 encoding of a text. *)
Definition utf8_length (s : string) : Z :=
  foldr (fun c n => (if code c <? 128 then 1 else 2) + n) 0
        (list_ascii_of_string s).

Definition SQLITE_MAX_LIKE_PATTERN_LENGTH : Z := 50000.

(** [search_products]: the pattern is [f'%{search_term}%'], compared with
    [name] and with [category] of each row. LIKE refuses a pattern longer
    than [SQLITE_MAX_LIKE_PATTERN_LENGTH] bytes when it is first
    evaluated, that is as soon as there is a row. *)
Definition search_pattern (search_term : string) : string :=
  ("%" +:+ search_term +:+ "%")%string.

Definition row_matches (pattern : string) (p : product) : bool :=
  like pattern (name p.2) || like pattern (category p.2).

Definition search_products (db : database) (search_term : string)
    : result (list product) :=
  let pattern := search_pattern search_term in
  match read_products db with
  | [] => Ok []
  | rows =>
      if SQLITE_MAX_LIKE_PATTERN_LENGTH <? utf8_length pattern
      then Raise OperationalError
      else Ok (filter (fun p => row_matches pattern p = true) rows)
  end.

(** ** ProductManagerApp *)

(** The text of the snack bars the form shows. *)
Inductive notice : Type :=
  | PleaseEnterName
  | PleaseEnterCategory
  | PriceMustBeGreaterThanZero
  | PleaseEnterValidPrice
  | QuantityCannotBeNegative
  | PleaseEnterValidQuantity
  | ProductAdded
  | PleaseFillAllFields
  | InvalidNumberFormat
  | ErrorAddingProduct (e : exn).

Inductive field : Type :=
  | NameField
  | CategoryField
  | PriceField
  | QuantityField.

(** A call made on [self.db]. *)
Inductive store_call : Type :=
  | CallCreateProduct (name category : string) (price quantity : value)
  | CallReadProducts.

(** The state of the application: the store, the [value] of the four text
    fields ([None] or a [str]), the rows of the data table, the snack bars
    shown and the field that has the focus, and the calls made on the
    store so far (most recent first). *)
Record ProductManagerApp : Type := mk_app {
  db : database;
  current_edit_id : option Z;
  name_field : option string;
  category_field : option string;
  price_field : option string;
  quantity_field : option string;
  data_table : list product;
  snack_bars : list notice;
  focus : option field;
  store_calls : list store_call
}.

(** Truth value of a field's [value]: [None] and [""] are false. *)
Definition truthy (v : option string) : bool :=
  match v with
  | Some s => negb (s =? "")%string
  | None => false
  end.

(** [not v or not v.strip()] *)
Definition blank (v : option string) : bool :=
  match v with
  | Some s => (s =? "")%string || (strip s =? "")%string
  | None => true
  end.

Definition show_snackbar (app : ProductManagerApp) (n : notice)
    : ProductManagerApp :=
  mk_app (db app) (current_edit_id app) (name_field app)
    (category_field app) (price_field app) (quantity_field app)
    (data_table app) (n :: snack_bars app) (focus app) (store_calls app).

Definition set_focus (app : ProductManagerApp) (f : field)
    : ProductManagerApp :=
  mk_app (db app) (current_edit_id app) (name_field app)
    (category_field app) (price_field app) (quantity_field app)
    (data_table app) (snack_bars app) (Some f) (store_calls app).

Definition reject (app : ProductManagerApp) (n : notice) (f : field)
    : bool * ProductManagerApp :=
  (false, set_focus (show_snackbar app n) f).

(** [validate_form] *)
Definition validate_form (app : ProductManagerApp)
    : bool * ProductManagerApp :=
  if blank (name_field app) then reject app PleaseEnterName NameField
  else if blank (category_field app)
  then reject app PleaseEnterCategory CategoryField
  else
    match float_of_field (price_field app) with
    | Raise _ => reject app PleaseEnterValidPrice PriceField
    | Ok price =>
        if PrimFloat.leb price 0
        then reject app PriceMustBeGreaterThanZero PriceField
        else
          match int_of_field (quantity_field app) with
          | Raise _ => reject app PleaseEnterValidQuantity QuantityField
          | Ok quantity =>
              if quantity <? 0
              then reject app QuantityCannotBeNegative QuantityField
              else (true, app)
          end
    end.

(** [clear_form] *)
Definition clear_form (app : ProductManagerApp) : ProductManagerApp :=
  mk_app (db app) (current_edit_id app) (Some "") (Some "") (Some "")
    (Some "") (data_table app) (snack_bars app) (focus app)
    (store_calls app).

(** [load_products()] with no argument: the table is filled from
    [read_products]. *)
Definition load_products (app : ProductManagerApp) : ProductManagerApp :=
  mk_app (db app) (current_edit_id app) (name_field app)
    (category_field app) (price_field app) (quantity_field app)
    (read_products (db app)) (snack_bars app) (focus app)
    (CallReadProducts :: store_calls app).

(** The call [self.db.create_product(...)] made by the form. *)
Definition call_create_product (app : ProductManagerApp)
    (name category : string) (price quantity : value) (now : string)
    : result Z * ProductManagerApp :=
  let '(r, db') := create_product (db app) name category price quantity now in
  (r, mk_app db' (current_edit_id app) (name_field app)
        (category_field app) (price_field app) (quantity_field app)
        (data_table app) (snack_bars app) (focus app)
        (CallCreateProduct name category price quantity :: store_calls app)).

(** [add_product]: [now] is the reading of the clock if [create_product]
    is reached. *)
Definition add_product (app : ProductManagerApp) (now : string)
    : ProductManagerApp :=
  let '(valid, app) := validate_form app in
  if negb valid then app
  else
    match name_field app, category_field app with
    | Some n, Some c =>
        if truthy (name_field app) && truthy (category_field app)
           && truthy (price_field app) && truthy (quantity_field app)
        then
          match float_of_field (price_field app) with
          | Ok price =>
              match int_of_field (quantity_field app) with
              | Ok quantity =>
                  let '(r, app) :=
                    call_create_product app (strip n) (strip c)
                      (VFloat price) (VInt quantity) now in
                  match r with
                  | Ok _ =>
                      show_snackbar (load_products (clear_form app))
                        ProductAdded
                  | Raise e => show_snackbar app (ErrorAddingProduct e)
                  end
              | Raise ValueError => show_snackbar app InvalidNumberFormat
              | Raise e => show_snackbar app (ErrorAddingProduct e)
              end
          | Raise ValueError => show_snackbar app InvalidNumberFormat
          | Raise e => show_snackbar app (ErrorAddingProduct e)
          end
        else show_snackbar app PleaseFillAllFields
    | _, _ => show_snackbar app PleaseFillAllFields
    end.

(** ** Calls on the store, in sequence *)

(** One call on a [DatabaseManager]. *)
Inductive call : Type :=
  | CreateProduct (name category : string) (price quantity : value)
      (now : string)
  | ReadProducts
  | UpdateProduct (product_id : Z) (name category : string)
      (price quantity : value)
  | DeleteProduct (product_id : Z)
  | SearchProducts (search_term : string).

(** The store after a call, with the id the call assigned when it is a
    [create_product] that succeeded. *)
Definition exec (db : database) (c : call) : option Z * database :=
  match c with
  | CreateProduct n c p q now =>
      match create_product db n c p q now with
      | (Ok id, db') => (Some id, db')
      | (Raise _, db') => (None, db')
      end
  | ReadProducts => (None, db)
  | UpdateProduct id n c p q => (None, (update_product db id n c p q).2)
  | DeleteProduct id => (None, (delete_product db id).2)
  | SearchProducts _ => (None, db)
  end.

(** The ids assigned by a sequence of calls, in the order of the calls,
    and the store after them. *)
Fixpoint run (db : database) (cs : list call) : list Z * database :=
  match cs with
  | [] => ([], db)
  | c :: cs' =>
      let '(o, db1) := exec db c in
      let '(ids, db2) := run db1 cs' in
      (match o with Some id => id :: ids | None => ids end, db2)
  end.

(** * Statements of the contract *)

(** Strictly descending ids. *)
Definition id_gt (p1 p2 : product) : Prop := p2.1 < p1.1.

(** The inputs the form accepts: name and category not empty, a price
    above zero, a quantity that is not negative. *)
Definition valid_input (n c : string) (p : float) (q : Z) : Prop :=
  n ≠ EmptyString ∧ c ≠ EmptyString ∧ PrimFloat.ltb 0 p = true ∧ 0 <= q.

(** Creation then listing: [create_product] returns an id that was not
    listed, and the listing is the former one with the submitted record,
    under that id and with the time of the call, at its head. *)
Definition create_lists_new (db : database) (n c : string) (p q : value)
    (now : string) : Prop :=
  let '(res, db') := create_product db n c p q now in
  ∃ id, res = Ok id ∧ (id ∉ (read_products db).*1) ∧
        read_products db' = (id, mk_row n c p q now) :: read_products db.

(** Update then listing, for a row [old] held under [id] and the
    submitted price [p] and quantity [q]: the call returns 1 and the
    listing is the former one where the record [id] carries the new name
    and category, the price [p'] and the quantity [q'], and the creation
    date of [old]. *)
Definition update_shows (db : database) (id : Z) (old : row)
    (n c : string) (p q p' q' : value) : Prop :=
  let '(res, db') := update_product db id n c p q in
  res = Ok 1 ∧
  read_products db' =
    (λ x : product,
       if decide (x.1 = id) then (id, mk_row n c p' q' (created_date old))
       else x) <$> read_products db.

(** Deletion of a key of the table: the call returns 1, the listing no
    longer has the key, and deleting again returns 0. *)
Definition delete_removes (db : database) (id : Z) : Prop :=
  let '(res, db') := delete_product db id in
  res = Ok 1 ∧ (id ∉ (read_products db').*1) ∧
  (delete_product db' id).1 = Ok 0.

(** Deletion of a key the table does not hold: the call returns 0. *)
Definition delete_not_found (db : database) (id : Z) : Prop :=
  (delete_product db id).1 = Ok 0.

(** [term] occurs in [text] up to the case of the letters A-Z: some
    stretch of [text] equals [term] once both are folded. *)
Definition is_substring_nocase (term text : string) : Prop :=
  ∃ pre mid post : list ascii,
    list_ascii_of_string text = pre ++ mid ++ post ∧
    to_lower <$> mid = to_lower <$> list_ascii_of_string term.

(** The same, computed: [term] is a prefix of [s], or occurs further. *)
Fixpoint prefix_nocase (t s : list ascii) : bool :=
  match t, s with
  | [], _ => true
  | c :: t', d :: s' => eq_nocase c d && prefix_nocase t' s'
  | _ :: _, [] => false
  end.

Fixpoint occurs_nocase (t s : list ascii) : bool :=
  prefix_nocase t s ||
  match s with [] => false | _ :: s' => occurs_nocase t s' end.

Definition contains_nocase (term text : string) : bool :=
  occurs_nocase (list_ascii_of_string term) (list_ascii_of_string text).

(** A record matches a term when the term occurs in its name or in its
    category. *)
Definition matches_term (term : string) (p : product) : Prop :=
  is_substring_nocase term (name p.2) ∨
  is_substring_nocase term (category p.2).

(** Search: the result holds exactly the listed records that match the
    term, in the order of the listing. *)
Definition search_selects_substrings (db : database) (term : string) : Prop :=
  ∃ l, search_products db term = Ok l ∧
       sublist l (read_products db) ∧
       ∀ p, p ∈ l ↔ p ∈ read_products db ∧ matches_term term p.

(** A term without the wildcards of LIKE. *)
Definition wildcard_free (term : string) : bool :=
  forallb (λ c, negb (bool_decide (c = PERCENT))
                && negb (bool_decide (c = UNDERSCORE)))
          (list_ascii_of_string term).

(** [float(v)] and [int(v)] would succeed on the value [v]. *)
Definition parseable_as_float (v : value) : bool :=
  match v with
  | VNone => false
  | VStr s => match py_float s with Ok _ => true | Raise _ => false end
  | VInt _ | VFloat _ => true
  end.

Definition parseable_as_int (v : value) : bool :=
  match v with
  | VNone => false
  | VStr s => match py_int s with Ok _ => true | Raise _ => false end
  | VInt _ => true
  | VFloat f => PrimFloat.is_finite f
  end.

(** The store refuses the creation: an exception, and no change. *)
Definition create_rejects (db : database) (n c : string) (p q : value)
    (now : string) : Prop :=
  ∃ e, create_product db n c p q now = (Raise e, db).

(** A value no column of [products] can hold: NULL (from [None] or a
    NaN), or an integer outside the 64-bit range. *)
Definition unstorable (v : value) : bool :=
  match v with
  | VNone => true
  | VInt z => negb (is_int64 z)
  | VFloat f => PrimFloat.is_nan f
  | VStr _ => false
  end.

(** A submission the form must refuse: a blank name or category, a price
    that is not a number above zero, a quantity that is not an integer
    at least zero. *)
Definition invalid_submission (app : ProductManagerApp) : Prop :=
  blank (name_field app) = true ∨ blank (category_field app) = true ∨
  (∀ p, float_of_field (price_field app) = Ok p → PrimFloat.ltb 0 p = false) ∨
  (∀ q, int_of_field (quantity_field app) = Ok q → q < 0).

(** The form aborted before any call on the store. *)
Definition aborted_before_store (app app' : ProductManagerApp) : Prop :=
  store_calls app' = store_calls app ∧ db app' = db app.

(** The price field holds no text that [float] reads as a NaN. The
    field is built with [NumbersOnlyInputFilter], so what is typed in it
    is made of digits; besides, the program writes into it the empty
    text ([clear_form]) and the [str] of a stored price
    ([edit_product]), and a column [REAL NOT NULL] holds no NaN. None
    of these reads as a NaN (lemmas [typed_price_no_nan],
    [empty_price_no_nan] and [written_price_no_nan]): [float] gives a
    NaN for the word [nan] only ([py_float_nan]). *)
Definition price_no_nan (app : ProductManagerApp) : Prop :=
  ∀ p, float_of_field (price_field app) = Ok p → PrimFloat.is_nan p = false.

(** The messages of [validate_form]. *)
Definition validation_notice (n : notice) : Prop :=
  n = PleaseEnterName ∨ n = PleaseEnterCategory ∨
  n = PriceMustBeGreaterThanZero ∨ n = PleaseEnterValidPrice ∨
  n = QuantityCannotBeNegative ∨ n = PleaseEnterValidQuantity.

(** The form aborted as a validation error: one message of
    [validate_form] is shown and a field is given the focus; no call is
    made on the store, and the database and the table are as they
    were. *)
Definition aborted_as_validation_error (app app' : ProductManagerApp)
    : Prop :=
  (∃ n f, validation_notice n ∧ snack_bars app' = n :: snack_bars app ∧
          focus app' = Some f) ∧
  aborted_before_store app app' ∧
  data_table app' = data_table app.

(** The row a statement writes from the parameters [n], [c], [p] and
    [q]: the name and the category as given, the price and the quantity
    as bound and as the columns [REAL NOT NULL] and [INTEGER NOT NULL]
    store them, and the given creation date. *)
Definition row_written (n c : string) (p q : value) (date : string)
    (r : row) : Prop :=
  ∃ bp bq, bind_param p = Ok bp ∧ bind_param q = Ok bq ∧
           affinity_real bp ≠ VNone ∧ affinity_integer bq ≠ VNone ∧
           r = mk_row n c (affinity_real bp) (affinity_integer bq) date.

(** A call that either fails and changes nothing, or has its whole
    effect: the one row it writes is written in all its columns, and
    no other row is touched. *)
Definition atomic_create (db : database) (n c : string) (p q : value)
    (now : string) : Prop :=
  let '(res, db') := create_product db n c p q now in
  (∃ e, res = Raise e ∧ db' = db) ∨
  (∃ id r, res = Ok id ∧ products db !! id = None ∧
           db' = {| products := <[id := r]> (products db);
                    sqlite_sequence := id |} ∧
           row_written n c p q now r).

Definition atomic_update (db : database) (id : Z) (n c : string)
    (p q : value) : Prop :=
  let '(res, db') := update_product db id n c p q in
  (∃ e, res = Raise e ∧ db' = db) ∨
  (res = Ok 0 ∧ db' = db ∧ products db !! id = None) ∨
  (∃ old r, res = Ok 1 ∧ products db !! id = Some old ∧
            db' = {| products := <[id := r]> (products db);
                     sqlite_sequence := sqlite_sequence db |} ∧
            row_written n c p q (created_date old) r).

Definition atomic_delete (db : database) (id : Z) : Prop :=
  let '(res, db') := delete_product db id in
  (∃ e, res = Raise e ∧ db' = db) ∨
  (res = Ok 0 ∧ db' = db ∧ products db !! id = None) ∨
  (res = Ok 1 ∧ is_Some (products db !! id) ∧
   db' = {| products := delete id (products db);
            sqlite_sequence := sqlite_sequence db |}).

(** On a key the table does not hold, [update_product] and
    [delete_product] return 0 and change nothing. *)
Definition not_found_returns_zero (db : database) (id : Z) (n c : string)
    (p q : value) : Prop :=
  update_product db id n c p q = (Ok 0, db) ∧
  delete_product db id = (Ok 0, db).

(** The same, where a call may also stop on an integer argument outside
    the 64-bit range, changing nothing either. *)
Definition not_found_changes_nothing (db : database) (id : Z) (n c : string)
    (p q : value) : Prop :=
  (update_product db id n c p q = (Ok 0, db) ∨
   update_product db id n c p q = (Raise OverflowError, db)) ∧
  (delete_product db id = (Ok 0, db) ∨
   delete_product db id = (Raise OverflowError, db)).

(** An argument [bind_param] accepts. *)
Definition bindable (v : value) : bool :=
  match v with
  | VInt z => is_int64 z
  | _ => true
  end.

(** Creation with a text price and a text quantity: a record is
    inserted, its price and quantity being the texts as the columns
    store them. *)
Definition create_stores_text (db : database) (n c ps qs : string)
    (now : string) : Prop :=
  let '(res, db') := create_product db n c (VStr ps) (VStr qs) now in
  ∃ id, res = Ok id ∧
        read_products db' =
          (id, mk_row n c (affinity_real (VStr ps))
                 (affinity_integer (VStr qs)) now) :: read_products db.

(** The row of the product "Widget", and the store after
    create("Widget", "Hardware", 9.99, 10) on a new database. *)
Definition widget_row : row :=
  mk_row "Widget" "Hardware" (VFloat 9.99) (VInt 10) "2024-05-01 10:00:00".

Definition widget_database : database :=
  {| products := {[ 1 := widget_row ]}; sqlite_sequence := 1 |}.

(** The form on a new store, filled with "Widget", "Hardware", the given
    price and the quantity "10". *)
Definition widget_form (price : string) : ProductManagerApp :=
  mk_app empty_database None (Some "Widget") (Some "Hardware")
    (Some price) (Some "10") [] [] None [].

(** * Further statements about the store *)

(** The declarative reading of a LIKE pattern without escape character:
    ["%"] stands for any run of characters, ["_"] for any one character,
    any other character for itself up to the case of the letters A-Z. *)
Inductive like_spec : list ascii → list ascii → Prop :=
  | like_nil : like_spec [] []
  | like_percent p pre s :
      like_spec p s → like_spec (PERCENT :: p) (pre ++ s)
  | like_underscore p d s :
      like_spec p s → like_spec (UNDERSCORE :: p) (d :: s)
  | like_char c p d s :
      c ≠ PERCENT → c ≠ UNDERSCORE → to_lower c = to_lower d →
      like_spec p s → like_spec (c :: p) (d :: s).

(** A record matches the pattern [f'%{term}%'] in its name or in its
    category. *)
Definition matches_pattern (term : string) (p : product) : Prop :=
  like_spec (list_ascii_of_string (search_pattern term))
            (list_ascii_of_string (name p.2)) ∨
  like_spec (list_ascii_of_string (search_pattern term))
            (list_ascii_of_string (category p.2)).

(** Two terms that differ only by the case of letters A-Z. *)
Definition same_nocase (t1 t2 : string) : Prop :=
  to_lower <$> list_ascii_of_string t1 = to_lower <$> list_ascii_of_string t2.

(** The storage classes a row of [products] can have: the price is a
    REAL or a TEXT, the quantity is anything but NULL. *)
Definition storage_classes_ok (r : row) : Prop :=
  match price r with
  | VFloat _ | VStr _ => True
  | VNone | VInt _ => False
  end ∧ quantity r ≠ VNone.

(** Every row of the table has the storage classes of its columns. *)
Definition table_classes_ok (db : database) : Prop :=
  ∀ id r, products db !! id = Some r → storage_classes_ok r.

(** * The rest of the form *)

(** ** The builtin [str] on the values of a row *)

(** The decimal digits of a natural number below [10 ^ fuel], most
    significant first. *)
Fixpoint digits_of (fuel : nat) (n : Z) : list ascii :=
  match fuel with
  | O => []
  | S k =>
      if n <? 10 then [ascii_of_N (Z.to_N (48 + n))]
      else digits_of k (n / 10) ++ [ascii_of_N (Z.to_N (48 + n mod 10))]
  end.

Definition digits_of_Z (n : Z) : list ascii :=
  digits_of (S (Z.to_nat (Z.log2 n))) n.

(** [str(z)] for an [int] of at most [MAX_STR_DIGITS] digits, as every
    integer of a row is (beyond, [str] raises [ValueError]). *)
Definition str_int (z : Z) : string :=
  string_of_list_ascii
    (if z <? 0 then "-"%char :: digits_of_Z (- z) else digits_of_Z z).

(** The place of the decimal point of a positive rational [num / den]:
    the [k] with [10 ^ (k - 1) <= num / den < 10 ^ k], looked for around
    its estimate from the binary logarithms. *)
Definition below_pow10 (num den k : Z) : bool :=
  if 0 <=? k then num <? 10 ^ k * den else num * 10 ^ (- k) <? den.

Definition decimal_point (num den : Z) : Z :=
  let k0 := (Z.log2 num - Z.log2 den) * 30103 / 100000 - 1 in
  match filter (λ k, below_pow10 num den k = true)
               ((λ i, k0 + Z.of_nat i) <$> seq 0 6) with
  | k :: _ => k
  | [] => k0
  end.

(** The two decimals of [n] digits around [num / den], whose decimal
    point is at [k], with the one to prefer first when both read back as
    the float: the nearer one, the even one on a tie. *)
Definition decimals_around (num den k : Z) (n : Z) : list Z :=
  let '(lo, r) :=
    if 0 <=? n - k then Z.div_eucl (num * 10 ^ (n - k)) den
    else Z.div_eucl num (den * 10 ^ (k - n)) in
  let den' := if 0 <=? n - k then den else den * 10 ^ (k - n) in
  if r =? 0 then [lo]
  else match 2 * r ?= den' with
       | Lt => [lo; lo + 1]
       | Gt => [lo + 1; lo]
       | Eq => if Z.even lo then [lo; lo + 1] else [lo + 1; lo]
       end.

(** The shortest decimal [c * 10 ^ (k - n)] that reads back as the
    positive finite float [f] (of value [num / den]): its digits [c] and
    its number of digits [n], found by trying 1, 2, ... 17 digits. *)
Fixpoint shortest_decimal (f : float) (num den k : Z) (tries : nat) (n : Z)
    : Z * Z :=
  match tries with
  | O => (0, n)
  | S t =>
      match filter (λ c, (0 <? c) &&
                         PrimFloat.eqb (float_of_decimal false c (k - n)) f
                         = true)
                   (decimals_around num den k n) with
      | c :: _ => (c, n)
      | [] => shortest_decimal f num den k t (n + 1)
      end
  end.

Fixpoint strip_zeros (ds : list ascii) : list ascii :=
  match ds with
  | [] => []
  | d :: ds' =>
      match strip_zeros ds' with
      | [] => if code d =? 48 then [] else [d]
      | r => d :: r
      end
  end.

(** [repr] of a positive finite float from its shortest digits [ds] and
    the place [decpt] of its decimal point: plain notation when
    [-4 < decpt <= 16], with at least one digit after the point;
    exponent notation otherwise, with at least two exponent digits. *)
Definition format_repr (ds : list ascii) (decpt : Z) : list ascii :=
  let nd := Z.of_nat (length ds) in
  if (-4 <? decpt) && (decpt <=? 16) then
    if decpt <=? 0 then
      "0"%char :: "."%char :: repeat "0"%char (Z.to_nat (- decpt)) ++ ds
    else if nd <=? decpt then
      ds ++ repeat "0"%char (Z.to_nat (decpt - nd)) ++ [ "."%char; "0"%char ]
    else
      take (Z.to_nat decpt) ds ++ "."%char :: drop (Z.to_nat decpt) ds
  else
    let e := decpt - 1 in
    let es := digits_of_Z (Z.abs e) in
    take 1 ds
    ++ (match drop 1 ds with [] => [] | r => "."%char :: r end)
    ++ "e"%char :: (if e <? 0 then "-"%char else "+"%char)
    :: (if Z.abs e <? 10 then "0"%char :: es else es).

(** [str(f)] for a [float]: the shortest text that reads back as [f]. *)
Definition str_float (f : float) : string :=
  match Prim2SF f with
  | SpecFloat.S754_nan => "nan"
  | SpecFloat.S754_infinity s => if s then "-inf" else "inf"
  | SpecFloat.S754_zero s => if s then "-0.0" else "0.0"
  | SpecFloat.S754_finite s m e =>
      let num := if 0 <=? e then Z.pos m * 2 ^ e else Z.pos m in
      let den := if 0 <=? e then 1 else 2 ^ (- e) in
      let k := decimal_point num den in
      let '(c, n) := shortest_decimal (PrimFloat.abs f) num den k 17 1 in
      let ds := digits_of_Z c in
      let decpt := k + (Z.of_nat (length ds) - n) in
      string_of_list_ascii
        ((if s then ["-"%char] else [])
         ++ format_repr (strip_zeros ds) decpt)
  end.

(** [str(v)] for the value of a column. *)
Definition py_str (v : value) : string :=
  match v with
  | VNone => "None"
  | VInt z => str_int z
  | VFloat f => str_float f
  | VStr s => s
  end.

(** ** Drawing the table *)

(** The price cell is [f"${product[3]:.2f}"]: the format takes a [float]
    or an [int]; on a [str] it raises [ValueError], on [None]
    [TypeError]. *)
Definition price_cell_error (v : value) : option exn :=
  match v with
  | VFloat _ | VInt _ => None
  | VStr _ => Some ValueError
  | VNone => Some TypeError
  end.

(** The loop of [load_products]: the rows appended to the table, each
    standing for the product it shows, and the exception that stops the
    loop, if any. *)
Fixpoint draw_rows (products : list product) : list product * option exn :=
  match products with
  | [] => ([], None)
  | p :: ps =>
      match price_cell_error (price p.2) with
      | Some e => ([], Some e)
      | None => let '(rows, e) := draw_rows ps in (p :: rows, e)
      end
  end.

(** ** The whole window *)

(** The dialog of [delete_product]: the product its "Yes" button is
    bound to, and whether it is open. *)
Record AlertDialog : Type := mk_dialog {
  dialog_product_id : Z;
  dialog_open : bool
}.

(** The snack bars of the window: those of [validate_form] and
    [add_product], and those of the other handlers. *)
Inductive snack : Type :=
  | Notice (n : notice)
  | EditingProduct (name : string)
  | ErrorLoadingProduct (e : exn)
  | ProductUpdated
  | ProductNotFound
  | ErrorUpdatingProduct (e : exn)
  | ProductDeleted
  | ErrorDeletingProduct (e : exn)
  | FoundProducts (count : nat).

(** The application with the rest of its window: the search field, the
    three buttons (visible or not), the dialog of the page, and what an
    observer has seen so far, most recent first: the snack bars shown,
    the calls made on the store, the exceptions no handler caught. *)
Record Session : Type := mk_session {
  self : ProductManagerApp;
  search_field : string;
  submit_button : bool;
  update_button : bool;
  cancel_button : bool;
  dialog : option AlertDialog;
  shown : list snack;
  calls : list call;
  uncaught : list exn
}.

Definition set_self (s : Session) (a : ProductManagerApp) : Session :=
  mk_session a (search_field s) (submit_button s) (update_button s)
    (cancel_button s) (dialog s) (shown s) (calls s) (uncaught s).

Definition set_db (s : Session) (d : database) : Session :=
  set_self s
    (mk_app d (current_edit_id (self s)) (name_field (self s))
       (category_field (self s)) (price_field (self s))
       (quantity_field (self s)) (data_table (self s))
       (snack_bars (self s)) (focus (self s)) (store_calls (self s))).

Definition set_rows (s : Session) (rows : list product) : Session :=
  set_self s
    (mk_app (db (self s)) (current_edit_id (self s)) (name_field (self s))
       (category_field (self s)) (price_field (self s))
       (quantity_field (self s)) rows
       (snack_bars (self s)) (focus (self s)) (store_calls (self s))).

(** [current_edit_id], the four fields and the three buttons at once. *)
Definition set_form (s : Session) (edit : option Z)
    (n c p q : option string) (submit update cancel : bool) : Session :=
  mk_session
    (mk_app (db (self s)) edit n c p q (data_table (self s))
       (snack_bars (self s)) (focus (self s)) (store_calls (self s)))
    (search_field s) submit update cancel (dialog s) (shown s) (calls s)
    (uncaught s).

Definition show (s : Session) (m : snack) : Session :=
  mk_session (self s) (search_field s) (submit_button s) (update_button s)
    (cancel_button s) (dialog s) (m :: shown s) (calls s) (uncaught s).

Definition called (s : Session) (c : call) : Session :=
  mk_session (self s) (search_field s) (submit_button s) (update_button s)
    (cancel_button s) (dialog s) (shown s) (c :: calls s) (uncaught s).

Definition escaped (s : Session) (e : exn) : Session :=
  mk_session (self s) (search_field s) (submit_button s) (update_button s)
    (cancel_button s) (dialog s) (shown s) (calls s) (e :: uncaught s).

Definition set_dialog (s : Session) (d : option AlertDialog) : Session :=
  mk_session (self s) (search_field s) (submit_button s) (update_button s)
    (cancel_button s) d (shown s) (calls s) (uncaught s).

(** [validate_form] as the window sees it: the message it shows, if any,
    is the snack bar of the page. *)
Definition validate (s : Session) : bool * Session :=
  let '(valid, a) := validate_form (self s) in
  let fresh :=
    take (length (snack_bars a) - length (snack_bars (self s)))
         (snack_bars a) in
  (valid,
   mk_session a (search_field s) (submit_button s) (update_button s)
     (cancel_button s) (dialog s) ((Notice <$> fresh) ++ shown s) (calls s)
     (uncaught s)).

(** [load_products(products)]: the table is emptied, then drawn row by
    row; the exception of a row that cannot be drawn leaves the rows
    drawn so far. *)
Definition load_products_from (s : Session) (products : list product)
    : Session * option exn :=
  let '(rows, e) := draw_rows products in (set_rows s rows, e).

(** [load_products()] *)
Definition reload (s : Session) : Session * option exn :=
  load_products_from (called s ReadProducts) (read_products (db (self s))).

(** [cancel_edit] *)
Definition cancel_edit (s : Session) : Session :=
  set_form s None (Some "") (Some "") (Some "") (Some "") true false false.

(** [add_product], with the table drawn row by row. *)
Definition click_add (s : Session) (now : string) : Session :=
  let '(valid, s) := validate s in
  if negb valid then s
  else
    match name_field (self s), category_field (self s) with
    | Some n, Some c =>
        if truthy (name_field (self s)) && truthy (category_field (self s))
           && truthy (price_field (self s))
           && truthy (quantity_field (self s))
        then
          match float_of_field (price_field (self s)),
                int_of_field (quantity_field (self s)) with
          | Ok price, Ok quantity =>
              let '(r, d) :=
                create_product (db (self s)) (strip n) (strip c)
                  (VFloat price) (VInt quantity) now in
              let s :=
                called (set_db s d)
                  (CreateProduct (strip n) (strip c) (VFloat price)
                     (VInt quantity) now) in
              match r with
              | Ok _ =>
                  let s :=
                    set_form s (current_edit_id (self s)) (Some "")
                      (Some "") (Some "") (Some "") (submit_button s)
                      (update_button s) (cancel_button s) in
                  match reload s with
                  | (s, None) => show s (Notice ProductAdded)
                  | (s, Some ValueError) => show s (Notice InvalidNumberFormat)
                  | (s, Some e) => show s (Notice (ErrorAddingProduct e))
                  end
              | Raise ValueError => show s (Notice InvalidNumberFormat)
              | Raise e => show s (Notice (ErrorAddingProduct e))
              end
          | Raise ValueError, _ | Ok _, Raise ValueError =>
              show s (Notice InvalidNumberFormat)
          | Raise e, _ | Ok _, Raise e =>
              show s (Notice (ErrorAddingProduct e))
          end
        else show s (Notice PleaseFillAllFields)
    | _, _ => show s (Notice PleaseFillAllFields)
    end.

(** [edit_product] *)
Definition edit_product (s : Session) (product_id : Z) : Session :=
  let s := called s ReadProducts in
  match list_find (λ p : product, p.1 = product_id)
                  (read_products (db (self s))) with
  | Some (_, product) =>
      show
        (set_form s (Some product_id)
           (Some (name product.2)) (Some (category product.2))
           (Some (py_str (price product.2)))
           (Some (py_str (quantity product.2)))
           false true true)
        (EditingProduct (name product.2))
  | None => s
  end.

(** [update_product] of the form. A [current_edit_id] that is [None] or 0
    is false. *)
Definition click_update (s : Session) : Session :=
  let '(valid, s) := validate s in
  if negb valid then s
  else
    match current_edit_id (self s) with
    | Some id =>
        if id =? 0 then s
        else
          match name_field (self s), category_field (self s) with
          | Some n, Some c =>
              match float_of_field (price_field (self s)),
                    int_of_field (quantity_field (self s)) with
              | Ok price, Ok quantity =>
                  let '(r, d) :=
                    update_product (db (self s)) id (strip n) (strip c)
                      (VFloat price) (VInt quantity) in
                  let s :=
                    called (set_db s d)
                      (UpdateProduct id (strip n) (strip c) (VFloat price)
                         (VInt quantity)) in
                  match r with
                  | Ok rows_affected =>
                      if 0 <? rows_affected then
                        match reload (cancel_edit s) with
                        | (s, None) => show s ProductUpdated
                        | (s, Some e) => show s (ErrorUpdatingProduct e)
                        end
                      else show s ProductNotFound
                  | Raise e => show s (ErrorUpdatingProduct e)
                  end
              | Raise e, _ | Ok _, Raise e =>
                  show s (ErrorUpdatingProduct e)
              end
          | _, _ => s (* not reached: [validate_form] refuses such fields *)
          end
    | None => s
    end.

(** [delete_product] of the form: it only opens the dialog. *)
Definition click_delete (s : Session) (product_id : Z) : Session :=
  set_dialog s (Some (mk_dialog product_id true)).

(** [self.page.dialog.open = False] *)
Definition close_dialog (s : Session) : Session :=
  set_dialog s
    (match dialog s with
     | Some d => Some (mk_dialog (dialog_product_id d) false)
     | None => None
     end).

(** [confirm_delete], for the product the dialog was made for. *)
Definition confirm_delete (s : Session) (product_id : Z) : Session :=
  let '(r, d) := delete_product (db (self s)) product_id in
  let s := called (set_db s d) (DeleteProduct product_id) in
  close_dialog
    match r with
    | Ok rows_affected =>
        if 0 <? rows_affected then
          match reload s with
          | (s, None) => show s ProductDeleted
          | (s, Some e) => show s (ErrorDeletingProduct e)
          end
        else show s ProductNotFound
    | Raise e => show s (ErrorDeletingProduct e)
    end.

(** [cancel_delete] *)
Definition cancel_delete (s : Session) : Session := close_dialog s.

(** [search_products] of the form, run when the search field changes;
    no handler catches what the search or the drawing raises. *)
Definition search_changed (s : Session) : Session :=
  let search_term := strip (search_field s) in
  if negb (search_term =? "")%string then
    let s := called s (SearchProducts search_term) in
    match search_products (db (self s)) search_term with
    | Ok products =>
        match load_products_from s products with
        | (s, None) => show s (FoundProducts (length products))
        | (s, Some e) => escaped s e
        end
    | Raise e => escaped s e
    end
  else
    match reload s with
    | (s, None) => s
    | (s, Some e) => escaped s e
    end.

(** What the user does. The buttons "Yes" and "No" exist while the dialog
    is open; "Yes" deletes the product its dialog was opened for. A text
    typed in a field is any text: for the price and the quantity this
    is more than their filter lets through, which is digits only. *)
Inductive event : Type :=
  | TypeName (text : string)
  | TypeCategory (text : string)
  | TypePrice (text : string)
  | TypeQuantity (text : string)
  | TypeSearch (text : string)
  | ClickAdd (now : string)
  | ClickEdit (product_id : Z)
  | ClickUpdate
  | ClickCancel
  | ClickDelete (product_id : Z)
  | ClickYes
  | ClickNo.

Definition fire (s : Session) (ev : event) : Session :=
  let a := self s in
  match ev with
  | TypeName t =>
      set_form s (current_edit_id a) (Some t) (category_field a)
        (price_field a) (quantity_field a)
        (submit_button s) (update_button s) (cancel_button s)
  | TypeCategory t =>
      set_form s (current_edit_id a) (name_field a) (Some t)
        (price_field a) (quantity_field a)
        (submit_button s) (update_button s) (cancel_button s)
  | TypePrice t =>
      set_form s (current_edit_id a) (name_field a) (category_field a)
        (Some t) (quantity_field a)
        (submit_button s) (update_button s) (cancel_button s)
  | TypeQuantity t =>
      set_form s (current_edit_id a) (name_field a) (category_field a)
        (price_field a) (Some t)
        (submit_button s) (update_button s) (cancel_button s)
  | TypeSearch t =>
      search_changed
        (mk_session a t (submit_button s) (update_button s)
           (cancel_button s) (dialog s) (shown s) (calls s) (uncaught s))
  | ClickAdd now => click_add s now
  | ClickEdit id => edit_product s id
  | ClickUpdate => click_update s
  | ClickCancel => cancel_edit s
  | ClickDelete id => click_delete s id
  | ClickYes =>
      match dialog s with
      | Some d =>
          if dialog_open d then confirm_delete s (dialog_product_id d)
          else s
      | None => s
      end
  | ClickNo =>
      match dialog s with
      | Some d => if dialog_open d then cancel_delete s else s
      | None => s
      end
  end.

Definition fire_all (s : Session) (evs : list event) : Session :=
  foldl fire s evs.

(** [main]: the window at start. [file] is the table found in
    [products.db], if the file has one ([CREATE TABLE IF NOT EXISTS]
    keeps it); [blank_value] is the value of a text field nobody has
    typed in. *)
Definition create_table (file : option database) : database :=
  match file with
  | Some d => d
  | None => empty_database
  end.

Definition main (file : option database) (blank_value : option string)
    : Session :=
  let s :=
    mk_session
      (mk_app (create_table file) None blank_value blank_value blank_value
         blank_value [] [] None [])
      "" true false false None [] [] [] in
  match reload s with
  | (s, None) => s
  | (s, Some e) => escaped s e
  end.

(** ** Statements about the form *)

(** The fields as [validate_form] wants them: a name [n] and a category
    [c] that are not blank, a price that parses to [p], not at most
    zero, a quantity that parses to [q], not below zero. *)
Definition fields_valid (a : ProductManagerApp) (n c : string) (p : float)
    (q : Z) : Prop :=
  name_field a = Some n ∧ blank (Some n) = false ∧
  category_field a = Some c ∧ blank (Some c) = false ∧
  float_of_field (price_field a) = Ok p ∧ PrimFloat.leb p 0 = false ∧
  int_of_field (quantity_field a) = Ok q ∧ 0 <= q.

(** The form is either in create mode (no product being edited, "Add"
    visible, "Update" and "Cancel" hidden) or in edit mode (a product
    being edited, "Add" hidden, "Update" and "Cancel" visible). *)
Definition mode (s : Session) : option Z * bool * bool * bool :=
  (current_edit_id (self s), submit_button s, update_button s,
   cancel_button s).

Definition mode_ok (s : Session) : Prop :=
  mode s = (None, true, false, false) ∨
  ∃ id, mode s = (Some id, false, true, true).

(** The four fields of the form. *)
Definition fields (s : Session)
    : option string * option string * option string * option string :=
  (name_field (self s), category_field (self s), price_field (self s),
   quantity_field (self s)).

(** A row as the form writes them: name and category not empty and
    without white space at their ends, a price that is a float above
    zero, a quantity that is an integer from 0 to the largest of 64
    bits. *)
Definition row_valid (r : row) : Prop :=
  name r ≠ EmptyString ∧ strip (name r) = name r ∧
  category r ≠ EmptyString ∧ strip (category r) = category r ∧
  (∃ p, price r = VFloat p ∧ PrimFloat.ltb 0 p = true) ∧
  (∃ q, quantity r = VInt q ∧ 0 <= q <= INT64_MAX).

Definition table_valid (d : database) : Prop :=
  ∀ id r, products d !! id = Some r → row_valid r.

(** Every price of a list of products can be drawn. *)
Definition drawable (products : list product) : Prop :=
  Forall (λ p : product, price_cell_error (price p.2) = None) products.

(** ** Windows at given states *)

(** A store whose AUTOINCREMENT sequence has reached the largest id. *)
Definition full_database : database :=
  {| products := ∅; sqlite_sequence := INT64_MAX |}.

(** The window opened on the store that holds "Widget". *)
Definition widget_session : Session :=
  main (Some widget_database) (Some EmptyString).

(** The same window with a new product typed in the form. *)
Definition draft_session : Session :=
  fire_all widget_session
    [TypeName " Gadget "; TypeCategory "Tools"; TypePrice "5";
     TypeQuantity "3"].

(** The same window while "Widget" is being edited, with a new price
    typed in. *)
Definition editing_session : Session :=
  fire_all widget_session [ClickEdit 1; TypePrice "12.5"].
(** * Lemmas *)

(** ** Listing: order and content of [read_products] *)

#[local] Instance id_desc_total : Total id_desc.
Proof. intros p1 p2. unfold id_desc. lia. Qed.

#[local] Instance id_desc_trans : Transitive id_desc.
Proof. intros p1 p2 p3. unfold id_desc. lia. Qed.

Lemma read_products_perm db :
  read_products db ≡ₚ map_to_list (products db).
Proof. apply merge_sort_Permutation. Qed.

Lemma elem_of_read_products db (p : product) :
  p ∈ read_products db ↔ products db !! p.1 = Some p.2.
Proof.
  rewrite read_products_perm. destruct p as [i r].
  apply elem_of_map_to_list.
Qed.

Lemma NoDup_read_products_ids db : NoDup (read_products db).*1.
Proof.
  rewrite read_products_perm. apply NoDup_fst_map_to_list.
Qed.

Lemma NoDup_read_products db : NoDup (read_products db).
Proof. eapply NoDup_fmap_1, NoDup_read_products_ids. Qed.

Lemma StronglySorted_desc_gt (l : list product) :
  NoDup l.*1 → StronglySorted id_desc l → StronglySorted id_gt l.
Proof.
  induction l as [|p l IH]; intros Hnd Hs; [constructor|].
  rewrite fmap_cons in Hnd. apply NoDup_cons in Hnd as [Hp Hnd].
  apply StronglySorted_cons in Hs as [Hall Hs].
  apply StronglySorted_cons. split; [|auto].
  apply Forall_forall. intros p' Hp'.
  rewrite Forall_forall in Hall. specialize (Hall _ Hp').
  unfold id_desc in Hall. unfold id_gt.
  assert (p'.1 ≠ p.1); [|lia].
  intros Heq. apply Hp. rewrite <- Heq. by apply list_elem_of_fmap_2.
Qed.

Lemma read_products_sorted db : StronglySorted id_gt (read_products db).
Proof.
  apply StronglySorted_desc_gt; [apply NoDup_read_products_ids|].
  apply StronglySorted_merge_sort; apply _.
Qed.

Lemma StronglySorted_gt_NoDup (l : list product) :
  StronglySorted id_gt l → NoDup l.
Proof.
  induction 1 as [|p l Hs IH Hall]; constructor; [|done].
  intros Hin. rewrite Forall_forall in Hall.
  specialize (Hall _ Hin). unfold id_gt in Hall. lia.
Qed.

(** A list with strictly descending ids and the rows of the table is
    the listing. *)
Lemma read_products_unique db (l : list product) :
  StronglySorted id_gt l →
  (∀ p, p ∈ l ↔ products db !! p.1 = Some p.2) →
  l = read_products db.
Proof.
  intros Hs Hl.
  apply (StronglySorted_unique_strong id_gt);
    [|done|apply read_products_sorted|].
  - unfold id_gt. intros; lia.
  - apply NoDup_Permutation;
      [by apply StronglySorted_gt_NoDup|apply NoDup_read_products|].
    intros p. by rewrite Hl, elem_of_read_products.
Qed.

Lemma StronglySorted_gt_filter (P : product → Prop)
    `{∀ p, Decision (P p)} (l : list product) :
  StronglySorted id_gt l → StronglySorted id_gt (filter P l).
Proof.
  induction 1 as [|p l Hs IH Hall]; [constructor|].
  rewrite filter_cons. case_decide; [|done].
  constructor; [done|].
  apply Forall_forall. intros p' [_ Hp']%list_elem_of_filter.
  rewrite Forall_forall in Hall. auto.
Qed.

Lemma max_rowid_ge (t : gmap Z row) i r :
  t !! i = Some r → i <= max_rowid t.
Proof.
  intros Hi. apply elem_of_map_to_list in Hi.
  apply (list_elem_of_fmap_2 fst) in Hi. simpl in Hi.
  unfold max_rowid. induction Hi as [l|y l Hi IH]; simpl; lia.
Qed.

Lemma largest_rowid_ge db i r :
  products db !! i = Some r → i <= largest_rowid db.
Proof. intros Hi%max_rowid_ge. unfold largest_rowid. lia. Qed.

(** ** Creation *)

Lemma bind_Ok {A B} (r : result A) (k : A → result B) (b : B) :
  r ≫= k = Ok b → ∃ a, r = Ok a ∧ k a = Ok b.
Proof. destruct r; [eauto|done]. Qed.

Lemma not_null_Ok (v v' : value) : not_null v = Ok v' → v' = v ∧ v ≠ VNone.
Proof. destruct v; simpl; intros [= <-]; done. Qed.

(** What [create_product] does when it succeeds: the new key is above
    every key of the table and above the sequence, the row is stored
    under it, and the listing gains the new record at its head. *)
Lemma create_product_Ok db n c p q now id db' :
  create_product db n c p q now = (Ok id, db') →
  id = largest_rowid db + 1 ∧ largest_rowid db < INT64_MAX ∧
  ∃ r, db' = {| products := <[id := r]> (products db);
                sqlite_sequence := id |} ∧
       name r = n ∧ category r = c ∧ created_date r = now ∧
       price r ≠ VNone ∧ quantity r ≠ VNone ∧
       (∃ bp, bind_param p = Ok bp ∧ price r = affinity_real bp) ∧
       (∃ bq, bind_param q = Ok bq ∧ quantity r = affinity_integer bq).
Proof.
  unfold create_product.
  destruct (_ ≫= _) as [[id' r]|] eqn:Hrun; [|congruence].
  intros [= -> <-].
  apply bind_Ok in Hrun as (bp & Hbp & Hrun).
  apply bind_Ok in Hrun as (bq & Hbq & Hrun).
  apply bind_Ok in Hrun as (i & Hi & Hrun).
  apply bind_Ok in Hrun as (p' & Hp & Hrun).
  apply bind_Ok in Hrun as (q' & Hq & Hrun).
  injection Hrun as -> <-.
  apply not_null_Ok in Hp as [-> Hp]. apply not_null_Ok in Hq as [-> Hq].
  unfold new_rowid in Hi. case_match eqn:Hlt; [|done]. injection Hi as <-.
  apply Z.ltb_lt in Hlt.
  split; [done|]. split; [done|]. eexists; split; [done|]. simpl.
  repeat (split; [done|]). split; eauto.
Qed.

Lemma create_product_Raise db n c p q now e db' :
  create_product db n c p q now = (Raise e, db') → db' = db.
Proof.
  unfold create_product.
  destruct (_ ≫= _) as [[]|]; congruence.
Qed.

Lemma read_products_insert_new db id r :
  largest_rowid db < id →
  read_products {| products := <[id := r]> (products db);
                   sqlite_sequence := id |}
  = (id, r) :: read_products db.
Proof.
  intros Hid. symmetry. apply read_products_unique.
  - constructor; [apply read_products_sorted|].
    apply Forall_forall. intros p Hp%elem_of_read_products.
    apply largest_rowid_ge in Hp. unfold id_gt. simpl. lia.
  - intros [i r']. simpl. rewrite elem_of_cons, elem_of_read_products.
    simpl. destruct (decide (id = i)) as [->|Hne].
    + rewrite lookup_insert_eq. split.
      * intros [[= ->]|Hi]; [done|].
        apply largest_rowid_ge in Hi. lia.
      * intros [= ->]. by left.
    + rewrite lookup_insert_ne by done. split.
      * intros [[= -> ->]|Hi]; done.
      * by right.
Qed.

Lemma fresh_rowid_not_listed db id :
  largest_rowid db < id → id ∉ (read_products db).*1.
Proof.
  intros Hid [p [-> Hp%elem_of_read_products]]%list_elem_of_fmap.
  apply largest_rowid_ge in Hp. lia.
Qed.

(** A strictly positive float is not a NaN. *)
Lemma positive_not_nan (p : float) :
  PrimFloat.ltb 0 p = true → PrimFloat.is_nan p = false.
Proof.
  unfold PrimFloat.is_nan.
  rewrite (FloatAxioms.ltb_spec 0 p), (FloatAxioms.eqb_spec p p).
  destruct (Prim2SF p) as [s|s| |s m e]; try (destruct s);
    try (vm_compute; congruence); intros _;
    unfold SpecFloat.SFeqb, SpecFloat.SFcompare;
    rewrite ?Z.compare_refl, ?Pos.compare_refl; try reflexivity.
  all: rewrite Pos.compare_cont_refl; reflexivity.
Qed.

(** A float above zero is read back as it was stored. *)
Lemma stored_real_positive (p : float) :
  PrimFloat.ltb 0 p = true → stored_real p = p.
Proof.
  unfold stored_real.
  rewrite (FloatAxioms.ltb_spec 0 p), (FloatAxioms.eqb_spec p 0).
  destruct (Prim2SF p) as [s|s| |s m e]; try (destruct s);
    try (vm_compute; congruence); intros _; reflexivity.
Qed.

(** [create_product] on a float that is a number and an integer of 64
    bits, while keys remain. *)
Lemma create_product_numbers db n c (p : float) (q : Z) now :
  PrimFloat.is_nan p = false → is_int64 q = true →
  largest_rowid db < INT64_MAX →
  create_product db n c (VFloat p) (VInt q) now =
    (Ok (largest_rowid db + 1),
     {| products :=
          <[largest_rowid db + 1 :=
              mk_row n c (VFloat (stored_real p)) (VInt q) now]>
            (products db);
        sqlite_sequence := largest_rowid db + 1 |}).
Proof.
  intros Hp Hq Hid. unfold create_product, new_rowid. simpl.
  rewrite Hp, Hq. simpl.
  apply Z.ltb_lt in Hid. rewrite Hid. done.
Qed.

(** ** Update *)

Lemma read_products_insert_old db id old r :
  products db !! id = Some old →
  read_products {| products := <[id := r]> (products db);
                   sqlite_sequence := sqlite_sequence db |}
  = (λ x : product, if decide (x.1 = id) then (id, r) else x)
      <$> read_products db.
Proof.
  intros Hold. symmetry. apply read_products_unique.
  - apply (StronglySorted_fmap _ id_gt id_gt); [|apply read_products_sorted].
    intros x y. unfold id_gt. repeat case_decide; simpl; lia.
  - intros [i r']. simpl. rewrite list_elem_of_fmap. split.
    + intros ([j x] & Heq & Hx%elem_of_read_products). simpl in *.
      case_decide; simplify_eq.
      * by rewrite lookup_insert_eq.
      * by rewrite lookup_insert_ne.
    + destruct (decide (id = i)) as [->|Hne].
      * rewrite lookup_insert_eq. intros [= ->].
        exists (i, old). simpl. rewrite decide_True by done.
        split; [done|]. by apply elem_of_read_products.
      * rewrite lookup_insert_ne by done. intros Hi.
        exists (i, r'). simpl. rewrite decide_False by done.
        split; [done|]. by apply elem_of_read_products.
Qed.

Lemma bind_param_Raise (v : value) (e : exn) :
  bind_param v = Raise e → e = OverflowError.
Proof. destruct v; simpl; try case_match; congruence. Qed.

(** [update_product] on a float that is a number and integers of 64
    bits, for a row of the table. *)
Lemma update_product_numbers db id old n c (p : float) (q : Z) :
  products db !! id = Some old →
  is_int64 id = true → PrimFloat.is_nan p = false → is_int64 q = true →
  update_product db id n c (VFloat p) (VInt q) =
    (Ok 1,
     {| products :=
          <[id := mk_row n c (VFloat (stored_real p)) (VInt q)
                    (created_date old)]>
            (products db);
        sqlite_sequence := sqlite_sequence db |}).
Proof.
  intros Hold Hid Hp Hq. unfold update_product. simpl.
  by rewrite Hp, Hq, Hid, Hold.
Qed.

(** [update_product] on a key the table does not hold. *)
Lemma update_product_absent db id n c p q :
  products db !! id = None →
  update_product db id n c p q = (Ok 0, db) ∨
  update_product db id n c p q = (Raise OverflowError, db).
Proof.
  intros Hnone. unfold update_product. rewrite Hnone.
  destruct (bind_param p) as [bp|e1] eqn:Hp,
           (bind_param q) as [bq|e2] eqn:Hq,
           (bind_param (VInt id)) as [bi|e3] eqn:Hi;
    repeat match goal with
           | H : bind_param _ = Raise _ |- _ =>
               apply bind_param_Raise in H as ->
           end; auto.
Qed.

(** ** Deletion *)

Lemma read_products_delete db id :
  read_products {| products := delete id (products db);
                   sqlite_sequence := sqlite_sequence db |}
  = filter (λ x : product, x.1 ≠ id) (read_products db).
Proof.
  symmetry. apply read_products_unique.
  - apply StronglySorted_gt_filter, read_products_sorted.
  - intros [i r]. rewrite list_elem_of_filter, elem_of_read_products.
    simpl. rewrite lookup_delete_Some. intuition congruence.
Qed.

Lemma delete_product_present db id r :
  products db !! id = Some r → is_int64 id = true →
  delete_product db id =
    (Ok 1, {| products := delete id (products db);
              sqlite_sequence := sqlite_sequence db |}).
Proof.
  intros Hr Hid. unfold delete_product. simpl. by rewrite Hid, Hr.
Qed.

Lemma delete_product_absent db id :
  products db !! id = None → is_int64 id = true →
  delete_product db id = (Ok 0, db).
Proof.
  intros Hr Hid. unfold delete_product. simpl. by rewrite Hid, Hr.
Qed.

Lemma delete_product_overflow db id :
  is_int64 id = false → delete_product db id = (Raise OverflowError, db).
Proof. intros Hid. unfold delete_product. simpl. by rewrite Hid. Qed.

(** ** Search *)

Lemma prefix_nocase_spec (t s : list ascii) :
  prefix_nocase t s = true ↔
  ∃ mid post, s = mid ++ post ∧ to_lower <$> mid = to_lower <$> t.
Proof.
  revert s. induction t as [|c t IH]; intros s; simpl.
  - split; [|done]. intros _. by exists [], s.
  - destruct s as [|d s].
    + split; [done|]. intros (mid & post & Hs & Hmid).
      symmetry in Hs. apply app_eq_nil in Hs as [-> _]. done.
    + unfold eq_nocase. rewrite andb_true_iff, bool_decide_eq_true, IH.
      split.
      * intros (Hcd & mid & post & -> & Hmid).
        exists (d :: mid), post. split; [done|].
        rewrite !fmap_cons. by rewrite Hcd, Hmid.
      * intros (mid & post & Hs & Hmid).
        destruct mid as [|d' mid]; [done|].
        rewrite !fmap_cons in Hmid. simplify_eq/=. eauto.
Qed.

Lemma occurs_nocase_spec (t s : list ascii) :
  occurs_nocase t s = true ↔
  ∃ pre mid post, s = pre ++ mid ++ post ∧ to_lower <$> mid = to_lower <$> t.
Proof.
  induction s as [|d s IH]; simpl;
    rewrite orb_true_iff, prefix_nocase_spec.
  - split.
    + intros [(mid & post & Hs & Hmid)|]; [|done]. by exists [], mid, post.
    + intros (pre & mid & post & Hs & Hmid). left.
      symmetry in Hs. apply app_eq_nil in Hs as [-> Hs]. eauto.
  - rewrite IH. split.
    + intros [(mid & post & Hs & Hmid)|(pre & mid & post & -> & Hmid)].
      * by exists [], mid, post.
      * by exists (d :: pre), mid, post.
    + intros (pre & mid & post & Hs & Hmid).
      destruct pre as [|d' pre]; simplify_eq/=; [left|right]; eauto.
Qed.

Lemma contains_nocase_spec (term text : string) :
  contains_nocase term text = true ↔ is_substring_nocase term text.
Proof. apply occurs_nocase_spec. Qed.

Lemma pattern_compare_percent_nil (p : list ascii) :
  pattern_compare (PERCENT :: p) [] = pattern_compare p [] || false.
Proof. done. Qed.

Lemma pattern_compare_percent_cons (p : list ascii) (d : ascii) (s : list ascii) :
  pattern_compare (PERCENT :: p) (d :: s) =
  pattern_compare p (d :: s) || pattern_compare (PERCENT :: p) s.
Proof. done. Qed.

Lemma pattern_compare_percent_end (s : list ascii) :
  pattern_compare [PERCENT] s = true.
Proof.
  induction s as [|d s IH]; [done|].
  rewrite pattern_compare_percent_cons, IH. apply orb_true_r.
Qed.

Lemma pattern_compare_literal (c : ascii) (p s : list ascii) :
  c ≠ PERCENT → c ≠ UNDERSCORE →
  pattern_compare (c :: p) s =
  match s with [] => false | d :: s' => eq_nocase c d && pattern_compare p s' end.
Proof.
  intros Hp Hu. simpl.
  rewrite (bool_decide_eq_false_2 _ Hp), (bool_decide_eq_false_2 _ Hu).
  by destruct s.
Qed.

Lemma pattern_compare_prefix (t s : list ascii) :
  forallb (λ c, negb (bool_decide (c = PERCENT))
                && negb (bool_decide (c = UNDERSCORE))) t = true →
  pattern_compare (t ++ [PERCENT]) s = prefix_nocase t s.
Proof.
  revert s. induction t as [|c t IH]; intros s Ht.
  - apply pattern_compare_percent_end.
  - simpl in Ht. apply andb_true_iff in Ht as [Hc Ht].
    apply andb_true_iff in Hc as [Hp Hu].
    apply negb_true_iff, bool_decide_eq_false in Hp, Hu.
    rewrite <- app_comm_cons, pattern_compare_literal by done.
    destruct s as [|d s]; [done|]. simpl. by rewrite IH.
Qed.

Lemma pattern_compare_contains (t s : list ascii) :
  forallb (λ c, negb (bool_decide (c = PERCENT))
                && negb (bool_decide (c = UNDERSCORE))) t = true →
  pattern_compare (PERCENT :: t ++ [PERCENT]) s = occurs_nocase t s.
Proof.
  intros Ht. induction s as [|d s IH].
  - by rewrite pattern_compare_percent_nil, pattern_compare_prefix.
  - by rewrite pattern_compare_percent_cons, pattern_compare_prefix, IH.
Qed.

Lemma list_ascii_of_string_app (s1 s2 : string) :
  list_ascii_of_string (s1 +:+ s2) =
  list_ascii_of_string s1 ++ list_ascii_of_string s2.
Proof. induction s1 as [|c s1 IH]; simpl; [done|]. by rewrite IH. Qed.

Lemma search_pattern_chars (term : string) :
  list_ascii_of_string (search_pattern term) =
  PERCENT :: list_ascii_of_string term ++ [PERCENT].
Proof.
  unfold search_pattern. by rewrite !list_ascii_of_string_app.
Qed.

Lemma like_search_pattern (term text : string) :
  wildcard_free term = true →
  like (search_pattern term) text = contains_nocase term text.
Proof.
  intros Hw. unfold like. rewrite search_pattern_chars.
  by apply pattern_compare_contains.
Qed.

Lemma like_empty_term (text : string) : like (search_pattern "") text = true.
Proof.
  rewrite like_search_pattern by done. unfold contains_nocase.
  by destruct (list_ascii_of_string text).
Qed.

Lemma filter_all {A} (P : A → Prop) `{∀ x, Decision (P x)} (l : list A) :
  (∀ x, x ∈ l → P x) → filter P l = l.
Proof.
  induction l as [|x l IH]; intros Hall; [done|].
  rewrite filter_cons_True by (apply Hall; left).
  f_equal. apply IH. intros y Hy. apply Hall. by right.
Qed.

Lemma row_matches_search_pattern (term : string) (p : product) :
  wildcard_free term = true →
  row_matches (search_pattern term) p = true ↔ matches_term term p.
Proof.
  intros Hw. unfold row_matches, matches_term.
  by rewrite !like_search_pattern, orb_true_iff, !contains_nocase_spec.
Qed.

(** [search_products] below the limit on the length of the pattern. *)
Lemma search_products_Ok db term :
  utf8_length (search_pattern term) <= SQLITE_MAX_LIKE_PATTERN_LENGTH →
  search_products db term =
  Ok (filter (λ p, row_matches (search_pattern term) p = true)
        (read_products db)).
Proof.
  intros Hlen. unfold search_products.
  destruct (read_products db) as [|p0 rows]; [done|].
  by rewrite (proj2 (Z.ltb_ge _ _) Hlen).
Qed.

(** ** What the store accepts and refuses *)

Lemma largest_rowid_fresh db id :
  largest_rowid db < id → products db !! id = None.
Proof.
  intros Hid. destruct (products db !! id) as [r|] eqn:Hr; [|done].
  apply largest_rowid_ge in Hr. lia.
Qed.

Lemma bind_param_storable (v : value) :
  unstorable v = false → bind_param v = Ok v.
Proof.
  destruct v as [|z|f|s]; simpl; try done.
  - intros Hz%negb_false_iff. by rewrite Hz.
  - by intros ->.
Qed.

Lemma sqlite_numeric_not_null (s : string) (v : value) :
  sqlite_numeric s = Some v → v ≠ VNone.
Proof.
  unfold sqlite_numeric. repeat case_match; congruence.
Qed.

Lemma real_to_integer_not_null (f : float) : real_to_integer f ≠ VNone.
Proof. unfold real_to_integer. repeat case_match; congruence. Qed.

Lemma affinity_real_not_null (v : value) :
  v ≠ VNone → affinity_real v ≠ VNone.
Proof.
  destruct v as [|z|f|s]; simpl; try done.
  destruct (sqlite_numeric s) as [[]|] eqn:Hs; try done.
  by apply sqlite_numeric_not_null in Hs.
Qed.

Lemma affinity_integer_not_null (v : value) :
  v ≠ VNone → affinity_integer v ≠ VNone.
Proof.
  destruct v as [|z|f|s]; simpl; try done.
  - intros _. apply real_to_integer_not_null.
  - destruct (sqlite_numeric s) as [[]|] eqn:Hs; try done.
    + by apply sqlite_numeric_not_null in Hs.
    + intros _. apply real_to_integer_not_null.
Qed.

Lemma not_null_id (v : value) : v ≠ VNone → not_null v = Ok v.
Proof. by destruct v. Qed.

(** [create_product] succeeds on values the columns can hold, while keys
    remain. *)
Lemma create_product_storable db n c p q now :
  unstorable p = false → unstorable q = false →
  largest_rowid db < INT64_MAX →
  create_product db n c p q now =
    (Ok (largest_rowid db + 1),
     {| products :=
          <[largest_rowid db + 1 :=
              mk_row n c (affinity_real p) (affinity_integer q) now]>
            (products db);
        sqlite_sequence := largest_rowid db + 1 |}).
Proof.
  intros Hp Hq Hid. unfold create_product, new_rowid.
  rewrite !bind_param_storable by done.
  apply Z.ltb_lt in Hid. rewrite Hid.
  assert (p ≠ VNone) as Hp' by (by destruct p).
  assert (q ≠ VNone) as Hq' by (by destruct q).
  cbn [mbind result_bind].
  rewrite (not_null_id (affinity_real p))
    by (by apply affinity_real_not_null).
  rewrite (not_null_id (affinity_integer q))
    by (by apply affinity_integer_not_null).
  done.
Qed.

(** [create_product] fails, changing nothing, on a value no column can
    hold or once the keys are used up. *)
Lemma create_product_unstorable db n c p q now :
  unstorable p = true ∨ unstorable q = true ∨
  INT64_MAX <= largest_rowid db →
  ∃ e, create_product db n c p q now = (Raise e, db).
Proof.
  intros H.
  destruct (create_product db n c p q now) as [[id|e] db'] eqn:Hrun.
  - exfalso. apply create_product_Ok in Hrun
      as (_ & Hlt & r & _ & _ & _ & _ & Hp & Hq
          & (bp & Hbp & Hrp) & (bq & Hbq & Hrq)).
    destruct H as [H|[H|H]].
    + destruct p as [|z|f|s]; simpl in *; try done.
      * injection Hbp as <-. by rewrite Hrp in Hp.
      * apply negb_true_iff in H. by rewrite H in Hbp.
      * rewrite H in Hbp. injection Hbp as <-. by rewrite Hrp in Hp.
    + destruct q as [|z|f|s]; simpl in *; try done.
      * injection Hbq as <-. by rewrite Hrq in Hq.
      * apply negb_true_iff in H. by rewrite H in Hbq.
      * rewrite H in Hbq. injection Hbq as <-. by rewrite Hrq in Hq.
    + lia.
  - apply create_product_Raise in Hrun as Heq. subst db'. eauto.
Qed.

(** ** One call, whole or not at all *)

Lemma create_product_atomic db n c p q now : atomic_create db n c p q now.
Proof.
  unfold atomic_create.
  destruct (create_product db n c p q now) as [[id|e] db'] eqn:Hrun.
  - right. apply create_product_Ok in Hrun
      as (-> & Hlt & r & -> & Hn & Hc & Hd & Hp & Hq
          & (bp & Hbp & Hrp) & (bq & Hbq & Hrq)).
    exists (largest_rowid db + 1), r.
    split; [done|]. split; [apply largest_rowid_fresh; lia|].
    split; [done|]. exists bp, bq.
    split; [done|]. split; [done|].
    split; [by rewrite <- Hrp|]. split; [by rewrite <- Hrq|].
    destruct r. simpl in *. congruence.
  - left. apply create_product_Raise in Hrun. eauto.
Qed.

Lemma update_product_atomic db id n c p q : atomic_update db id n c p q.
Proof.
  unfold atomic_update, update_product.
  destruct (_ ≫= _) as [[r|]|e] eqn:Hrun.
  - right; right.
    apply bind_Ok in Hrun as (bp & Hbp & Hrun).
    apply bind_Ok in Hrun as (bq & Hbq & Hrun).
    apply bind_Ok in Hrun as (bi & _ & Hrun).
    destruct (products db !! id) as [old|] eqn:Hold; [|done].
    apply bind_Ok in Hrun as (p' & Hp & Hrun).
    apply bind_Ok in Hrun as (q' & Hq & Hrun).
    injection Hrun as <-.
    apply not_null_Ok in Hp as [-> Hp]. apply not_null_Ok in Hq as [-> Hq].
    exists old. eexists. split; [done|]. split; [done|]. split; [done|].
    by exists bp, bq.
  - right; left.
    apply bind_Ok in Hrun as (bp & _ & Hrun).
    apply bind_Ok in Hrun as (bq & _ & Hrun).
    apply bind_Ok in Hrun as (bi & _ & Hrun).
    destruct (products db !! id) as [old|] eqn:Hold; [|done].
    apply bind_Ok in Hrun as (p' & Hp & Hrun).
    apply bind_Ok in Hrun as (q' & Hq & Hrun). done.
  - left. eauto.
Qed.

Lemma delete_product_atomic db id : atomic_delete db id.
Proof.
  unfold atomic_delete, delete_product.
  destruct (bind_param (VInt id)) as [bi|e]; [|left; eauto].
  destruct (products db !! id) as [r|] eqn:Hr; right; [right|left]; eauto.
Qed.

Lemma update_product_not_found db id n c p q :
  products db !! id = None →
  bindable p = true → bindable q = true → is_int64 id = true →
  update_product db id n c p q = (Ok 0, db).
Proof.
  intros Hnone Hp Hq Hid. unfold update_product. rewrite Hnone.
  assert (∀ v, bindable v = true → ∃ b, bind_param v = Ok b) as Hb.
  { intros [|z|f|s]; simpl; eauto. intros ->. eauto. }
  destruct (Hb _ Hp) as [bp ->]. destruct (Hb _ Hq) as [bq ->].
  destruct (Hb (VInt id) Hid) as [bi ->]. done.
Qed.

(** ** The sequence never goes back *)

Lemma update_product_sequence db id n c p q :
  sqlite_sequence (update_product db id n c p q).2 = sqlite_sequence db.
Proof.
  unfold update_product. by destruct (_ ≫= _) as [[r|]|e].
Qed.

Lemma delete_product_sequence db id :
  sqlite_sequence (delete_product db id).2 = sqlite_sequence db.
Proof.
  unfold delete_product. by repeat case_match.
Qed.

Lemma exec_sequence db c o db1 :
  exec db c = (o, db1) →
  sqlite_sequence db <= sqlite_sequence db1 ∧
  ∀ id, o = Some id → sqlite_sequence db < id ∧ id <= sqlite_sequence db1.
Proof.
  destruct c as [n c p q now| |i n c p q|i|t]; simpl.
  - destruct (create_product db n c p q now) as [[id|e] db'] eqn:Hrun;
      intros [= <- <-].
    + apply create_product_Ok in Hrun as (-> & _ & r & -> & _).
      simpl. unfold largest_rowid. split; [lia|].
      intros id [= <-]. lia.
    + apply create_product_Raise in Hrun as ->. split; [lia|done].
  - intros [= <- <-]. split; [lia|done].
  - intros [= <- <-]. rewrite update_product_sequence. split; [lia|done].
  - intros [= <- <-]. rewrite delete_product_sequence. split; [lia|done].
  - intros [= <- <-]. split; [lia|done].
Qed.

Lemma run_increasing cs : ∀ db ids db',
  run db cs = (ids, db') →
  sqlite_sequence db <= sqlite_sequence db' ∧
  Forall (λ i, sqlite_sequence db < i ∧ i <= sqlite_sequence db') ids ∧
  StronglySorted Z.lt ids.
Proof.
  induction cs as [|c cs IH]; intros db ids db'; simpl.
  - intros [= <- <-]. split; [lia|]. split; constructor.
  - destruct (exec db c) as [o db1] eqn:Hexec.
    destruct (run db1 cs) as [ids1 db2] eqn:Hrun.
    intros [= <- <-].
    apply exec_sequence in Hexec as [Hseq Ho].
    apply IH in Hrun as (Hseq' & Hall & Hsorted).
    split; [lia|].
    assert (Forall (λ i, sqlite_sequence db < i ∧ i <= sqlite_sequence db2)
              ids1) as Hall'.
    { eapply Forall_impl; [exact Hall|]. simpl. intros; lia. }
    destruct o as [id|]; [|done].
    destruct (Ho id eq_refl) as [Hlo Hhi].
    split; [constructor; [lia|done]|].
    constructor; [done|].
    eapply Forall_impl; [exact Hall|]. simpl. intros; lia.
Qed.

(** ** The form *)

Lemma validate_form_store app :
  store_calls (validate_form app).2 = store_calls app ∧
  db (validate_form app).2 = db app.
Proof.
  unfold validate_form, reject. by repeat case_match.
Qed.

(** [add_product] stops when [validate_form] returns [False]. *)
Lemma add_product_invalid app now :
  (validate_form app).1 = false →
  aborted_before_store app (add_product app now).
Proof.
  intros Hv. unfold add_product, aborted_before_store.
  pose proof (validate_form_store app) as Hs.
  destruct (validate_form app) as [valid app']. simpl in *. by subst valid.
Qed.

(** The submissions [validate_form] refuses. *)
Lemma validate_form_refuses app :
  blank (name_field app) = true ∨ blank (category_field app) = true ∨
  (∃ e, float_of_field (price_field app) = Raise e) ∨
  (∃ p, float_of_field (price_field app) = Ok p ∧ PrimFloat.leb p 0 = true) ∨
  (∃ e, int_of_field (quantity_field app) = Raise e) ∨
  (∃ q, int_of_field (quantity_field app) = Ok q ∧ q < 0) →
  (validate_form app).1 = false.
Proof.
  unfold validate_form, reject.
  intros H. repeat case_match; simpl; try done; exfalso.
  destruct H as [H|[H|[[e H]|[(p & H & Hp)|[[e H]|(q & H & Hq)]]]]];
    simplify_eq; try congruence.
  match goal with H : (_ <? 0) = false |- _ => apply Z.ltb_ge in H end. lia.
Qed.

(** What [validate_form] does when it refuses. *)
Lemma validate_form_rejection app :
  (validate_form app).1 = false →
  ∃ n f, validation_notice n ∧
         (validate_form app).2 = set_focus (show_snackbar app n) f.
Proof.
  unfold validate_form, reject, validation_notice.
  repeat case_match; simpl; try done; intros _; eauto 12.
Qed.

Lemma add_product_stops app now :
  (validate_form app).1 = false →
  add_product app now = (validate_form app).2.
Proof.
  intros Hv. unfold add_product.
  destruct (validate_form app) as [valid app']. simpl in *. by subst valid.
Qed.

(** The row written from a float and an integer holds them. *)
Lemma row_written_numbers n c (f : float) (z : Z) date r :
  row_written n c (VFloat f) (VInt z) date r →
  r = mk_row n c (VFloat (stored_real f)) (VInt z) date.
Proof.
  intros (bp & bq & Hbp & Hbq & Hp & Hq & ->). simpl in Hbp, Hbq.
  destruct (is_int64 z); [|done]. injection Hbq as <-.
  destruct (PrimFloat.is_nan f); injection Hbp as <-; done.
Qed.

(** * Further lemmas *)

(** ** The store *)

Lemma max_rowid_nonneg (t : gmap Z row) : 0 <= max_rowid t.
Proof.
  unfold max_rowid. induction ((map_to_list t).*1) as [|k l IH]; simpl; lia.
Qed.

Lemma largest_rowid_nonneg db : 0 <= largest_rowid db.
Proof. pose proof (max_rowid_nonneg (products db)). unfold largest_rowid. lia. Qed.

Lemma sequence_le_largest db : sqlite_sequence db <= largest_rowid db.
Proof. unfold largest_rowid. lia. Qed.

Lemma bind_param_bindable (v : value) :
  bindable v = true → ∃ b, bind_param v = Ok b.
Proof. destruct v as [|z|f|s]; simpl; eauto. intros ->. eauto. Qed.

Lemma bind_param_not_bindable (v : value) :
  bindable v = false → bind_param v = Raise OverflowError.
Proof. destruct v as [|z|f|s]; simpl; try done. by intros ->. Qed.

Lemma bind_param_null (v b : value) :
  bind_param v = Ok b → (b = VNone ↔ unstorable v = true).
Proof.
  destruct v as [|z|f|s]; simpl.
  - intros [= <-]. done.
  - destruct (is_int64 z); [|done]. intros [= <-]. done.
  - intros [= <-]. destruct (PrimFloat.is_nan f); done.
  - intros [= <-]. done.
Qed.

Lemma affinity_real_null (v : value) : affinity_real v = VNone ↔ v = VNone.
Proof.
  split; [|by intros ->].
  destruct v as [|z|f|s]; try done. intros Hv.
  by apply (affinity_real_not_null (VStr s)) in Hv.
Qed.

Lemma affinity_integer_null (v : value) :
  affinity_integer v = VNone ↔ v = VNone.
Proof.
  split; [|by intros ->].
  destruct v as [|z|f|s]; try done; intros Hv.
  - by apply (affinity_integer_not_null (VFloat f)) in Hv.
  - by apply (affinity_integer_not_null (VStr s)) in Hv.
Qed.

Lemma not_null_Raise (v : value) (e : exn) :
  not_null v = Raise e → v = VNone ∧ e = IntegrityError.
Proof. destruct v; simpl; intros [= <-]; done. Qed.

(** What [update_product] does when it finds the row. *)
Lemma update_product_found db id old n c p q bp bq :
  products db !! id = Some old →
  bind_param p = Ok bp → bind_param q = Ok bq → is_int64 id = true →
  bp ≠ VNone → bq ≠ VNone →
  update_product db id n c p q =
    (Ok 1,
     {| products :=
          <[id := mk_row n c (affinity_real bp) (affinity_integer bq)
                    (created_date old)]> (products db);
        sqlite_sequence := sqlite_sequence db |}).
Proof.
  intros Hold Hp Hq Hid Hbp Hbq. unfold update_product.
  rewrite Hp, Hq, Hold. unfold bind_param at 1. rewrite Hid.
  cbn [mbind result_bind].
  rewrite (not_null_id (affinity_real bp))
    by (by apply affinity_real_not_null).
  rewrite (not_null_id (affinity_integer bq))
    by (by apply affinity_integer_not_null).
  done.
Qed.

(** The three outcomes of [update_product], with the row it writes. *)
Lemma update_product_cases db id n c p q :
  (∃ e, update_product db id n c p q = (Raise e, db)) ∨
  (update_product db id n c p q = (Ok 0, db) ∧ products db !! id = None) ∨
  (∃ old bp bq,
     products db !! id = Some old ∧
     bind_param p = Ok bp ∧ bind_param q = Ok bq ∧ is_int64 id = true ∧
     bp ≠ VNone ∧ bq ≠ VNone ∧
     update_product db id n c p q =
       (Ok 1,
        {| products :=
             <[id := mk_row n c (affinity_real bp) (affinity_integer bq)
                       (created_date old)]> (products db);
           sqlite_sequence := sqlite_sequence db |})).
Proof.
  destruct (bind_param p) as [bp|e] eqn:Hp;
    [|left; exists e; unfold update_product; by rewrite Hp].
  destruct (bind_param q) as [bq|e] eqn:Hq;
    [|left; exists e; unfold update_product; by rewrite Hp, Hq].
  destruct (is_int64 id) eqn:Hid;
    [|left; exists OverflowError; unfold update_product;
      rewrite Hp, Hq; unfold bind_param; by rewrite Hid].
  destruct (products db !! id) as [old|] eqn:Hold.
  - assert (∀ v : value, v = VNone ∨ v ≠ VNone) as Hdec
      by (intros []; auto).
    destruct (Hdec bp) as [->|Hbp].
    { left. exists IntegrityError. unfold update_product.
      rewrite Hp, Hq, Hold. unfold bind_param. by rewrite Hid. }
    destruct (Hdec bq) as [->|Hbq].
    { left. exists IntegrityError. unfold update_product.
      rewrite Hp, Hq, Hold. unfold bind_param at 1. rewrite Hid.
      cbn [mbind result_bind].
      by rewrite (not_null_id (affinity_real bp))
        by (by apply affinity_real_not_null). }
    right; right. exists old, bp, bq.
    repeat (split; [done|]). by apply update_product_found.
  - right; left. split; [|done]. unfold update_product.
    rewrite Hp, Hq, Hold. unfold bind_param. by rewrite Hid.
Qed.

Lemma delete_insert_fresh (t : gmap Z row) i r :
  t !! i = None → delete i (<[i := r]> t) = t.
Proof. intros Hi. by rewrite delete_insert_eq, delete_id. Qed.

(** ** LIKE *)

Lemma pattern_compare_underscore (p s : list ascii) :
  pattern_compare (UNDERSCORE :: p) s =
  match s with [] => false | _ :: s' => pattern_compare p s' end.
Proof. by destruct s. Qed.

Lemma pattern_compare_percent_app (p pre s : list ascii) :
  pattern_compare p s = true → pattern_compare (PERCENT :: p) (pre ++ s) = true.
Proof.
  intros Hs. induction pre as [|d pre IH]; simpl app.
  - destruct s; [rewrite pattern_compare_percent_nil
                |rewrite pattern_compare_percent_cons]; by rewrite Hs.
  - rewrite pattern_compare_percent_cons, IH. apply orb_true_r.
Qed.

Lemma like_spec_percent_cons (p s : list ascii) (d : ascii) :
  like_spec (PERCENT :: p) s → like_spec (PERCENT :: p) (d :: s).
Proof.
  inversion 1 as [|p' pre s' Hs'| |]; subst; [|done].
  by apply (like_percent p (d :: pre)).
Qed.

(** [pattern_compare] decides [like_spec]. *)
Lemma pattern_compare_spec (p s : list ascii) :
  pattern_compare p s = true ↔ like_spec p s.
Proof.
  split.
  - revert s. induction p as [|c p IH]; intros s.
    + destruct s; [constructor|done].
    + destruct (decide (c = PERCENT)) as [->|Hp].
      { induction s as [|d s IHs].
        - rewrite pattern_compare_percent_nil, orb_false_r. intros Hs.
          by apply (like_percent p []), IH.
        - rewrite pattern_compare_percent_cons, orb_true_iff.
          intros [Hs|Hs].
          + by apply (like_percent p []), IH.
          + by apply like_spec_percent_cons, IHs. }
      destruct (decide (c = UNDERSCORE)) as [->|Hu].
      { rewrite pattern_compare_underscore. destruct s as [|d s]; [done|].
        intros Hs. by apply like_underscore, IH. }
      rewrite pattern_compare_literal by done.
      destruct s as [|d s]; [done|].
      unfold eq_nocase. rewrite andb_true_iff, bool_decide_eq_true.
      intros [Hcd Hs]. by apply like_char; [..|apply IH].
  - induction 1 as [|p pre s Hs IH|p d s Hs IH|c p d s Hp Hu Hcd Hs IH].
    + done.
    + by apply pattern_compare_percent_app.
    + by rewrite pattern_compare_underscore.
    + rewrite pattern_compare_literal by done.
      unfold eq_nocase. by rewrite andb_true_iff, bool_decide_eq_true.
Qed.

Lemma row_matches_spec (term : string) (p : product) :
  row_matches (search_pattern term) p = true ↔ matches_pattern term p.
Proof.
  unfold row_matches, matches_pattern, like.
  by rewrite orb_true_iff, !pattern_compare_spec.
Qed.

(** Folding the case of a character. *)
Lemma to_lower_idemp (c : ascii) : to_lower (to_lower c) = to_lower c.
Proof. by destruct c as [[] [] [] [] [] [] [] []]. Qed.

Lemma to_lower_percent (c : ascii) : to_lower c = PERCENT ↔ c = PERCENT.
Proof. by destruct c as [[] [] [] [] [] [] [] []]. Qed.

Lemma to_lower_underscore (c : ascii) : to_lower c = UNDERSCORE ↔ c = UNDERSCORE.
Proof. by destruct c as [[] [] [] [] [] [] [] []]. Qed.

Lemma to_lower_ascii (c : ascii) :
  (code (to_lower c) <? 128) = (code c <? 128).
Proof. by destruct c as [[] [] [] [] [] [] [] []]. Qed.

(** A pattern matches the same texts once its letters are folded. *)
Lemma pattern_compare_fold (p s : list ascii) :
  pattern_compare (to_lower <$> p) s = pattern_compare p s.
Proof.
  revert s. induction p as [|c p IH]; intros s; [done|].
  rewrite fmap_cons.
  destruct (decide (c = PERCENT)) as [->|Hp].
  { change (to_lower PERCENT) with PERCENT.
    induction s as [|d s IHs].
    - by rewrite !pattern_compare_percent_nil, IH.
    - by rewrite !pattern_compare_percent_cons, IH, IHs. }
  destruct (decide (c = UNDERSCORE)) as [->|Hu].
  { change (to_lower UNDERSCORE) with UNDERSCORE.
    rewrite !pattern_compare_underscore. by destruct s. }
  rewrite !pattern_compare_literal
    by (done || by rewrite ?to_lower_percent, ?to_lower_underscore).
  destruct s as [|d s]; [done|]. unfold eq_nocase.
  by rewrite to_lower_idemp, IH.
Qed.

Lemma utf8_length_chars_fold (l : list ascii) :
  foldr (λ c n, (if code c <? 128 then 1 else 2) + n) 0 (to_lower <$> l)
  = foldr (λ c n, (if code c <? 128 then 1 else 2) + n) 0 l.
Proof.
  induction l as [|c l IH]; [done|].
  rewrite fmap_cons. simpl. by rewrite to_lower_ascii, IH.
Qed.

Lemma search_pattern_fold (t : string) :
  to_lower <$> list_ascii_of_string (search_pattern t)
  = PERCENT :: (to_lower <$> list_ascii_of_string t) ++ [PERCENT].
Proof. by rewrite search_pattern_chars, fmap_cons, fmap_app. Qed.

(** ** Storage classes *)

Lemma sqlite_numeric_class (s : string) (v : value) :
  sqlite_numeric s = Some v → (∃ z, v = VInt z) ∨ (∃ f, v = VFloat f).
Proof.
  unfold sqlite_numeric. repeat case_match; try done; intros [= <-]; eauto.
Qed.

Lemma affinity_real_class (v : value) :
  v ≠ VNone →
  match affinity_real v with VFloat _ | VStr _ => True | _ => False end.
Proof.
  destruct v as [|z|f|s]; simpl; try done. intros _.
  destruct (sqlite_numeric s) as [n|] eqn:Hs; [|done].
  by apply sqlite_numeric_class in Hs as [[z ->]|[f ->]].
Qed.

Lemma exec_classes db c o db1 :
  exec db c = (o, db1) → table_classes_ok db → table_classes_ok db1.
Proof.
  intros Hexec Hok.
  destruct c as [n c p q now| |i n c p q|i|t]; simpl in Hexec.
  - destruct (create_product db n c p q now) as [[id|e] db'] eqn:Hrun;
      injection Hexec as <- <-.
    + apply create_product_Ok in Hrun
        as (-> & _ & r & -> & _ & _ & _ & Hp & Hq & (bp & Hbp & Hrp) & _).
      intros k r'. simpl. rewrite lookup_insert.
      case_decide; [|by apply Hok]. intros [= <-]. split; [|done].
      rewrite Hrp. apply affinity_real_class. intros ->. by rewrite Hrp in Hp.
    + by apply create_product_Raise in Hrun as ->.
  - by injection Hexec as <- <-.
  - injection Hexec as <- <-.
    destruct (update_product_cases db i n c p q)
      as [[e ->]|[[-> _]|(old & bp & bq & _ & _ & _ & _ & Hbp & Hbq & ->)]];
      [done|done|].
    intros k r'. simpl. rewrite lookup_insert.
    case_decide; [|by apply Hok]. intros [= <-]. split; simpl.
    + by apply affinity_real_class.
    + by apply affinity_integer_not_null.
  - injection Hexec as <- <-.
    pose proof (delete_product_atomic db i) as Hdel. unfold atomic_delete in Hdel.
    destruct (delete_product db i) as [res db'].
    destruct Hdel as [(e & _ & ->)|[(_ & -> & _)|(_ & _ & ->)]]; [done|done|].
    intros k r'. simpl. rewrite lookup_delete_Some. intros [_ Hk]. by eapply Hok.
  - by injection Hexec as <- <-.
Qed.

Lemma exec_exhausted db c :
  INT64_MAX <= sqlite_sequence db →
  (exec db c).1 = None ∧ sqlite_sequence (exec db c).2 = sqlite_sequence db.
Proof.
  intros Hfull. destruct c as [n c p q now| |i n c p q|i|t]; simpl.
  - destruct (create_product_unstorable db n c p q now) as [e ->]; [|done].
    right; right. pose proof (sequence_le_largest db). lia.
  - done.
  - split; [done|apply update_product_sequence].
  - split; [done|apply delete_product_sequence].
  - done.
Qed.

(** ** [str.strip] *)

Lemma lstrip_with_suffix sp (l : list ascii) :
  ∃ pre, l = pre ++ lstrip_with sp l.
Proof.
  induction l as [|c l [pre IH]]; simpl; [by exists []|].
  destruct (sp c); [|by exists []].
  exists (c :: pre). simpl. by rewrite <- IH.
Qed.

Lemma lstrip_with_head sp (l : list ascii) c l' :
  lstrip_with sp l = c :: l' → sp c = false.
Proof.
  induction l as [|d l IH]; simpl; [done|].
  destruct (sp d) eqn:Hd; [done|]. by intros [= <- _].
Qed.

Lemma lstrip_with_id sp (l : list ascii) :
  (∀ c, head l = Some c → sp c = false) → lstrip_with sp l = l.
Proof. destruct l as [|c l]; simpl; [done|]. intros H. by rewrite H. Qed.

Lemma head_reverse_suffix (pre a b : list ascii) :
  b ≠ [] → reverse a = pre ++ b → head (reverse b) = head a.
Proof.
  intros Hb Ha. apply (f_equal reverse) in Ha.
  rewrite reverse_involutive, reverse_app in Ha. subst a.
  destruct (reverse b) as [|x r] eqn:Hr; [|done].
  apply (f_equal reverse) in Hr. by rewrite reverse_involutive in Hr.
Qed.

(** The ends of a stripped text are not white space. *)
Lemma strip_with_ends sp (l : list ascii) :
  (∀ c, head (strip_with sp l) = Some c → sp c = false) ∧
  (∀ c, head (reverse (strip_with sp l)) = Some c → sp c = false).
Proof.
  unfold strip_with. rewrite reverse_involutive.
  set (a := lstrip_with sp l). set (b := lstrip_with sp (reverse a)).
  split; intros c Hc.
  - destruct b as [|x b'] eqn:Hb; [done|].
    destruct (lstrip_with_suffix sp (reverse a)) as [pre Hpre].
    fold b in Hpre. rewrite Hb in Hpre.
    rewrite (head_reverse_suffix pre a (x :: b')) in Hc by done.
    destruct a as [|y a'] eqn:Ha; [done|]. injection Hc as ->.
    by apply (lstrip_with_head sp l c a').
  - destruct b as [|x b'] eqn:Hb; [done|]. injection Hc as ->.
    by apply (lstrip_with_head sp (reverse a) c b').
Qed.

(** A text whose ends are not white space is its own stripped text. *)
Lemma strip_with_id sp (l : list ascii) :
  (∀ c, head l = Some c → sp c = false) →
  (∀ c, head (reverse l) = Some c → sp c = false) →
  strip_with sp l = l.
Proof.
  intros Hh Hl. unfold strip_with.
  rewrite (lstrip_with_id sp l) by done.
  rewrite (lstrip_with_id sp (reverse l)) by done.
  apply reverse_involutive.
Qed.

Lemma strip_with_idemp sp (l : list ascii) :
  strip_with sp (strip_with sp l) = strip_with sp l.
Proof. apply strip_with_id; apply strip_with_ends. Qed.

Lemma strip_idemp (s : string) : strip (strip s) = strip s.
Proof.
  unfold strip. by rewrite list_ascii_of_string_of_list_ascii, strip_with_idemp.
Qed.

(** ** [str] and [int] on integers *)

Lemma code_digit (d : Z) :
  0 <= d < 10 → code (ascii_of_N (Z.to_N (48 + d))) = 48 + d.
Proof.
  intros Hd.
  assert (d = 0 ∨ d = 1 ∨ d = 2 ∨ d = 3 ∨ d = 4 ∨ d = 5 ∨ d = 6 ∨ d = 7
          ∨ d = 8 ∨ d = 9) as Hcases by lia.
  by repeat (destruct Hcases as [->|Hcases]; [done|]); subst.
Qed.

Lemma digits_val_snoc (ds : list ascii) (d : ascii) :
  digits_val (ds ++ [d]) = 10 * digits_val ds + digit_val d.
Proof. unfold digits_val. by rewrite fold_left_app. Qed.

Lemma digit_is_digit (d : Z) :
  0 <= d < 10 → is_digit (ascii_of_N (Z.to_N (48 + d))) = true.
Proof.
  intros Hd. unfold is_digit. rewrite code_digit by done.
  apply andb_true_iff. split; apply Z.leb_le; lia.
Qed.

Lemma digits_val_one (d : Z) :
  0 <= d < 10 → digits_val [ascii_of_N (Z.to_N (48 + d))] = d.
Proof.
  intros Hd. unfold digits_val, digit_val. cbn [fold_left].
  rewrite code_digit by done. lia.
Qed.

Lemma digits_of_S (k : nat) (n : Z) :
  digits_of (S k) n =
  if n <? 10 then [ascii_of_N (Z.to_N (48 + n))]
  else digits_of k (n / 10) ++ [ascii_of_N (Z.to_N (48 + n mod 10))].
Proof. done. Qed.

Lemma digits_of_spec (fuel : nat) (n : Z) :
  0 <= n < 10 ^ Z.of_nat (S fuel) →
  digits_of (S fuel) n ≠ [] ∧
  Forall (λ c, is_digit c = true) (digits_of (S fuel) n) ∧
  digits_val (digits_of (S fuel) n) = n.
Proof.
  revert n. induction fuel as [|k IH]; intros n Hn.
  - change (10 ^ Z.of_nat 1) with 10 in Hn. rewrite digits_of_S.
    rewrite (proj2 (Z.ltb_lt _ _)) by lia.
    split; [done|]. split; [|by apply digits_val_one].
    constructor; [by apply digit_is_digit|done].
  - rewrite digits_of_S. destruct (n <? 10) eqn:Hlt.
    + apply Z.ltb_lt in Hlt.
      split; [done|]. split; [|apply digits_val_one; lia].
      constructor; [apply digit_is_digit; lia|done].
    + apply Z.ltb_ge in Hlt.
      assert (0 <= n / 10 < 10 ^ Z.of_nat (S k)) as Hq.
      { rewrite (Nat2Z.inj_succ (S k)), Z.pow_succ_r in Hn by lia.
        split; [apply Z.div_pos; lia|].
        apply Z.div_lt_upper_bound; lia. }
      destruct (IH _ Hq) as (Hne & Hall & Hval).
      assert (0 <= n mod 10 < 10) as Hr by (apply Z.mod_pos_bound; lia).
      split; [by intros [_ ?]%app_eq_nil|]. split.
      * apply Forall_app. split; [done|].
        constructor; [by apply digit_is_digit|done].
      * rewrite digits_val_snoc, Hval. unfold digit_val.
        rewrite code_digit by lia.
        pose proof (Z.div_mod n 10). lia.
Qed.

Lemma digits_of_Z_spec (n : Z) :
  0 <= n →
  digits_of_Z n ≠ [] ∧
  Forall (λ c, is_digit c = true) (digits_of_Z n) ∧
  digits_val (digits_of_Z n) = n.
Proof.
  intros Hn. apply digits_of_spec. split; [done|].
  rewrite Nat2Z.inj_succ, Z2Nat.id by apply Z.log2_nonneg.
  destruct (decide (n = 0)) as [->|Hne]; [done|].
  pose proof (Z.log2_spec n ltac:(lia)) as [_ Hlog].
  eapply Z.lt_le_trans; [exact Hlog|].
  apply Z.pow_le_mono_l. pose proof (Z.log2_nonneg n). lia.
Qed.

Lemma span_digits_us_digits (ds : list ascii) :
  Forall (λ c, is_digit c = true) ds → span_digits_us ds = (ds, []).
Proof.
  induction 1 as [|c ds Hc Hds IH]; [done|].
  cbn [span_digits_us]. rewrite Hc.
  destruct ds as [|u ds']; [done|].
  destruct ds' as [|d ds'']; [by rewrite IH|].
  apply Forall_cons in Hds as [Hu _].
  assert ((code u =? 95) = false) as ->.
  { unfold is_digit in Hu. apply andb_true_iff in Hu as [_ Hu].
    apply Z.leb_le in Hu. apply Z.eqb_neq. lia. }
  simpl andb. by rewrite IH.
Qed.

Lemma is_digit_not_space (c : ascii) :
  is_digit c = true → py_number_space c = false.
Proof. by destruct c as [[] [] [] [] [] [] [] []]. Qed.

Lemma strip_digits (sign ds : list ascii) :
  ds ≠ [] → Forall (λ c, is_digit c = true) ds →
  (∀ c, head (sign ++ ds) = Some c → py_number_space c = false) →
  strip_with py_number_space (sign ++ ds) = sign ++ ds.
Proof.
  intros Hne Hds Hhead. apply strip_with_id; [done|].
  intros c Hc. rewrite reverse_app in Hc.
  destruct (reverse ds) as [|x r] eqn:Hr.
  { apply (f_equal reverse) in Hr. by rewrite reverse_involutive in Hr. }
  injection Hc as ->. apply is_digit_not_space.
  rewrite Forall_forall in Hds. apply Hds.
  apply elem_of_reverse. rewrite Hr. left.
Qed.

Lemma take_sign_digits (ds : list ascii) :
  Forall (λ c, is_digit c = true) ds → take_sign ds = (false, ds).
Proof.
  destruct 1 as [|c ds Hc _]; [done|]. unfold take_sign.
  unfold is_digit in Hc. apply andb_true_iff in Hc as [H1 H2].
  apply Z.leb_le in H1, H2.
  by rewrite !(proj2 (Z.eqb_neq _ _)) by lia.
Qed.

Lemma py_int_digits (s : string) (neg : bool) (ds : list ascii) :
  take_sign (strip_with py_number_space (list_ascii_of_string s)) = (neg, ds) →
  ds ≠ [] → Forall (λ c, is_digit c = true) ds →
  py_int s =
    if MAX_STR_DIGITS <? Z.of_nat (length ds) then Raise ValueError
    else Ok (if neg then - digits_val ds else digits_val ds).
Proof.
  intros Hs Hne Hds. unfold py_int. rewrite Hs.
  rewrite span_digits_us_digits by done. by destruct ds.
Qed.

(** A number below [10 ^ (k + 1)] has at most [k + 1] digits. *)
Lemma digits_of_length (fuel : nat) (n : Z) (k : nat) :
  0 <= n < 10 ^ Z.of_nat (S k) → (length (digits_of fuel n) ≤ S k)%nat.
Proof.
  revert n k. induction fuel as [|f IH]; intros n k Hn; [simpl; lia|].
  rewrite digits_of_S. destruct (n <? 10) eqn:Hlt; [simpl; lia|].
  apply Z.ltb_ge in Hlt. destruct k as [|k'].
  { change (10 ^ Z.of_nat 1) with 10 in Hn. lia. }
  rewrite length_app. simpl.
  assert (0 <= n / 10 < 10 ^ Z.of_nat (S k')) as Hq.
  { rewrite (Nat2Z.inj_succ (S k')), Z.pow_succ_r in Hn by lia.
    split; [apply Z.div_pos; lia|].
    apply Z.div_lt_upper_bound; lia. }
  specialize (IH _ _ Hq). lia.
Qed.

Lemma digits_of_Z_length (n : Z) :
  0 <= n < 10 ^ MAX_STR_DIGITS →
  Z.of_nat (length (digits_of_Z n)) <= MAX_STR_DIGITS.
Proof.
  intros Hn. unfold digits_of_Z.
  pose proof (digits_of_length (S (Z.to_nat (Z.log2 n))) n 4299) as Hlen.
  change (Z.of_nat 4300) with MAX_STR_DIGITS in Hlen.
  specialize (Hlen Hn). unfold MAX_STR_DIGITS. lia.
Qed.

(** [int] reads back what [str] writes, for an integer of at most
    [MAX_STR_DIGITS] digits. *)
Lemma py_int_str_int (z : Z) :
  Z.abs z < 10 ^ MAX_STR_DIGITS → py_int (str_int z) = Ok z.
Proof.
  intros Hz10. unfold str_int. destruct (z <? 0) eqn:Hz.
  - apply Z.ltb_lt in Hz.
    destruct (digits_of_Z_spec (- z)) as (Hne & Hds & Hval); [lia|].
    pose proof (digits_of_Z_length (- z)) as Hlen.
    rewrite (py_int_digits _ true (digits_of_Z (- z))); [|..|done|done].
    + rewrite (proj2 (Z.ltb_ge _ _)) by (apply Hlen; lia).
      rewrite Hval. f_equal. lia.
    + rewrite list_ascii_of_string_of_list_ascii.
      change ("-"%char :: digits_of_Z (- z))
        with (["-"%char] ++ digits_of_Z (- z)).
      by rewrite (strip_digits ["-"%char]) by (done || by intros c [= <-]).
  - apply Z.ltb_ge in Hz.
    destruct (digits_of_Z_spec z) as (Hne & Hds & Hval); [lia|].
    pose proof (digits_of_Z_length z) as Hlen.
    rewrite (py_int_digits _ false (digits_of_Z z)); [|..|done|done].
    + rewrite (proj2 (Z.ltb_ge _ _)) by (apply Hlen; lia).
      by rewrite Hval.
    + rewrite list_ascii_of_string_of_list_ascii.
      change (digits_of_Z z) with ([] ++ digits_of_Z z) at 1.
      rewrite (strip_digits []); [by apply take_sign_digits|done..|].
      intros c Hc. apply is_digit_not_space.
      destruct Hds as [|d ds Hd _]; [done|]. by injection Hc as <-.
Qed.

(** Every 64-bit integer has at most [MAX_STR_DIGITS] digits. *)
Lemma int64_digits (z : Z) :
  is_int64 z = true → Z.abs z < 10 ^ MAX_STR_DIGITS.
Proof.
  unfold is_int64, INT64_MIN, INT64_MAX.
  intros [H1 H2]%andb_true_iff. apply Z.leb_le in H1, H2.
  assert (2 ^ 63 < 10 ^ MAX_STR_DIGITS) as Hpow by (by vm_compute).
  lia.
Qed.

(** ** Floats *)

(** A float that is a number and not at most zero is above zero. *)
Lemma not_le_zero_positive (p : float) :
  PrimFloat.is_nan p = false → PrimFloat.leb p 0 = false →
  PrimFloat.ltb 0 p = true.
Proof.
  unfold PrimFloat.is_nan.
  rewrite (FloatAxioms.ltb_spec 0 p), (FloatAxioms.leb_spec p 0),
    (FloatAxioms.eqb_spec p p).
  destruct (Prim2SF p) as [s|s| |s m e]; try (destruct s);
    try (vm_compute; congruence); intros _ _; reflexivity.
Qed.

(** ** Drawing the table *)

Lemma draw_rows_drawable (ps : list product) :
  drawable ps → draw_rows ps = (ps, None).
Proof.
  induction 1 as [|p ps Hp Hps IH]; [done|].
  simpl. by rewrite Hp, IH.
Qed.

Lemma table_valid_drawable d : table_valid d → drawable (read_products d).
Proof.
  intros Hd. apply Forall_forall. intros [i r] Hr%elem_of_read_products.
  simpl in Hr. destruct (Hd _ _ Hr) as (_ & _ & _ & _ & (p & Hp & _) & _).
  simpl. by rewrite Hp.
Qed.

Lemma reload_drawable (s : Session) :
  drawable (read_products (db (self s))) →
  reload s =
    (set_rows (called s ReadProducts) (read_products (db (self s))), None).
Proof.
  intros Hd. unfold reload, load_products_from. simpl.
  by rewrite draw_rows_drawable.
Qed.

(** ** [validate_form] *)

Lemma validate_form_keeps (a : ProductManagerApp) :
  let a' := (validate_form a).2 in
  db a' = db a ∧ current_edit_id a' = current_edit_id a ∧
  name_field a' = name_field a ∧ category_field a' = category_field a ∧
  price_field a' = price_field a ∧ quantity_field a' = quantity_field a ∧
  data_table a' = data_table a.
Proof. unfold validate_form, reject. by repeat case_match. Qed.

Lemma validate_form_true (a : ProductManagerApp) :
  (validate_form a).1 = true →
  (validate_form a).2 = a ∧ ∃ n c p q, fields_valid a n c p q.
Proof.
  unfold validate_form, reject, fields_valid.
  destruct (blank (name_field a)) eqn:Hn; [done|].
  destruct (blank (category_field a)) eqn:Hc; [done|].
  destruct (float_of_field (price_field a)) as [p|] eqn:Hp; [|done].
  destruct (PrimFloat.leb p 0) eqn:Hle; [done|].
  destruct (int_of_field (quantity_field a)) as [q|] eqn:Hq; [|done].
  destruct (q <? 0) eqn:Hlt; [done|]. intros _. split; [done|].
  destruct (name_field a) as [n|]; [|done].
  destruct (category_field a) as [c|]; [|done].
  exists n, c, p, q. apply Z.ltb_ge in Hlt. done.
Qed.

Lemma validate_form_valid (a : ProductManagerApp) n c p q :
  fields_valid a n c p q → validate_form a = (true, a).
Proof.
  intros (Hn & Hbn & Hc & Hbc & Hp & Hle & Hq & Hq0).
  unfold validate_form. rewrite Hn, Hbn, Hc, Hbc, Hp, Hle, Hq.
  by rewrite (proj2 (Z.ltb_ge _ _) Hq0).
Qed.

Lemma validate_valid (s : Session) n c p q :
  fields_valid (self s) n c p q → validate s = (true, s).
Proof.
  intros Hv. unfold validate. rewrite (validate_form_valid _ n c p q Hv).
  rewrite Nat.sub_diag. by destruct s.
Qed.

(** What [validate] leaves as it is when it refuses. *)
Lemma validate_refused (s : Session) :
  (validate s).1 = false →
  let s' := (validate s).2 in
  db (self s') = db (self s) ∧ mode s' = mode s ∧ fields s' = fields s ∧
  data_table (self s') = data_table (self s) ∧ dialog s' = dialog s ∧
  calls s' = calls s ∧ uncaught s' = uncaught s ∧
  search_field s' = search_field s.
Proof.
  intros _. unfold validate, mode, fields.
  pose proof (validate_form_keeps (self s)) as Hk.
  destruct (validate_form (self s)) as [valid a]. simpl in *.
  destruct Hk as (-> & -> & -> & -> & -> & -> & ->). done.
Qed.

Lemma validate_cases (s : Session) :
  (∃ n c p q, fields_valid (self s) n c p q ∧ validate s = (true, s)) ∨
  (validate s).1 = false.
Proof.
  destruct (validate_form (self s)) as [valid a] eqn:Hv.
  destruct valid.
  - left. destruct (validate_form_true (self s)) as (_ & n & c & p & q & Hf);
      [by rewrite Hv|].
    exists n, c, p, q. split; [done|]. by eapply validate_valid.
  - right. unfold validate. by rewrite Hv.
Qed.

Lemma create_numbers_Ok db n c (p : float) (q : Z) now id db' :
  create_product db n c (VFloat p) (VInt q) now = (Ok id, db') →
  PrimFloat.is_nan p = false ∧ is_int64 q = true ∧
  id = largest_rowid db + 1 ∧ largest_rowid db < INT64_MAX ∧
  db' = {| products :=
             <[id := mk_row n c (VFloat (stored_real p)) (VInt q) now]>
               (products db);
           sqlite_sequence := id |}.
Proof.
  intros Hrun. pose proof Hrun as Hrun'.
  apply create_product_Ok in Hrun'
    as (-> & Hlt & r & _ & _ & _ & _ & Hp & _ & (bp & Hbp & Hr) & (bq & Hbq & _)).
  assert (PrimFloat.is_nan p = false) as Hnan.
  { simpl in Hbp. destruct (PrimFloat.is_nan p); [|done].
    injection Hbp as <-. by rewrite Hr in Hp. }
  assert (is_int64 q = true) as Hq.
  { simpl in Hbq. by destruct (is_int64 q). }
  rewrite create_product_numbers in Hrun by done.
  injection Hrun as <-. done.
Qed.

Lemma update_numbers_Ok db id n c (p : float) (q : Z) db' :
  update_product db id n c (VFloat p) (VInt q) = (Ok 1, db') →
  ∃ old, products db !! id = Some old ∧
  PrimFloat.is_nan p = false ∧ is_int64 q = true ∧ is_int64 id = true ∧
  db' = {| products :=
             <[id := mk_row n c (VFloat (stored_real p)) (VInt q)
                       (created_date old)]> (products db);
           sqlite_sequence := sqlite_sequence db |}.
Proof.
  intros Hrun.
  destruct (update_product_cases db id n c (VFloat p) (VInt q))
    as [[e He]|[[He _]|(old & bp & bq & Hold & Hbp & Hbq & Hid & Hp & _ & _)]];
    [congruence|congruence|].
  exists old. split; [done|].
  assert (PrimFloat.is_nan p = false) as Hnan.
  { simpl in Hbp. destruct (PrimFloat.is_nan p); [|done]. congruence. }
  assert (is_int64 q = true) as Hq.
  { simpl in Hbq. by destruct (is_int64 q). }
  rewrite (update_product_numbers db id old) in Hrun by done.
  injection Hrun as <-. done.
Qed.

Lemma blank_strip (n : string) :
  blank (Some n) = false → strip n ≠ EmptyString.
Proof.
  simpl. intros [_ H]%orb_false_iff. by apply String.eqb_neq in H.
Qed.

Lemma form_row_valid n c (p : float) (q : Z) (d : string) :
  blank (Some n) = false → blank (Some c) = false →
  PrimFloat.leb p 0 = false → 0 <= q →
  PrimFloat.is_nan p = false → is_int64 q = true →
  row_valid (mk_row (strip n) (strip c) (VFloat (stored_real p)) (VInt q) d).
Proof.
  intros Hn Hc Hle Hq0 Hnan Hq.
  pose proof (not_le_zero_positive p Hnan Hle) as Hpos.
  repeat split; simpl.
  - by apply blank_strip.
  - apply strip_idemp.
  - by apply blank_strip.
  - apply strip_idemp.
  - exists p. by rewrite stored_real_positive.
  - exists q. unfold is_int64 in Hq. split; [done|]. lia.
Qed.

Lemma table_valid_insert d k r seq :
  table_valid d → row_valid r →
  table_valid {| products := <[k := r]> (products d);
                 sqlite_sequence := seq |}.
Proof.
  intros Hd Hr i r'. simpl.
  intros [[<- <-]|[_ H]]%lookup_insert_Some; [done|by eapply Hd].
Qed.

Lemma table_valid_delete d k seq :
  table_valid d →
  table_valid {| products := delete k (products d);
                 sqlite_sequence := seq |}.
Proof.
  intros Hd i r'. simpl. intros [_ H]%lookup_delete_Some. by eapply Hd.
Qed.

Lemma load_products_from_keeps (s : Session) (ps : list product) :
  let s' := (load_products_from s ps).1 in
  db (self s') = db (self s) ∧ mode s' = mode s ∧ fields s' = fields s ∧
  dialog s' = dialog s ∧ shown s' = shown s ∧ calls s' = calls s ∧
  uncaught s' = uncaught s ∧ search_field s' = search_field s.
Proof. unfold load_products_from. by destruct (draw_rows ps). Qed.

Lemma reload_keeps (s : Session) :
  let s' := (reload s).1 in
  db (self s') = db (self s) ∧ mode s' = mode s ∧ fields s' = fields s ∧
  dialog s' = dialog s ∧ shown s' = shown s ∧
  calls s' = ReadProducts :: calls s ∧
  uncaught s' = uncaught s ∧ search_field s' = search_field s.
Proof. unfold reload, load_products_from. by destruct (draw_rows _). Qed.

Lemma delete_product_cases db id :
  delete_product db id = (Raise OverflowError, db) ∨
  (delete_product db id = (Ok 0, db) ∧ products db !! id = None) ∨
  (∃ r, products db !! id = Some r ∧ is_int64 id = true ∧
        delete_product db id =
          (Ok 1, {| products := delete id (products db);
                    sqlite_sequence := sqlite_sequence db |})).
Proof.
  destruct (is_int64 id) eqn:Hid; [|left; by apply delete_product_overflow].
  destruct (products db !! id) as [r|] eqn:Hr.
  - right; right. exists r. by rewrite (delete_product_present db id r).
  - right; left. by rewrite delete_product_absent.
Qed.

Lemma fire_store (s : Session) (ev : event) :
  let d := db (self s) in
  let d' := db (self (fire s ev)) in
  d' = d ∨
  (∃ now n c p q id,
     ev = ClickAdd now ∧ fields_valid (self s) n c p q ∧
     create_product d (strip n) (strip c) (VFloat p) (VInt q) now
     = (Ok id, d')) ∨
  (∃ id n c p q,
     ev = ClickUpdate ∧ current_edit_id (self s) = Some id ∧ id ≠ 0 ∧
     fields_valid (self s) n c p q ∧
     update_product d id (strip n) (strip c) (VFloat p) (VInt q)
     = (Ok 1, d')) ∨
  (∃ id,
     ev = ClickYes ∧ dialog s = Some (mk_dialog id true) ∧
     delete_product d id = (Ok 1, d')).
Proof.
  destruct ev; simpl; try by left.
  - (* search *)
    left. unfold search_changed. simpl.
    destruct (negb _).
    + destruct (search_products _ _) as [ps|e]; [|done].
      match goal with |- context [load_products_from ?s ps] =>
        pose proof (load_products_from_keeps s ps) as Hk;
        destruct (load_products_from s ps) as [s1 [e|]] end;
        simpl in *; intuition congruence.
    + match goal with |- context [reload ?s] =>
        pose proof (reload_keeps s) as Hk;
        destruct (reload s) as [s1 [e|]] end; simpl in *; intuition congruence.
  - (* add *)
    unfold click_add.
    destruct (validate_cases s) as [(n & c & p & q & Hf & ->)|Hr].
    + simpl. pose proof Hf as (Hn & Hbn & Hc & Hbc & Hp & Hle & Hq & Hq0).
      rewrite Hn, Hc, Hp, Hq.
      destruct (_ && _); [|by left].
      destruct (create_product _ _ _ _ _ _) as [[id|e] d'] eqn:Hcr.
      * right; left. exists now, n, c, p, q, id.
        split; [done|]. split; [done|]. rewrite Hcr. f_equal.
        match goal with |- context [reload ?s] =>
          pose proof (reload_keeps s) as Hk;
          destruct (reload s) as [s1 [e|]] end; simpl in *;
          [destruct e|]; simpl; intuition congruence.
      * left. apply create_product_Raise in Hcr as ->. by destruct e.
    + left. pose proof (validate_refused s Hr) as Hk.
      destruct (validate s) as [v s1]. simpl in *. subst v. simpl. intuition congruence.
  - (* edit *)
    left. unfold edit_product. simpl. by destruct (list_find _ _) as [[? ?]|].
  - (* update *)
    unfold click_update.
    destruct (validate_cases s) as [(n & c & p & q & Hf & ->)|Hr].
    + simpl. pose proof Hf as (Hn & Hbn & Hc & Hbc & Hp & Hle & Hq & Hq0).
      destruct (current_edit_id (self s)) as [id|] eqn:Hid; [|by left].
      destruct (id =? 0) eqn:H0; [by left|]. apply Z.eqb_neq in H0.
      rewrite Hn, Hc, Hp, Hq.
      destruct (update_product_cases (db (self s)) id (strip n) (strip c)
                  (VFloat p) (VInt q))
        as [[e He]|[[He _]|(old & bp & bq & _ & _ & _ & _ & _ & _ & He)]].
      * rewrite He. by left.
      * rewrite He. by left.
      * right; right; left. exists id, n, c, p, q.
        do 4 (split; [done|]). rewrite He. simpl. f_equal.
        match goal with |- context [reload ?s] =>
          pose proof (reload_keeps s) as Hk;
          destruct (reload s) as [s1 [e|]] end; simpl in *;
          intuition congruence.
    + left. pose proof (validate_refused s Hr) as Hk.
      destruct (validate s) as [v s1]. simpl in *. subst v. simpl. intuition congruence.
  - (* yes *)
    destruct (dialog s) as [[id [|]]|] eqn:Hd; simpl; try by left.
    unfold confirm_delete.
    destruct (delete_product_cases (db (self s)) id)
      as [He|[[He _]|(r & _ & _ & He)]]; rewrite He.
    + by left.
    + by left.
    + right; right; right. exists id. do 2 (split; [done|]). f_equal.
      simpl.
      match goal with |- context [reload ?s] =>
        pose proof (reload_keeps s) as Hk;
        destruct (reload s) as [s1 [e|]] end; simpl in *;
        intuition congruence.
  - (* no *)
    left. by destruct (dialog s) as [[id [|]]|].
Qed.

Lemma draw_rows_prefix (ps : list product) :
  ∃ rest, ps = (draw_rows ps).1 ++ rest ∧ drawable (draw_rows ps).1 ∧
    match (draw_rows ps).2 with
    | None => rest = []
    | Some e =>
        ∃ p rest', rest = p :: rest' ∧ price_cell_error (price p.2) = Some e
    end.
Proof.
  induction ps as [|p ps (rest & Hps & Hd & He)]; simpl.
  - exists []. repeat split. constructor.
  - destruct (price_cell_error (price p.2)) as [e|] eqn:Hp; simpl.
    + exists (p :: ps). repeat split; [constructor|]. by exists p, ps.
    + destruct (draw_rows ps) as [rows e]. simpl in *.
      exists rest. split; [by f_equal|]. split; [by constructor|done].
Qed.

Lemma drawable_sublist (l k : list product) :
  sublist l k → drawable k → drawable l.
Proof.
  unfold drawable. induction 1 as [|x l k _ IH|x l k _ IH]; [done|..].
  - intros [? ?]%Forall_cons. constructor; auto.
  - intros [? ?]%Forall_cons. auto.
Qed.

Lemma find_product_present db id r :
  products db !! id = Some r →
  ∃ i, list_find (λ p : product, p.1 = id) (read_products db)
       = Some (i, (id, r)).
Proof.
  intros Hr.
  assert ((id, r) ∈ read_products db) as Hin
    by (by apply elem_of_read_products).
  destruct (list_find_elem_of (λ p : product, p.1 = id) _ _ Hin eq_refl)
    as [[i [k r']] Hfind].
  exists i. rewrite Hfind.
  apply list_find_Some in Hfind as (Hi & Hk & _). simpl in Hk. subst k.
  apply list_elem_of_lookup_2, elem_of_read_products in Hi. simpl in Hi.
  rewrite Hr in Hi. by injection Hi as ->.
Qed.

Lemma find_product_absent db id :
  products db !! id = None →
  list_find (λ p : product, p.1 = id) (read_products db) = None.
Proof.
  intros Hr. apply list_find_None, Forall_forall.
  intros [k r] Hin%elem_of_read_products. simpl in *. congruence.
Qed.

Lemma fire_valid (s : Session) (ev : event) :
  table_valid (db (self s)) → table_valid (db (self (fire s ev))).
Proof.
  intros Hd. generalize (fire_store s ev). cbv zeta.
  generalize (db (self (fire s ev))). intros d'
    [->|[(now & n & c & p & q & id & _ & Hf & Hrun)
        |[(id & n & c & p & q & _ & _ & _ & Hf & Hrun)
         |(id & _ & _ & Hrun)]]]; [done|..].
  - destruct Hf as (_ & Hbn & _ & Hbc & _ & Hle & _ & Hq0).
    apply create_numbers_Ok in Hrun as (Hnan & Hq & _ & _ & ->).
    apply table_valid_insert; [done|]. by apply form_row_valid.
  - destruct Hf as (_ & Hbn & _ & Hbc & _ & Hle & _ & Hq0).
    apply update_numbers_Ok in Hrun as (old & _ & Hnan & Hq & _ & ->).
    apply table_valid_insert; [done|]. by apply form_row_valid.
  - destruct (delete_product_cases (db (self s)) id)
      as [He|[[He _]|(r & _ & _ & He)]]; rewrite He in Hrun;
      [done|done|].
    injection Hrun as <-. by apply table_valid_delete.
Qed.

Lemma fire_mode (s : Session) (ev : event) :
  mode (fire s ev) = mode s ∨
  mode (fire s ev) = (None, true, false, false) ∨
  ∃ id, mode (fire s ev) = (Some id, false, true, true).
Proof.
  destruct ev; simpl; try by left.
  - left. unfold search_changed. simpl.
    destruct (negb _).
    + destruct (search_products _ _) as [ps|e]; [|done].
      match goal with |- context [load_products_from ?s ps] =>
        pose proof (load_products_from_keeps s ps) as Hk;
        destruct (load_products_from s ps) as [s1 [e|]] end;
        simpl in *; intuition congruence.
    + match goal with |- context [reload ?s] =>
        pose proof (reload_keeps s) as Hk;
        destruct (reload s) as [s1 [e|]] end;
        simpl in *; intuition congruence.
  - left. unfold click_add.
    destruct (validate_cases s) as [(n & c & p & q & Hf & ->)|Hr].
    + simpl. destruct Hf as (Hn & _ & Hc & _ & Hp & _ & Hq & _).
      rewrite Hn, Hc, Hp, Hq.
      destruct (_ && _); [|done].
      destruct (create_product _ _ _ _ _ _) as [[id|e] d'].
      * match goal with |- context [reload ?s] =>
          pose proof (reload_keeps s) as Hk;
          destruct (reload s) as [s1 [e|]] end; simpl in *;
          [destruct e|]; simpl; intuition congruence.
      * by destruct e.
    + pose proof (validate_refused s Hr) as Hk.
      destruct (validate s) as [v s1]. simpl in *. subst v. simpl.
      intuition congruence.
  - unfold edit_product. simpl.
    destruct (list_find _ _) as [[? ?]|]; [|by left].
    right; right. by eexists.
  - unfold click_update.
    destruct (validate_cases s) as [(n & c & p & q & Hf & ->)|Hr].
    + simpl. destruct Hf as (Hn & _ & Hc & _ & Hp & _ & Hq & _).
      destruct (current_edit_id (self s)) as [id|] eqn:Hid; [|by left].
      destruct (id =? 0); [by left|].
      rewrite Hn, Hc, Hp, Hq.
      destruct (update_product _ _ _ _ _ _) as [[k|e] d'];
        [|left; simpl; unfold mode; simpl; by rewrite Hid].
      destruct (0 <? k);
        [|left; simpl; unfold mode; simpl; by rewrite Hid].
      right; left.
      match goal with |- context [reload ?s] =>
        pose proof (reload_keeps s) as Hk;
        destruct (reload s) as [s1 [e|]] end; simpl in *;
        intuition congruence.
    + left. pose proof (validate_refused s Hr) as Hk.
      destruct (validate s) as [v s1]. simpl in *. subst v. simpl.
      intuition congruence.
  - by right; left.
  - left. destruct (dialog s) as [[id [|]]|] eqn:Hd; simpl; try done.
    unfold confirm_delete.
    destruct (delete_product _ _) as [[k|e] d']; [|done].
    destruct (0 <? k); [|done].
    match goal with |- context [reload ?s] =>
      pose proof (reload_keeps s) as Hk;
      destruct (reload s) as [s1 [e|]] end; simpl in *;
      intuition congruence.
  - left. by destruct (dialog s) as [[id [|]]|].
Qed.

Lemma fire_mode_ok (s : Session) (ev : event) :
  mode_ok s → mode_ok (fire s ev).
Proof.
  unfold mode_ok. intros Hs.
  destruct (fire_mode s ev) as [->|[->|[id ->]]];
    [done|by left|right; by exists id].
Qed.

Lemma main_mode file v : mode (main file v) = (None, true, false, false).
Proof.
  unfold main.
  match goal with |- context [reload ?s] =>
    pose proof (reload_keeps s) as Hk;
    destruct (reload s) as [s1 [e|]] end; simpl in *;
    intuition congruence.
Qed.

Lemma main_db file v : db (self (main file v)) = create_table file.
Proof.
  unfold main.
  match goal with |- context [reload ?s] =>
    pose proof (reload_keeps s) as Hk;
    destruct (reload s) as [s1 [e|]] end; simpl in *;
    intuition congruence.
Qed.

Lemma create_numbers_Raise db n c (p : float) (q : Z) now e d' :
  create_product db n c (VFloat p) (VInt q) now = (Raise e, d') →
  d' = db ∧
  (e = OverflowError ∨ e = OperationalError ∨ e = IntegrityError).
Proof.
  intros Hrun. split; [by eapply create_product_Raise|].
  revert Hrun. unfold create_product, new_rowid. simpl.
  destruct (is_int64 q); simpl; [|intros [= <- _]; auto].
  destruct (_ <? _); simpl; [|intros [= <- _]; auto].
  destruct (PrimFloat.is_nan p); simpl; [intros [= <- _]; auto|].
  done.
Qed.

Lemma truthy_parsed_float (v : option string) (p : float) :
  float_of_field v = Ok p → truthy v = true.
Proof. destruct v as [[|a s]|]; [by vm_compute|done|done]. Qed.

Lemma truthy_parsed_int (v : option string) (q : Z) :
  int_of_field v = Ok q → truthy v = true.
Proof. destruct v as [[|a s]|]; [by vm_compute|done|done]. Qed.

Lemma truthy_not_blank (v : option string) :
  blank v = false → truthy v = true.
Proof. destruct v as [[|a s]|]; done. Qed.

Lemma fields_valid_truthy a n c p q :
  fields_valid a n c p q →
  truthy (name_field a) && truthy (category_field a)
  && truthy (price_field a) && truthy (quantity_field a) = true.
Proof.
  intros (Hn & Hbn & Hc & Hbc & Hp & _ & Hq & _).
  rewrite Hn, Hc, (truthy_not_blank _ Hbn), (truthy_not_blank _ Hbc),
    (truthy_parsed_float _ _ Hp), (truthy_parsed_int _ _ Hq). done.
Qed.

Lemma positive_not_le_zero (p : float) :
  PrimFloat.ltb 0 p = true → PrimFloat.leb p 0 = false.
Proof.
  rewrite (FloatAxioms.ltb_spec 0 p), (FloatAxioms.leb_spec p 0).
  destruct (Prim2SF p) as [s|s| |s m e]; try (destruct s);
    by vm_compute.
Qed.

Lemma search_products_Raise db term e :
  search_products db term = Raise e →
  e = OperationalError ∧
  SQLITE_MAX_LIKE_PATTERN_LENGTH < utf8_length (search_pattern term).
Proof.
  unfold search_products. destruct (read_products db); [done|].
  destruct (_ <? _) eqn:Hlen; [|done]. intros [= <-].
  by apply Z.ltb_lt in Hlen.
Qed.

Lemma search_products_sublist db term ps :
  search_products db term = Ok ps → sublist ps (read_products db).
Proof.
  unfold search_products. destruct (read_products db) as [|p0 rows].
  - by intros [= <-].
  - destruct (_ <? _); [done|]. intros [= <-]. apply sublist_filter.
Qed.

Lemma fire_uncaught (s : Session) (ev : event) :
  uncaught (fire s ev) = uncaught s ∨
  ∃ t e,
    ev = TypeSearch t ∧ uncaught (fire s ev) = e :: uncaught s ∧
    (search_products (db (self s)) (strip t) = Raise e ∨
     (∃ ps, search_products (db (self s)) (strip t) = Ok ps ∧
            (draw_rows ps).2 = Some e) ∨
     (draw_rows (read_products (db (self s)))).2 = Some e).
Proof.
  destruct ev; simpl; try by left.
  - unfold search_changed. simpl.
    destruct (negb _).
    + destruct (search_products _ _) as [ps|e] eqn:Hs;
        [|right; exists text, e; auto].
      unfold load_products_from.
      destruct (draw_rows ps) as [rows [e|]] eqn:Hdraw; [|by left].
      right. exists text, e. split; [done|]. split; [done|].
      right; left. exists ps. by rewrite Hdraw.
    + unfold reload, load_products_from. simpl.
      destruct (draw_rows _) as [rows [e|]] eqn:Hdraw; [|by left].
      right. exists text, e. split; [done|]. split; [done|].
      right; right. done.
  - left. unfold click_add.
    destruct (validate_cases s) as [(n & c & p & q & Hf & ->)|Hr].
    + simpl. destruct Hf as (Hn & _ & Hc & _ & Hp & _ & Hq & _).
      rewrite Hn, Hc, Hp, Hq.
      destruct (_ && _); [|done].
      destruct (create_product _ _ _ _ _ _) as [[id|e] d'].
      * match goal with |- context [reload ?s] =>
          pose proof (reload_keeps s) as Hk;
          destruct (reload s) as [s1 [e|]] end; simpl in *;
          [destruct e|]; simpl; intuition congruence.
      * by destruct e.
    + pose proof (validate_refused s Hr) as Hk.
      destruct (validate s) as [v s1]. simpl in *. subst v. simpl.
      intuition congruence.
  - left. unfold edit_product. simpl.
    by destruct (list_find _ _) as [[? ?]|].
  - left. unfold click_update.
    destruct (validate_cases s) as [(n & c & p & q & Hf & ->)|Hr].
    + simpl. destruct Hf as (Hn & _ & Hc & _ & Hp & _ & Hq & _).
      destruct (current_edit_id (self s)) as [id|] eqn:Hid; [|done].
      destruct (id =? 0); [done|].
      rewrite Hn, Hc, Hp, Hq.
      destruct (update_product _ _ _ _ _ _) as [[k|e] d']; [|done].
      destruct (0 <? k); [|done].
      match goal with |- context [reload ?s] =>
        pose proof (reload_keeps s) as Hk;
        destruct (reload s) as [s1 [e|]] end; simpl in *;
        intuition congruence.
    + pose proof (validate_refused s Hr) as Hk.
      destruct (validate s) as [v s1]. simpl in *. subst v. simpl.
      intuition congruence.
  - left. destruct (dialog s) as [[id [|]]|] eqn:Hd; simpl; try done.
    unfold confirm_delete.
    destruct (delete_product _ _) as [[k|e] d']; [|done].
    destruct (0 <? k); [|done].
    match goal with |- context [reload ?s] =>
      pose proof (reload_keeps s) as Hk;
      destruct (reload s) as [s1 [e|]] end; simpl in *;
      intuition congruence.
  - left. by destruct (dialog s) as [[id [|]]|].
Qed.

Lemma draw_rows_sublist (ps : list product) : sublist (draw_rows ps).1 ps.
Proof.
  destruct (draw_rows_prefix ps) as (rest & Hps & _).
  rewrite Hps at 2. by apply sublist_inserts_r.
Qed.

Lemma load_products_from_table (s : Session) (ps : list product) :
  data_table (self (load_products_from s ps).1) = (draw_rows ps).1.
Proof. unfold load_products_from. by destruct (draw_rows ps). Qed.

Lemma reload_table (s : Session) :
  data_table (self (reload s).1)
  = (draw_rows (read_products (db (self s)))).1.
Proof. unfold reload. by rewrite load_products_from_table. Qed.

(** What an event does to the table: nothing, to it and to the store,
    or it draws it again from products of the store. *)
Lemma fire_table (s : Session) (ev : event) :
  let s' := fire s ev in
  (db (self s') = db (self s) ∧ data_table (self s') = data_table (self s)) ∨
  sublist (data_table (self s')) (read_products (db (self s'))).
Proof.
  destruct ev; simpl; try by left.
  - unfold search_changed. simpl.
    destruct (negb _).
    + destruct (search_products _ _) as [ps|e] eqn:Hs; [|by left].
      right. apply search_products_sublist in Hs.
      match goal with |- context [load_products_from ?s ps] =>
        pose proof (load_products_from_keeps s ps) as Hk;
        pose proof (load_products_from_table s ps) as Ht;
        destruct (load_products_from s ps) as [s1 [e|]] end;
        simpl in *; destruct Hk as (-> & _); rewrite Ht;
        (etrans; [apply draw_rows_sublist|done]).
    + right.
      match goal with |- context [reload ?s] =>
        pose proof (reload_keeps s) as Hk;
        pose proof (reload_table s) as Ht;
        destruct (reload s) as [s1 [e|]] end;
        simpl in *; destruct Hk as (-> & _); rewrite Ht;
        apply draw_rows_sublist.
  - unfold click_add.
    destruct (validate_cases s) as [(n & c & p & q & Hf & ->)|Hr].
    + simpl. destruct Hf as (Hn & _ & Hc & _ & Hp & _ & Hq & _).
      rewrite Hn, Hc, Hp, Hq.
      destruct (_ && _); [|by left].
      destruct (create_product _ _ _ _ _ _) as [[id|e] d'] eqn:Hrun.
      * right.
        match goal with |- context [reload ?s] =>
          pose proof (reload_keeps s) as Hk;
          pose proof (reload_table s) as Ht;
          destruct (reload s) as [s1 [e|]] end;
          simpl in *; [destruct e|]; simpl;
          destruct Hk as (-> & _); rewrite Ht; apply draw_rows_sublist.
      * left. apply create_product_Raise in Hrun as ->. by destruct e.
    + left. pose proof (validate_refused s Hr) as Hk.
      destruct (validate s) as [v s1]. simpl in *. subst v. simpl.
      intuition congruence.
  - left. unfold edit_product. simpl.
    by destruct (list_find _ _) as [[? ?]|].
  - unfold click_update.
    destruct (validate_cases s) as [(n & c & p & q & Hf & ->)|Hr].
    + simpl. destruct Hf as (Hn & _ & Hc & _ & Hp & _ & Hq & _).
      destruct (current_edit_id (self s)) as [id|] eqn:Hid; [|by left].
      destruct (id =? 0); [by left|].
      rewrite Hn, Hc, Hp, Hq.
      destruct (update_product_cases (db (self s)) id (strip n) (strip c)
                  (VFloat p) (VInt q))
        as [[e He]|[[He _]|(old & bp & bq & _ & _ & _ & _ & _ & _ & He)]];
        rewrite He; [by left|by left|].
      right. simpl.
      match goal with |- context [reload ?s] =>
        pose proof (reload_keeps s) as Hk;
        pose proof (reload_table s) as Ht;
        destruct (reload s) as [s1 [e|]] end;
        simpl in *; destruct Hk as (-> & _); rewrite Ht;
        apply draw_rows_sublist.
    + left. pose proof (validate_refused s Hr) as Hk.
      destruct (validate s) as [v s1]. simpl in *. subst v. simpl.
      intuition congruence.
  - destruct (dialog s) as [[id [|]]|] eqn:Hd; simpl; try by left.
    unfold confirm_delete.
    destruct (delete_product_cases (db (self s)) id)
      as [He|[[He _]|(r & _ & _ & He)]]; rewrite He;
      [by left|by left|].
    right. simpl.
    match goal with |- context [reload ?s] =>
      pose proof (reload_keeps s) as Hk;
      pose proof (reload_table s) as Ht;
      destruct (reload s) as [s1 [e|]] end;
      simpl in *; destruct Hk as (-> & _); rewrite Ht;
      apply draw_rows_sublist.
  - left. by destruct (dialog s) as [[id [|]]|].
Qed.

Lemma main_table file v :
  sublist (data_table (self (main file v)))
          (read_products (db (self (main file v)))).
Proof.
  unfold main.
  match goal with |- context [reload ?s] =>
    pose proof (reload_keeps s) as Hk;
    pose proof (reload_table s) as Ht;
    destruct (reload s) as [s1 [e|]] end;
    simpl in *; destruct Hk as (-> & _); rewrite Ht;
    apply draw_rows_sublist.
Qed.

(** [update_product] of the form on a product the table does not hold. *)
Lemma update_of_deleted_product (s : Session) (id : Z) n c p q :
  current_edit_id (self s) = Some id → id ≠ 0 → is_int64 id = true →
  fields_valid (self s) n c p q → is_int64 q = true →
  products (db (self s)) !! id = None →
  let s' := fire s ClickUpdate in
  db (self s') = db (self s) ∧ mode s' = mode s ∧ fields s' = fields s ∧
  data_table (self s') = data_table (self s) ∧
  shown s' = ProductNotFound :: shown s.
Proof.
  intros Hid H0 Hid64 Hf Hq64 Hnone. simpl. unfold click_update.
  rewrite (validate_valid s n c p q Hf).
  pose proof Hf as (Hn & Hbn & Hc & Hbc & Hp & Hle & Hq & Hq0).
  simpl. rewrite Hid, Hn, Hc, Hp, Hq.
  rewrite (proj2 (Z.eqb_neq _ _) H0).
  assert (update_product (db (self s)) id (strip n) (strip c) (VFloat p)
            (VInt q) = (Ok 0, db (self s))) as ->.
  { unfold update_product. simpl. by rewrite Hq64, Hid64, Hnone. }
  simpl. unfold mode, fields. simpl. by rewrite Hid, Hn, Hc.
Qed.

Lemma confirm_delete_keeps (s : Session) (id : Z) :
  let s' := confirm_delete s id in
  db (self s') = (delete_product (db (self s)) id).2 ∧
  mode s' = mode s ∧ fields s' = fields s ∧ uncaught s' = uncaught s.
Proof.
  unfold confirm_delete. simpl.
  destruct (delete_product _ _) as [[k|e] d']; [|done].
  destruct (0 <? k); [|done].
  match goal with |- context [reload ?s] =>
    pose proof (reload_keeps s) as Hk;
    destruct (reload s) as [s1 [e|]] end; simpl in *;
    intuition congruence.
Qed.

Lemma digits_val_nonneg (ds : list ascii) :
  Forall (λ c, is_digit c = true) ds → 0 <= digits_val ds.
Proof.
  induction ds as [|d ds IH] using rev_ind; [done|].
  intros [Hds Hd]%Forall_app. rewrite digits_val_snoc.
  apply Forall_cons in Hd as [Hd _]. unfold is_digit in Hd.
  apply andb_true_iff in Hd as [Hd _]. apply Z.leb_le in Hd.
  specialize (IH Hds). unfold digit_val. lia.
Qed.

Lemma py_int_of_digits (s : string) :
  list_ascii_of_string s ≠ [] →
  Forall (λ c, is_digit c = true) (list_ascii_of_string s) →
  py_int s =
    if MAX_STR_DIGITS <? Z.of_nat (String.length s) then Raise ValueError
    else Ok (digits_val (list_ascii_of_string s)).
Proof.
  intros Hne Hds.
  assert (String.length s = length (list_ascii_of_string s)) as ->.
  { clear. induction s as [|c s IH]; [done|]. simpl. by rewrite IH. }
  apply (py_int_digits s false (list_ascii_of_string s)); [|done..].
  pose proof (strip_digits [] (list_ascii_of_string s) Hne Hds) as Hstrip.
  simpl in Hstrip. rewrite Hstrip; [by apply take_sign_digits|].
  intros c Hc. apply is_digit_not_space.
  destruct (list_ascii_of_string s) as [|c' l]; [done|].
  apply Forall_cons in Hds as [Hc' _]. simpl in Hc. congruence.
Qed.

Lemma cons_neq {A} (x : A) (l : list A) : l ≠ x :: l.
Proof. intros H. apply (f_equal length) in H. simpl in H. lia. Qed.

(** ** What the price field can hold *)

(** ** Rounding never gives a NaN *)

Lemma shr_1_nonneg (mrs : SpecFloat.shr_record) :
  0 <= SpecFloat.shr_m mrs → 0 <= SpecFloat.shr_m (SpecFloat.shr_1 mrs).
Proof. destruct mrs as [[|[p|p|]|p] r s]; simpl; lia. Qed.

Lemma iter_shr_1_nonneg (p : positive) (mrs : SpecFloat.shr_record) :
  0 <= SpecFloat.shr_m mrs →
  0 <= SpecFloat.shr_m (SpecFloat.iter_pos SpecFloat.shr_1 p mrs).
Proof.
  revert mrs. induction p as [p IH|p IH|]; intros mrs Hm; simpl.
  - apply IH, IH. by apply shr_1_nonneg.
  - by apply IH, IH.
  - by apply shr_1_nonneg.
Qed.

Lemma shr_fexp_nonneg (m e : Z) (l : SpecFloat.location) :
  0 <= m → 0 <= SpecFloat.shr_m (SpecFloat.shr_fexp prec emax m e l).1.
Proof.
  intros Hm. unfold SpecFloat.shr_fexp, SpecFloat.shr.
  assert (SpecFloat.shr_m (SpecFloat.shr_record_of_loc m l) = m) as Hrec
    by (by destruct l as [|[]]).
  destruct (_ - e) as [|p|p]; simpl; rewrite ?Hrec; try done.
  apply iter_shr_1_nonneg. by rewrite Hrec.
Qed.

Lemma round_nearest_even_nonneg (m : Z) (l : SpecFloat.location) :
  0 <= m → 0 <= SpecFloat.round_nearest_even m l.
Proof.
  intros Hm. destruct l as [|[]]; simpl; try done; [|lia].
  destruct (Z.even m); lia.
Qed.

Lemma binary_round_aux_no_nan (sx : bool) (mx ex : Z) lx :
  0 <= mx →
  SpecFloat.binary_round_aux prec emax sx mx ex lx ≠ SpecFloat.S754_nan.
Proof.
  intros Hm. unfold SpecFloat.binary_round_aux.
  pose proof (shr_fexp_nonneg mx ex lx Hm) as H1.
  destruct (SpecFloat.shr_fexp prec emax mx ex lx) as [mrs' e'].
  simpl in H1.
  pose proof (shr_fexp_nonneg _ e' SpecFloat.loc_Exact
    (round_nearest_even_nonneg _ (SpecFloat.loc_of_shr_record mrs') H1)) as H2.
  destruct (SpecFloat.shr_fexp prec emax _ e' SpecFloat.loc_Exact)
    as [mrs'' e''].
  simpl in H2. destruct (SpecFloat.shr_m mrs'') as [|m|m]; [done| |lia].
  by destruct (_ <=? _).
Qed.

Lemma binary_round_no_nan (sx : bool) (mx : positive) (ex : Z) :
  SpecFloat.binary_round prec emax sx mx ex ≠ SpecFloat.S754_nan.
Proof.
  unfold SpecFloat.binary_round. destruct (SpecFloat.shl_align _ _ _).
  by apply binary_round_aux_no_nan.
Qed.

Lemma Prim2SF_nan (f : float) :
  Prim2SF f = SpecFloat.S754_nan → PrimFloat.is_nan f = true.
Proof.
  unfold Prim2SF. destruct (PrimFloat.is_nan f); [done|].
  destruct (PrimFloat.is_zero f); [done|].
  destruct (PrimFloat.is_infinity f); [done|].
  destruct (Z.frexp f). destruct (SpecFloat.shr_fexp _ _ _ _ _).
  by destruct (SpecFloat.shr_m _).
Qed.

Lemma SF2Prim_no_nan (x : SpecFloat.spec_float) :
  x ≠ SpecFloat.S754_nan → PrimFloat.is_nan (SF2Prim x) = false.
Proof.
  intros Hx. destruct (PrimFloat.is_nan (SF2Prim x)) eqn:Hnan; [|done].
  exfalso. destruct x as [[]|[]| |s m e]; try done; try by vm_compute in Hnan.
  set (pm := of_uint63 (Uint63.of_Z (Z.pos m))).
  assert (SF2Prim (SpecFloat.S754_finite s m e)
          = if s then (- Z.ldexp pm e)%float else Z.ldexp pm e) as Heq
    by reflexivity.
  rewrite Heq in Hnan. clear Heq.
  assert (Prim2SF (Z.ldexp pm e) ≠ SpecFloat.S754_nan) as Hld.
  { unfold Z.ldexp. rewrite FloatAxioms.ldshiftexp_spec.
    unfold pm. rewrite FloatAxioms.of_uint63_spec.
    unfold SpecFloat.binary_normalize.
    destruct (Uint63.to_Z _) as [|k|k]; simpl; try done.
    - destruct (SpecFloat.binary_round prec emax false k 0) eqn:Hb;
        try done; [by apply binary_round_no_nan in Hb|].
      apply binary_round_no_nan.
    - destruct (SpecFloat.binary_round prec emax true k 0) eqn:Hb;
        try done; [by apply binary_round_no_nan in Hb|].
      apply binary_round_no_nan. }
  assert (∀ g, PrimFloat.is_nan g = true → Prim2SF g = SpecFloat.S754_nan)
    as Hback.
  { intros g Hg. unfold Prim2SF. by rewrite Hg. }
  destruct s.
  - apply Hback in Hnan. rewrite FloatAxioms.opp_spec in Hnan.
    destruct (Prim2SF (Z.ldexp pm e)); simpl in Hnan; congruence.
  - by apply Hback in Hnan.
Qed.

Lemma float_of_ratio_no_nan (neg : bool) (num den : Z) :
  0 <= num → 0 < den → PrimFloat.is_nan (float_of_ratio neg num den) = false.
Proof.
  intros Hn Hd. unfold float_of_ratio.
  set (k := Z.max 0 _).
  pose proof (Z_div_mod (num * 2 ^ k) den ltac:(lia)) as Hdiv.
  destruct (Z.div_eucl (num * 2 ^ k) den) as [q r].
  destruct Hdiv as [Hq Hr].
  apply SF2Prim_no_nan, binary_round_aux_no_nan.
  assert (0 <= num * 2 ^ k) by (apply Z.mul_nonneg_nonneg; [done|]; apply Z.pow_nonneg; lia).
  nia.
Qed.

Lemma float_of_decimal_no_nan (neg : bool) (m e : Z) :
  0 <= m → PrimFloat.is_nan (float_of_decimal neg m e) = false.
Proof.
  intros Hm. unfold float_of_decimal.
  destruct (m =? 0); [by destruct neg|].
  destruct (0 <=? e) eqn:He.
  - apply float_of_ratio_no_nan; [|lia].
    apply Z.mul_nonneg_nonneg; [done|]. apply Z.pow_nonneg. lia.
  - apply float_of_ratio_no_nan; [done|]. apply Z.pow_pos_nonneg; lia.
Qed.

Lemma span_digits_us_all_digits (l : list ascii) :
  Forall (λ c, is_digit c = true) (span_digits_us l).1.
Proof.
  assert (∀ n l, (length l ≤ n)%nat →
                 Forall (λ c, is_digit c = true) (span_digits_us l).1) as H.
  { clear l. induction n as [|n IH]; intros l Hl.
    - destruct l; [constructor|simpl in Hl; lia].
    - destruct l as [|c l']; [constructor|]. cbn [span_digits_us].
      destruct (is_digit c) eqn:Hc; [|constructor].
      simpl in Hl.
      destruct l' as [|u [|d l'']].
      + simpl. by constructor.
      + pose proof (IH [u] ltac:(simpl in *; lia)) as IHu.
        destruct (span_digits_us [u]) as [ds r]. by constructor.
      + destruct ((code u =? 95) && is_digit d).
        * pose proof (IH (d :: l'') ltac:(simpl in *; lia)) as IHd.
          destruct (span_digits_us (d :: l'')) as [ds r]. by constructor.
        * pose proof (IH (u :: d :: l'') ltac:(simpl in *; lia)) as IHd.
          destruct (span_digits_us (u :: d :: l'')) as [ds r].
          by constructor. }
  by apply (H (length l)).
Qed.

Lemma span_decimal_nonneg (l : list ascii) m e b rest :
  span_decimal span_digits_us l = Some (m, e, b, rest) → 0 <= m.
Proof.
  unfold span_decimal.
  pose proof (span_digits_us_all_digits l) as Hip.
  destruct (span_digits_us l) as [ip r1]. simpl in Hip.
  assert (∃ fp r2 dot,
            match r1 with
            | [] => ([], r1, false)
            | c :: r1' =>
                if code c =? 46
                then let '(fp, r2) := span_digits_us r1' in (fp, r2, true)
                else ([], r1, false)
            end = (fp, r2, dot) ∧ Forall (λ c, is_digit c = true) fp)
    as (fp & r2 & dot & -> & Hfp).
  { destruct r1 as [|c r1']; [by exists [], [], false|].
    destruct (code c =? 46); [|by exists [], (c :: r1'), false].
    pose proof (span_digits_us_all_digits r1') as Hfp.
    destruct (span_digits_us r1') as [fp r2]. by exists fp, r2, true. }
  assert (0 <= digits_val (ip ++ fp)) as Hm
    by (apply digits_val_nonneg, Forall_app; done).
  destruct (ip ++ fp) as [|d ds]; [done|].
  destruct r2 as [|c r2']; [by intros [= <- _ _ _]|].
  destruct (code (to_lower c) =? 101); [|by intros [= <- _ _ _]].
  destruct (take_sign r2') as [eneg r3].
  destruct (span_digits_us r3) as [[|x es] r4]; by intros [= <- _ _ _].
Qed.

(** [float] reads a NaN only from the word [nan]. *)
Lemma py_float_nan (s : string) (p : float) :
  py_float s = Ok p → PrimFloat.is_nan p = true →
  lower_string
    (take_sign (strip_with py_number_space (list_ascii_of_string s))).2
  = "nan"%string.
Proof.
  unfold py_float.
  destruct (take_sign _) as [neg r]. simpl.
  destruct (_ || _).
  { intros [= <-]. by destruct neg. }
  destruct (String.eqb_spec (lower_string r) "nan") as [->|_]; [done|].
  destruct (span_decimal span_digits_us r) as [[[[m e] b] [|? ?]]|] eqn:Hd;
    try done.
  intros [= <-] Hnan. apply span_decimal_nonneg in Hd.
  by rewrite float_of_decimal_no_nan in Hnan.
Qed.

Lemma lstrip_with_Forall (P : ascii → Prop) sp (l : list ascii) :
  Forall P l → Forall P (lstrip_with sp l).
Proof.
  induction 1 as [|c l Hc Hl IH]; [constructor|]. simpl.
  destruct (sp c); [done|by constructor].
Qed.

Lemma strip_with_Forall (P : ascii → Prop) sp (l : list ascii) :
  Forall P l → Forall P (strip_with sp l).
Proof.
  intros Hl. unfold strip_with.
  by apply Forall_reverse, lstrip_with_Forall, Forall_reverse,
    lstrip_with_Forall.
Qed.

Lemma take_sign_Forall (P : ascii → Prop) (l : list ascii) :
  Forall P l → Forall P (take_sign l).2.
Proof.
  destruct 1 as [|c l Hc Hl]; [constructor|]. unfold take_sign.
  destruct (code c =? 45); [done|].
  destruct (code c =? 43); [done|]. by constructor.
Qed.

(** A text none of whose characters is an [n] does not read as a NaN. *)
Lemma py_float_no_nan (s : string) (p : float) :
  Forall (λ c, to_lower c ≠ "n"%char) (list_ascii_of_string s) →
  py_float s = Ok p → PrimFloat.is_nan p = false.
Proof.
  intros Hs Hp. destruct (PrimFloat.is_nan p) eqn:Hnan; [|done].
  exfalso. pose proof (py_float_nan s p Hp Hnan) as Hw.
  apply (strip_with_Forall _ py_number_space) in Hs.
  apply take_sign_Forall in Hs.
  destruct (take_sign _).2 as [|c r]; [done|].
  apply Forall_cons in Hs as [Hc _]. unfold lower_string in Hw.
  simpl in Hw. by injection Hw as Hw _.
Qed.

Lemma digit_not_n (c : ascii) : is_digit c = true → to_lower c ≠ "n"%char.
Proof. by destruct c as [[] [] [] [] [] [] [] []]. Qed.

Lemma digits_not_n (ds : list ascii) :
  Forall (λ c, is_digit c = true) ds →
  Forall (λ c, to_lower c ≠ "n"%char) ds.
Proof.
  intros Hds. eapply Forall_impl; [exact Hds|]. intros c. apply digit_not_n.
Qed.

(** What is typed in a field that takes digits only does not read as a
    NaN. *)
Lemma typed_price_no_nan (app : ProductManagerApp) (s : string) :
  price_field app = Some s →
  Forall (λ c, is_digit c = true) (list_ascii_of_string s) →
  price_no_nan app.
Proof.
  intros Hs Hds p. rewrite Hs. simpl.
  by apply py_float_no_nan, digits_not_n.
Qed.

Lemma strip_zeros_Forall (P : ascii → Prop) (ds : list ascii) :
  Forall P ds → Forall P (strip_zeros ds).
Proof.
  induction 1 as [|d ds Hd Hds IH]; [constructor|]. simpl.
  destruct (strip_zeros ds) as [|x r].
  - destruct (code d =? 48); by constructor.
  - by constructor.
Qed.

Lemma shortest_decimal_nonneg f num den k tries n :
  0 <= (shortest_decimal f num den k tries n).1.
Proof.
  revert n. induction tries as [|t IH]; intros n; [done|]. simpl.
  destruct (filter _ _) as [|c l] eqn:Hfilter; [apply IH|].
  assert (c ∈ c :: l) as Hin by left. rewrite <- Hfilter in Hin.
  apply list_elem_of_filter in Hin as [Hc _].
  apply andb_true_iff in Hc as [Hc _]. apply Z.ltb_lt in Hc. simpl. lia.
Qed.

Lemma format_repr_not_n (ds : list ascii) (decpt : Z) :
  Forall (λ c, is_digit c = true) ds →
  Forall (λ c, to_lower c ≠ "n"%char) (format_repr ds decpt).
Proof.
  intros Hds%digits_not_n. unfold format_repr.
  assert (∀ k, Forall (λ c, to_lower c ≠ "n"%char) (repeat "0"%char k))
    as Hzeros by (intros k; induction k; by constructor).
  destruct (_ && _).
  - destruct (decpt <=? 0).
    + repeat constructor; try done. apply Forall_app. by split.
    + destruct (_ <=? decpt).
      * apply Forall_app. split; [done|]. apply Forall_app.
        split; [done|]. by repeat constructor.
      * apply Forall_app. split; [by apply Forall_take|].
        constructor; [done|]. by apply Forall_drop.
  - apply Forall_app. split; [by apply Forall_take|].
    apply Forall_app. split.
    + pose proof (Forall_drop _ 1 _ Hds) as Hdrop.
      destruct (drop 1 ds); [constructor|]. by constructor.
    + constructor; [done|]. constructor; [by destruct (_ <? 0)|].
      assert (Forall (λ c, to_lower c ≠ "n"%char)
                (digits_of_Z (Z.abs (decpt - 1)))) as Hes.
      { apply digits_not_n.
        by destruct (digits_of_Z_spec (Z.abs (decpt - 1))) as (_ & ? & _);
          [lia|]. }
      destruct (_ <? 10); [by constructor|done].
Qed.

(** The [str] of a float that is not a NaN does not read as a NaN. *)
Lemma str_float_no_nan (f p : float) :
  PrimFloat.is_nan f = false → py_float (str_float f) = Ok p →
  PrimFloat.is_nan p = false.
Proof.
  intros Hf. unfold str_float.
  destruct (Prim2SF f) as [s|s| |s m e] eqn:Hsf.
  - destruct s; vm_compute; by intros [= <-].
  - destruct s; vm_compute; by intros [= <-].
  - apply Prim2SF_nan in Hsf. congruence.
  - destruct (shortest_decimal _ _ _ _ _ _) as [c n] eqn:Hsd.
    apply py_float_no_nan.
    rewrite list_ascii_of_string_of_list_ascii. apply Forall_app. split.
    + destruct s; by repeat constructor.
    + apply format_repr_not_n, strip_zeros_Forall.
      match type of Hsd with
      | shortest_decimal ?a ?b ?d ?k ?t ?i = _ =>
          pose proof (shortest_decimal_nonneg a b d k t i) as Hc
      end.
      rewrite Hsd in Hc. simpl in Hc.
      by destruct (digits_of_Z_spec c Hc) as (_ & ? & _).
Qed.

(** What [edit_product] writes in the price field, the [str] of a price
    that is not a NaN, does not read as a NaN. *)
Lemma written_price_no_nan (app : ProductManagerApp) (f : float) :
  price_field app = Some (str_float f) → PrimFloat.is_nan f = false →
  price_no_nan app.
Proof.
  intros Hs Hf p. rewrite Hs. simpl. by apply str_float_no_nan.
Qed.

(** Nor does an empty price field. *)
Lemma empty_price_no_nan (app : ProductManagerApp) :
  price_field app = None ∨ price_field app = Some EmptyString →
  price_no_nan app.
Proof. intros [Hs|Hs] p; rewrite Hs; by vm_compute. Qed.

(** * The contract, for every state and input *)

(** ** Creation then listing *)

(** C1, amended: for every valid input whose quantity fits 64 bits, on a
    store whose largest id ever used is below the largest 64-bit
    integer, [create_product] returns an id that was not listed before,
    and [read_products] then yields the former listing with, at its
    head, one new record: that id, the submitted name, category, price
    and quantity, and the time of the call. *)
Theorem create_then_list db n c p q now :
  valid_input n c p q → q <= INT64_MAX → largest_rowid db < INT64_MAX →
  create_lists_new db n c (VFloat p) (VInt q) now.
Proof.
  intros (_ & _ & Hp & Hq) Hmax Hid. unfold create_lists_new.
  rewrite create_product_numbers; [|by apply positive_not_nan| |done].
  - rewrite stored_real_positive by done.
    exists (largest_rowid db + 1). split; [done|]. split.
    + apply fresh_rowid_not_listed. lia.
    + apply read_products_insert_new. lia.
  - unfold is_int64, INT64_MIN, INT64_MAX in *. lia.
Qed.

(** ** Listing *)

(** C2: [read_products] returns every row of the table, each exactly
    once, by strictly descending id. *)
Theorem read_products_sorted_complete db :
  (∀ id r, (id, r) ∈ read_products db ↔ products db !! id = Some r) ∧
  NoDup (read_products db) ∧
  StronglySorted (λ p1 p2 : product, p2.1 < p1.1) (read_products db).
Proof.
  split; [|split].
  - intros id r. apply (elem_of_read_products db (id, r)).
  - apply NoDup_read_products.
  - apply read_products_sorted.
Qed.

(** ** Search *)

(** C3, amended: for every table state and every search term that holds
    neither ["%"] nor ["_"] and whose pattern ["%term%"] is at most
    50000 bytes long, [search_products] returns exactly the listed
    records in whose name or category the term occurs up to the case of
    the letters A-Z, in the order of [read_products]. *)
Theorem search_then_substrings db term :
  wildcard_free term = true →
  utf8_length (search_pattern term) <= SQLITE_MAX_LIKE_PATTERN_LENGTH →
  search_selects_substrings db term.
Proof.
  intros Hw Hlen. unfold search_selects_substrings.
  eexists. split; [by apply search_products_Ok|].
  split; [apply sublist_filter|].
  intros p. rewrite list_elem_of_filter, row_matches_search_pattern by done.
  tauto.
Qed.

(** C4: for every table state, [search_products] with the empty term
    returns the sequence [read_products] returns. *)
Theorem search_empty_term db :
  search_products db "" = Ok (read_products db).
Proof.
  rewrite search_products_Ok by (vm_compute; discriminate).
  f_equal. apply filter_all. intros p _. unfold row_matches.
  by rewrite !like_empty_term.
Qed.

(** ** Update then listing *)

(** C5, amended: for every row held under an id of 64 bits, and every
    new name, category, price that is a number (not a NaN) and quantity
    that fits 64 bits, [update_product] returns 1 and [read_products]
    then yields the former listing in which that record carries the new
    name, category, price (a negative zero being listed as zero) and
    quantity under the same id and creation date, every other record
    being as before. *)
Theorem update_then_list db id old n c (p : float) (q : Z) :
  products db !! id = Some old →
  is_int64 id = true → PrimFloat.is_nan p = false → is_int64 q = true →
  update_shows db id old n c (VFloat p) (VInt q)
    (VFloat (stored_real p)) (VInt q).
Proof.
  intros Hold Hid Hp Hq. unfold update_shows.
  rewrite (update_product_numbers db id old) by done.
  split; [done|]. by apply read_products_insert_old with old.
Qed.

(** ** Deletion then listing *)

(** C6: for every id (an id is a 64-bit integer, as every rowid of the
    table is), if the table holds the id then [delete_product] returns
    1, [read_products] afterwards has no record with that id, and a
    second [delete_product] of the id returns 0; if the table does not
    hold the id, [delete_product] returns 0. *)
Theorem delete_then_list db id :
  is_int64 id = true →
  (is_Some (products db !! id) → delete_removes db id) ∧
  (products db !! id = None → delete_not_found db id).
Proof.
  intros Hid. split.
  - intros [r Hr]. unfold delete_removes.
    rewrite (delete_product_present db id r) by done.
    split; [done|]. split.
    + rewrite read_products_delete.
      intros (p & Hp & Hin)%list_elem_of_fmap.
      apply list_elem_of_filter in Hin as [Hne _]. done.
    + rewrite delete_product_absent; [done| |done].
      simpl. apply lookup_delete_eq.
  - intros Hnone. unfold delete_not_found.
    by rewrite delete_product_absent.
Qed.

(** ** What the store itself checks *)

(** C7, amended: the store's [create_product] does not validate price or
    quantity. For every text given as price and every text given as
    quantity, parseable as a number or not, on a store whose largest id
    ever used is below the largest 64-bit integer, the call succeeds and
    the listing gains, at its head, a record with the submitted name and
    category whose price and quantity are the texts as the columns store
    them (a well-formed numeric literal as a number, any other text
    unchanged). Rejecting unparseable numbers is left to the caller. *)
Theorem create_text_accepted db n c ps qs now :
  largest_rowid db < INT64_MAX → create_stores_text db n c ps qs now.
Proof.
  intros Hid. unfold create_stores_text.
  rewrite create_product_storable by done.
  exists (largest_rowid db + 1). split; [done|].
  apply read_products_insert_new. lia.
Qed.

(** ** Validation by the form *)

(** Every submission that [validate_form] refuses (a blank name or
    category, a price that does not parse or is at most zero, a quantity
    that does not parse or is below zero) stops before any call on the
    store. *)
Lemma add_product_refused app now :
  blank (name_field app) = true ∨ blank (category_field app) = true ∨
  (∃ e, float_of_field (price_field app) = Raise e) ∨
  (∃ p, float_of_field (price_field app) = Ok p ∧ PrimFloat.leb p 0 = true) ∨
  (∃ e, int_of_field (quantity_field app) = Raise e) ∨
  (∃ q, int_of_field (quantity_field app) = Ok q ∧ q < 0) →
  aborted_before_store app (add_product app now).
Proof. intros Hbad. by apply add_product_invalid, validate_form_refuses. Qed.

(** C8: every submission whose name or category is empty after
    trimming, whose price does not parse or is not above zero, or whose
    quantity does not parse or is below zero, is aborted as a
    validation error: a message of [validate_form] is shown and a field
    focused, no call is made on the store, and the database and the
    table are unchanged. The submissions are those the form can
    receive: the price field holds no text that reads as a NaN. *)
Theorem invalid_submission_aborted app now :
  price_no_nan app → invalid_submission app →
  aborted_as_validation_error app (add_product app now).
Proof.
  intros Hnan Hbad.
  assert ((validate_form app).1 = false) as Hv.
  { apply validate_form_refuses.
    destruct Hbad as [H|[H|[H|H]]]; [by left|by right; left|..].
    - destruct (float_of_field (price_field app)) as [p|e] eqn:Hp;
        [|right; right; left; by exists e].
      right; right; right; left. exists p. split; [done|].
      specialize (Hnan p Hp). specialize (H p eq_refl).
      destruct (PrimFloat.leb p 0) eqn:Hle; [done|].
      by rewrite (not_le_zero_positive p Hnan Hle) in H.
    - destruct (int_of_field (quantity_field app)) as [q|e] eqn:Hq;
        [|do 4 right; left; by exists e].
      do 5 right. exists q. split; [done|]. by apply H. }
  rewrite (add_product_stops app now Hv).
  destruct (validate_form_rejection app Hv) as (n & f & Hn & ->).
  split; [by exists n, f|]. by split.
Qed.

(** ** One statement per call *)

(** C9, amended: every call of [create_product], [update_product] and
    [delete_product] either fails and leaves the database exactly as it
    was, or has its whole effect and touches no other row: one row
    inserted, or one row replaced, with the name and the category given
    and the price and the quantity given as their columns store them (a
    float and an integer are stored as they are, a negative zero as
    zero), the creation date being that of the call for an insertion
    and the former one for a replacement; or one row removed
    ([read_products] and [search_products] change nothing). On an id
    the table does not hold, [update_product] and [delete_product]
    change nothing; they return 0, unless an integer argument is outside
    the 64-bit range, in which case they stop with [OverflowError]. *)
Theorem store_calls_atomic db id n c p q now :
  atomic_create db n c p q now ∧
  atomic_update db id n c p q ∧
  atomic_delete db id ∧
  (products db !! id = None →
   not_found_changes_nothing db id n c p q ∧
   (bindable p = true ∧ bindable q = true ∧ is_int64 id = true →
    not_found_returns_zero db id n c p q)) ∧
  (∀ (f : float) (z : Z) date r,
     p = VFloat f → q = VInt z → row_written n c p q date r →
     r = mk_row n c (VFloat (stored_real f)) (VInt z) date).
Proof.
  split; [apply create_product_atomic|].
  split; [apply update_product_atomic|].
  split; [apply delete_product_atomic|].
  split.
  - intros Hnone. split; [split|].
    + by apply update_product_absent.
    + destruct (is_int64 id) eqn:Hid.
      * left. by apply delete_product_absent.
      * right. by apply delete_product_overflow.
    + intros (Hp & Hq & Hid). split.
      * by apply update_product_not_found.
      * by apply delete_product_absent.
  - intros f z date r -> ->. apply row_written_numbers.
Qed.

(** ** Ids *)

(** C10: along every sequence of calls on the store, from every state,
    the ids returned by the successive [create_product] are strictly
    increasing and above the largest id the store had recorded before;
    so no id is ever given twice, deletions in between or not, and the
    ids of the listed records are pairwise distinct. *)
Theorem created_ids_increase db cs :
  StronglySorted Z.lt (run db cs).1 ∧
  Forall (λ id, sqlite_sequence db < id) (run db cs).1 ∧
  NoDup (read_products (run db cs).2).*1.
Proof.
  destruct (run db cs) as [ids db'] eqn:Hrun. simpl.
  apply run_increasing in Hrun as (_ & Hall & Hsorted).
  split; [done|]. split; [|apply NoDup_read_products_ids].
  eapply Forall_impl; [exact Hall|]. simpl. intros; lia.
Qed.

(** * Further properties of the code *)

(** ** DatabaseManager *)

(** X1: which exception [create_product] raises. An integer outside the
    64-bit range as price or quantity: [OverflowError]; otherwise, once
    the largest 64-bit id has been used: [OperationalError]; otherwise, a
    price or a quantity that is [None] or a NaN: [IntegrityError];
    otherwise the call succeeds with the id after the largest ever
    used. A failed call leaves the database as it was. *)
Theorem create_product_outcome db n c p q now :
  let res := (create_product db n c p q now).1 in
  (bindable p && bindable q = false → res = Raise OverflowError) ∧
  (bindable p && bindable q = true → INT64_MAX <= largest_rowid db →
   res = Raise OperationalError) ∧
  (bindable p && bindable q = true → largest_rowid db < INT64_MAX →
   unstorable p || unstorable q = true → res = Raise IntegrityError) ∧
  (unstorable p || unstorable q = false → largest_rowid db < INT64_MAX →
   res = Ok (largest_rowid db + 1)) ∧
  (∀ e, res = Raise e → (create_product db n c p q now).2 = db).
Proof.
  simpl. repeat split.
  - intros Hb. unfold create_product.
    destruct (bindable p) eqn:Hp.
    + destruct (bind_param_bindable p Hp) as [bp ->].
      rewrite (bind_param_not_bindable q) by done. done.
    + by rewrite (bind_param_not_bindable p).
  - intros [Hp Hq]%andb_true_iff Hfull. unfold create_product, new_rowid.
    destruct (bind_param_bindable p Hp) as [bp ->].
    destruct (bind_param_bindable q Hq) as [bq ->].
    by rewrite (proj2 (Z.ltb_ge _ _) Hfull).
  - intros [Hp Hq]%andb_true_iff Hid Hnull.
    unfold create_product, new_rowid.
    destruct (bind_param_bindable p Hp) as [bp Hbp].
    destruct (bind_param_bindable q Hq) as [bq Hbq].
    rewrite Hbp, Hbq, (proj2 (Z.ltb_lt _ _) Hid). cbn [mbind result_bind].
    destruct (not_null (affinity_real bp)) as [p'|e] eqn:Hp'.
    + apply not_null_Ok in Hp' as [-> Hp'].
      destruct (not_null (affinity_integer bq)) as [q'|e] eqn:Hq'.
      * apply not_null_Ok in Hq' as [-> Hq']. exfalso.
        rewrite affinity_real_null, (bind_param_null p) in Hp' by done.
        rewrite affinity_integer_null, (bind_param_null q) in Hq' by done.
        destruct (unstorable p), (unstorable q); done.
      * by apply not_null_Raise in Hq' as [_ ->].
    + by apply not_null_Raise in Hp' as [_ ->].
  - intros [Hp Hq]%orb_false_iff Hid.
    by rewrite create_product_storable.
  - intros e He.
    destruct (create_product db n c p q now) as [r db'] eqn:Hrun.
    simpl in *. subst r. by apply create_product_Raise in Hrun.
Qed.

(** X2: [update_product] never adds or removes a record: whatever its
    arguments and its outcome, the ids listed afterwards are the ids
    listed before, in the same order, and the AUTOINCREMENT sequence is
    as before. *)
Theorem update_product_keeps_ids db id n c p q :
  (read_products (update_product db id n c p q).2).*1 = (read_products db).*1 ∧
  sqlite_sequence (update_product db id n c p q).2 = sqlite_sequence db.
Proof.
  split; [|apply update_product_sequence].
  destruct (update_product_cases db id n c p q)
    as [[e ->]|[[-> _]|(old & bp & bq & Hold & _ & _ & _ & _ & _ & ->)]];
    [done|done|].
  simpl. rewrite (read_products_insert_old db id old) by done.
  rewrite <- list_fmap_compose. apply list_fmap_ext.
  intros i [k r] _. simpl. by case_decide.
Qed.

(** X3: [update_product] is idempotent: the same call made a second
    time returns the same result and leaves the database as the first
    call left it. *)
Theorem update_product_idempotent db id n c p q :
  update_product (update_product db id n c p q).2 id n c p q
  = update_product db id n c p q.
Proof.
  destruct (update_product_cases db id n c p q)
    as [[e He]|[[H0 _]|(old & bp & bq & Hold & Hp & Hq & Hid & Hbp & Hbq & H1)]].
  - by rewrite He.
  - by rewrite H0.
  - rewrite H1. simpl.
    erewrite update_product_found;
      [|simpl; apply lookup_insert_eq|done..].
    simpl. by rewrite insert_insert_eq.
Qed.

(** X4: deleting the product that [create_product] has just created
    gives back the table as it was, but not the id: the AUTOINCREMENT
    sequence stays at the deleted id, so the next id is larger. *)
Theorem create_then_delete db n c p q now id db1 :
  create_product db n c p q now = (Ok id, db1) →
  delete_product db1 id =
    (Ok 1, {| products := products db; sqlite_sequence := id |}) ∧
  read_products (delete_product db1 id).2 = read_products db ∧
  largest_rowid (delete_product db1 id).2 = id.
Proof.
  intros Hrun.
  apply create_product_Ok in Hrun as (-> & Hlt & r & -> & _).
  pose proof (largest_rowid_nonneg db) as Hge.
  assert (delete_product
            {| products := <[largest_rowid db + 1 := r]> (products db);
               sqlite_sequence := largest_rowid db + 1 |}
            (largest_rowid db + 1)
          = (Ok 1, {| products := products db;
                      sqlite_sequence := largest_rowid db + 1 |})) as Hdel.
  { erewrite delete_product_present;
      [|simpl; apply lookup_insert_eq
       |unfold is_int64, INT64_MIN, INT64_MAX in *; lia].
    simpl. rewrite delete_insert_fresh; [done|].
    apply largest_rowid_fresh. lia. }
  rewrite Hdel. split; [done|]. split; [done|].
  unfold largest_rowid at 1. simpl.
  pose proof (sequence_le_largest db). unfold largest_rowid in *. lia.
Qed.

(** X5: what [search_products] returns, for every term, wildcards
    included. On an empty table: the empty list. On a table with rows
    and a pattern [f'%{term}%'] longer than 50000 bytes:
    [OperationalError]. Otherwise: exactly the listed records whose name
    or category matches the pattern, where ["%"] stands for any run of
    characters, ["_"] for any one character and a letter for itself in
    either case, in the order of [read_products]. *)
Theorem search_products_outcome db term :
  (read_products db = [] → search_products db term = Ok []) ∧
  (read_products db ≠ [] →
   SQLITE_MAX_LIKE_PATTERN_LENGTH < utf8_length (search_pattern term) →
   search_products db term = Raise OperationalError) ∧
  (utf8_length (search_pattern term) <= SQLITE_MAX_LIKE_PATTERN_LENGTH →
   ∃ l, search_products db term = Ok l ∧
        sublist l (read_products db) ∧
        ∀ p, p ∈ l ↔ p ∈ read_products db ∧ matches_pattern term p).
Proof.
  split; [|split].
  - intros Hnil. unfold search_products. by rewrite Hnil.
  - intros Hrows Hlen. unfold search_products.
    destruct (read_products db); [done|].
    by rewrite (proj2 (Z.ltb_lt _ _) Hlen).
  - intros Hlen. eexists. split; [by apply search_products_Ok|].
    split; [apply sublist_filter|].
    intros p. rewrite list_elem_of_filter, row_matches_spec. tauto.
Qed.

(** X6: the search does not see the case of the letters A-Z in the term:
    two terms that differ only by that case give the same result, on
    every table. *)
Theorem search_products_nocase db t1 t2 :
  same_nocase t1 t2 → search_products db t1 = search_products db t2.
Proof.
  intros Heq.
  assert (to_lower <$> list_ascii_of_string (search_pattern t1)
          = to_lower <$> list_ascii_of_string (search_pattern t2)) as Hpat
    by (by rewrite !search_pattern_fold, Heq).
  assert (utf8_length (search_pattern t1) = utf8_length (search_pattern t2))
    as Hlen.
  { unfold utf8_length.
    by rewrite <- utf8_length_chars_fold, Hpat, utf8_length_chars_fold. }
  unfold search_products. rewrite Hlen.
  destruct (read_products db) as [|p0 rows]; [done|].
  case_match; [done|]. f_equal. apply list_filter_iff. intros p.
  unfold row_matches, like.
  by rewrite <- (pattern_compare_fold _ (list_ascii_of_string (name p.2))),
     <- (pattern_compare_fold _ (list_ascii_of_string (category p.2))),
     Hpat, !pattern_compare_fold.
Qed.

(** X7: ids do not wrap around. Once the AUTOINCREMENT sequence has
    reached the largest 64-bit integer, no [create_product] succeeds any
    more, whatever rows are deleted in between. *)
Theorem ids_exhausted db cs :
  INT64_MAX <= sqlite_sequence db →
  (run db cs).1 = [] ∧ sqlite_sequence (run db cs).2 = sqlite_sequence db.
Proof.
  revert db. induction cs as [|c cs IH]; intros db Hfull; [done|].
  simpl. destruct (exec_exhausted db c Hfull) as [Ho Hseq].
  destruct (exec db c) as [o db1]. simpl in Ho, Hseq. subst o.
  destruct (IH db1) as [Hids Hseq']; [lia|].
  destruct (run db1 cs) as [ids db2]. simpl in *. split; [done|lia].
Qed.

(** X8: the calls keep the storage classes of the columns: if every row
    has a price that is a REAL or a TEXT (never NULL, never an INTEGER:
    an integer price is stored as a float) and a quantity that is not
    NULL, then so has every row after any sequence of calls. *)
Theorem storage_classes_kept db cs :
  table_classes_ok db → table_classes_ok (run db cs).2.
Proof.
  revert db. induction cs as [|c cs IH]; intros db Hok; [done|].
  simpl. destruct (exec db c) as [o db1] eqn:Hexec.
  apply exec_classes in Hexec; [|done].
  specialize (IH db1 Hexec). by destruct (run db1 cs) as [ids db2].
Qed.

(** ** ProductManagerApp *)

(** X9: what [load_products] draws. The table is emptied and the
    products are drawn in order up to the first one whose price cannot be
    formatted with [:.2f] (a text, or [None]): the rows of the table are
    the products before that one, all of them drawable; the exception is
    the one of that product, and there is none exactly when every
    product was drawn. *)
Theorem load_products_draws_prefix (s : Session) (ps : list product) :
  let rows := data_table (self (load_products_from s ps).1) in
  ∃ rest,
    ps = rows ++ rest ∧ drawable rows ∧
    match (load_products_from s ps).2 with
    | None => rest = []
    | Some e =>
        ∃ p rest', rest = p :: rest' ∧ price_cell_error (price p.2) = Some e
    end.
Proof.
  destruct (draw_rows_prefix ps) as (rest & Hps & Hd & He).
  unfold load_products_from. destruct (draw_rows ps) as [rows e].
  simpl in *. by exists rest.
Qed.

(** X10: what the form lets into the store. If every record has a name
    and a category that are not empty and have no white space at their
    ends, a price that is a float above zero and a quantity that is an
    integer from 0 to the largest of 64 bits, then so has every record
    after any sequence of events of the window: neither a NaN price nor
    a text ever gets stored through the form. *)
Theorem form_keeps_rows_valid (s : Session) (evs : list event) :
  table_valid (db (self s)) → table_valid (db (self (fire_all s evs))).
Proof.
  revert s. induction evs as [|ev evs IH]; intros s Hs; [done|].
  simpl. apply IH. by apply fire_valid.
Qed.

(** X11: the two modes of the form. From the start of [main], on any
    table found in the file, and after any sequence of events, the form
    is either in create mode ([current_edit_id] is [None], "Add Product"
    visible, "Update Product" and "Cancel" hidden) or in edit mode
    ([current_edit_id] is an id, "Add Product" hidden, the two others
    visible). *)
Theorem form_mode (file : option database) (v : option string)
    (evs : list event) :
  mode_ok (fire_all (main file v) evs).
Proof.
  assert (∀ s, mode_ok s → mode_ok (fire_all s evs)) as Hall.
  { induction evs as [|ev evs IH]; intros s Hs; [done|].
    simpl. apply IH. by apply fire_mode_ok. }
  apply Hall. left. apply main_mode.
Qed.

(** X12: what one event can do to a stored record. After any event, a
    record of the store is as it was, unless the event is "Yes" in the
    open dialog made for this record, which removes it, or "Update
    Product" while this record is the one being edited, which leaves a
    record under the same id with the same creation date. *)
Theorem record_fate (s : Session) (ev : event) (k : Z) (r : row) :
  products (db (self s)) !! k = Some r →
  let d' := db (self (fire s ev)) in
  products d' !! k = Some r ∨
  (ev = ClickYes ∧ dialog s = Some (mk_dialog k true) ∧
   products d' !! k = None) ∨
  (ev = ClickUpdate ∧ current_edit_id (self s) = Some k ∧
   ∃ r', products d' !! k = Some r' ∧ created_date r' = created_date r).
Proof.
  intros Hk. cbv zeta. generalize (fire_store s ev). cbv zeta.
  generalize (db (self (fire s ev))). intros d'
    [->|[(now & n & c & p & q & id & _ & Hf & Hrun)
        |[(id & n & c & p & q & -> & Hid & _ & Hf & Hrun)
         |(id & -> & Hdlg & Hrun)]]]; [by left|..].
  - left. apply create_numbers_Ok in Hrun as (_ & _ & -> & _ & ->). simpl.
    rewrite lookup_insert_ne; [done|].
    pose proof (largest_rowid_ge (db (self s)) k r Hk). lia.
  - apply update_numbers_Ok in Hrun as (old & Hold & _ & _ & _ & ->).
    simpl. destruct (decide (id = k)) as [->|Hne].
    + right; right. do 2 (split; [done|]). eexists.
      rewrite lookup_insert_eq. split; [done|]. simpl. congruence.
    + left. by rewrite lookup_insert_ne.
  - destruct (delete_product_cases (db (self s)) id)
      as [He|[[He _]|(r0 & _ & _ & He)]]; rewrite He in Hrun;
      [done|done|].
    injection Hrun as <-. simpl. destruct (decide (id = k)) as [->|Hne].
    + right; left. do 2 (split; [done|]). apply lookup_delete_eq.
    + left. by rewrite lookup_delete_ne.
Qed.

(** X13: what the table shows when the search field changes. With a
    listing that can be drawn and a pattern within the length LIKE
    accepts, the table shows exactly the listed products whose name or
    category matches [%term%], in the order of the listing, where
    [term] is the text of the field without the white space at its ends;
    for a blank text this is the whole listing. The store is not
    changed, nothing is raised, and the number of products found is
    announced unless the term is empty. *)
Theorem search_shows_matches (s : Session) (t : string) :
  let d := db (self s) in
  let s' := fire s (TypeSearch t) in
  drawable (read_products d) →
  utf8_length (search_pattern (strip t)) <= SQLITE_MAX_LIKE_PATTERN_LENGTH →
  sublist (data_table (self s')) (read_products d) ∧
  (∀ p, p ∈ data_table (self s') ↔
        p ∈ read_products d ∧ matches_pattern (strip t) p) ∧
  db (self s') = d ∧ uncaught s' = uncaught s ∧
  shown s' =
    if decide (strip t = EmptyString) then shown s
    else FoundProducts (length (data_table (self s'))) :: shown s.
Proof.
  intros d s' Hd Hlen. subst d s'. simpl. unfold search_changed. simpl.
  destruct (String.eqb_spec (strip t) "") as [Ht|Ht]; simpl.
  - rewrite decide_True by done.
    rewrite reload_drawable by done. simpl.
    split; [done|]. split; [|done]. intros p. split; [|tauto].
    intros Hp. split; [done|]. rewrite Ht. apply row_matches_spec.
    unfold row_matches. by rewrite like_empty_term.
  - rewrite decide_False by done.
    rewrite search_products_Ok by done.
    unfold load_products_from.
    rewrite draw_rows_drawable
      by (eapply drawable_sublist; [apply sublist_filter|done]).
    simpl. split; [apply sublist_filter|]. split; [|done].
    intros p. rewrite list_elem_of_filter, row_matches_spec. tauto.
Qed.

(** X14: editing a record and updating it at once changes nothing in the
    store. For a record as the form writes them, with an id that is not
    0, whose price is shown by [str] as a text that [float] reads back
    as the same price: after "Edit" and "Update Product" the database is
    as before, the form is back in create mode with its fields empty,
    and, when the listing can be drawn, the table shows the listing. *)
Theorem edit_then_update_keeps_record (s : Session) (id : Z) (r : row)
    (p : float) :
  products (db (self s)) !! id = Some r → row_valid r →
  id ≠ 0 → is_int64 id = true →
  price r = VFloat p → py_float (str_float p) = Ok p →
  let s' := fire_all s [ClickEdit id; ClickUpdate] in
  db (self s') = db (self s) ∧
  mode s' = (None, true, false, false) ∧
  fields s' = (Some "", Some "", Some "", Some "")%string ∧
  (drawable (read_products (db (self s))) →
   data_table (self s') = read_products (db (self s)) ∧
   shown s' = ProductUpdated :: EditingProduct (name r) :: shown s).
Proof.
  intros Hr (Hn & Hsn & Hc & Hsc & (p' & Hp' & Hpos) & (q & Hq & Hq0 & Hq1))
    H0 Hid Hp Hround.
  assert (p' = p) as -> by congruence.
  assert (is_int64 q = true) as Hq64.
  { unfold is_int64, INT64_MIN. apply andb_true_iff.
    split; apply Z.leb_le; lia. }
  pose proof (int64_digits q Hq64) as Hq10.
  simpl. unfold edit_product. simpl.
  destruct (find_product_present _ _ _ Hr) as [i ->]. simpl.
  match goal with |- context [click_update ?s0] => set (s1 := s0) end.
  assert (fields_valid (self s1) (name r) (category r) p q) as Hf.
  { unfold fields_valid. simpl. rewrite Hp, Hq. simpl.
    rewrite Hsn, Hsc, Hround, py_int_str_int by done.
    repeat split; try done.
    - apply orb_false_iff. split; by apply String.eqb_neq.
    - apply orb_false_iff. split; by apply String.eqb_neq.
    - by apply positive_not_le_zero. }
  unfold click_update. rewrite (validate_valid s1 _ _ _ _ Hf).
  destruct Hf as (_ & _ & _ & _ & Hfp & _ & Hfq & _).
  simpl. rewrite (proj2 (Z.eqb_neq _ _) H0).
  simpl in Hfp, Hfq. rewrite Hfp, Hfq. rewrite Hsn, Hsc.
  rewrite (update_product_numbers _ id r); try done.
  - rewrite stored_real_positive by done.
    assert (mk_row (name r) (category r) (VFloat p) (VInt q)
              (created_date r) = r) as ->
      by (destruct r; simpl in *; congruence).
    rewrite insert_id by done.
    assert ({| products := products (db (self s));
               sqlite_sequence := sqlite_sequence (db (self s)) |}
            = db (self s)) as Hdb by (by destruct (db (self s))).
    simpl. split; [|split; [|split]].
    + match goal with |- context [reload ?s] =>
        pose proof (reload_keeps s) as Hk;
        destruct (reload s) as [s2 [e|]] end; simpl in *;
        intuition congruence.
    + match goal with |- context [reload ?s] =>
        pose proof (reload_keeps s) as Hk;
        destruct (reload s) as [s2 [e|]] end; simpl in *;
        intuition congruence.
    + match goal with |- context [reload ?s] =>
        pose proof (reload_keeps s) as Hk;
        destruct (reload s) as [s2 [e|]] end; simpl in *;
        intuition congruence.
    + intros Hd. rewrite reload_drawable; simpl; rewrite Hdb; done.
  - by apply positive_not_nan.
Qed.

(** X15: the outcome of "Add Product" on a form that passes
    [validate_form]. If [create_product] returns, the new record is in
    the store and the fields are emptied; when the listing could be
    drawn, the table shows the new product first, then the former
    listing, and the success message is shown. If [create_product]
    raises (a quantity above the largest 64-bit integer, a NaN price,
    no id left), the store, the table and the fields, with what was
    typed, are as before, and the error is shown under "Error adding
    product". *)
Theorem add_product_outcome (s : Session) (now : string) n c p q :
  fields_valid (self s) n c p q →
  let d := db (self s) in
  let s' := fire s (ClickAdd now) in
  match create_product d (strip n) (strip c) (VFloat p) (VInt q) now with
  | (Ok id, d') =>
      db (self s') = d' ∧
      fields s' = (Some "", Some "", Some "", Some "")%string ∧
      (drawable (read_products d) →
       data_table (self s')
       = (id, mk_row (strip n) (strip c) (VFloat p) (VInt q) now)
         :: read_products d ∧
       shown s' = Notice ProductAdded :: shown s)
  | (Raise e, _) =>
      db (self s') = d ∧ fields s' = fields s ∧
      data_table (self s') = data_table (self s) ∧
      shown s' = Notice (ErrorAddingProduct e) :: shown s
  end.
Proof.
  intros Hf. simpl. unfold click_add.
  rewrite (validate_valid s n c p q Hf).
  rewrite (fields_valid_truthy _ _ _ _ _ Hf).
  pose proof Hf as (Hn & Hbn & Hc & Hbc & Hp & Hle & Hq & Hq0).
  simpl. rewrite Hn, Hc, Hp, Hq.
  destruct (create_product _ _ _ _ _ _) as [[id|e] d'] eqn:Hrun.
  - pose proof Hrun as (Hnan & Hq64 & Hid & Hlt & Hd')%create_numbers_Ok.
    rewrite (stored_real_positive p) in Hd'
      by (by apply not_le_zero_positive).
    split; [|split].
    + match goal with |- context [reload ?s] =>
        pose proof (reload_keeps s) as Hk;
        destruct (reload s) as [s1 [e|]] end; simpl in *;
        [destruct e|]; simpl; intuition congruence.
    + match goal with |- context [reload ?s] =>
        pose proof (reload_keeps s) as Hk;
        destruct (reload s) as [s1 [e|]] end; simpl in *;
        [destruct e|]; simpl; unfold fields in *; simpl in *;
        intuition congruence.
    + intros Hdraw.
      assert (read_products d'
              = (id, mk_row (strip n) (strip c) (VFloat p) (VInt q) now)
                :: read_products (db (self s))) as Hread.
      { rewrite Hd'. apply read_products_insert_new. lia. }
      rewrite reload_drawable; simpl; rewrite Hread; [done|].
      by constructor.
  - apply create_numbers_Raise in Hrun as [-> He]. simpl.
    by destruct He as [->|[->| ->]].
Qed.

(** X16: deleting is done by the dialog. A click on a row's delete
    button changes neither the store nor the table; it opens a dialog
    for that product. "No" only closes the dialog. "Yes" makes the one
    call [delete_product] for that product, and the dialog is closed
    whatever the call returns or raises. *)
Theorem delete_needs_confirmation (s : Session) (id : Z) :
  let s1 := fire s (ClickDelete id) in
  db (self s1) = db (self s) ∧ data_table (self s1) = data_table (self s) ∧
  dialog s1 = Some (mk_dialog id true) ∧
  fire s1 ClickNo = set_dialog s (Some (mk_dialog id false)) ∧
  db (self (fire s1 ClickYes)) = (delete_product (db (self s)) id).2 ∧
  dialog (fire s1 ClickYes) = Some (mk_dialog id false).
Proof.
  simpl. do 4 (split; [done|]).
  unfold confirm_delete. simpl.
  destruct (delete_product _ _) as [[k|e] d']; [|done].
  destruct (0 <? k); [|done].
  match goal with |- context [reload ?s] =>
    pose proof (reload_keeps s) as Hk;
    destruct (reload s) as [s1 [e|]] end; simpl in *.
  - destruct Hk as (-> & _ & _ & -> & _). done.
  - destruct Hk as (-> & _ & _ & -> & _). done.
Qed.

(** X17: the form stays in edit mode on a product that was deleted while
    it was being edited. For a record as the form writes them (id not
    0, price read back by [float] from its [str]): after "Edit",
    "Delete", "Yes" and "Update Product" the record is gone, "Product
    not found!" is the last message, and the form is still in edit mode
    for the deleted id, its fields still filled with the record. *)
Theorem update_after_delete (s : Session) (id : Z) (r : row) (p : float) :
  products (db (self s)) !! id = Some r → row_valid r →
  id ≠ 0 → is_int64 id = true →
  price r = VFloat p → py_float (str_float p) = Ok p →
  let s' := fire_all s [ClickEdit id; ClickDelete id; ClickYes; ClickUpdate] in
  products (db (self s')) !! id = None ∧
  mode s' = (Some id, false, true, true) ∧
  fields s' = (Some (name r), Some (category r),
               Some (py_str (price r)), Some (py_str (quantity r))) ∧
  head (shown s') = Some ProductNotFound.
Proof.
  intros Hr (Hn & Hsn & Hc & Hsc & (p' & Hp' & Hpos) & (q & Hq & Hq0 & Hq1))
    H0 Hid Hp Hround.
  assert (p' = p) as -> by congruence.
  assert (is_int64 q = true) as Hq64.
  { unfold is_int64, INT64_MIN. apply andb_true_iff.
    split; apply Z.leb_le; lia. }
  pose proof (int64_digits q Hq64) as Hq10.
  simpl. unfold edit_product. simpl.
  destruct (find_product_present _ _ _ Hr) as [i ->]. simpl.
  match goal with |- context [confirm_delete ?s0 id] => set (s1 := s0) end.
  pose proof (confirm_delete_keeps s1 id) as (Hdb & Hmode & Hfields & _).
  set (s2 := confirm_delete s1 id) in *.
  assert (db (self s2)
          = {| products := delete id (products (db (self s)));
               sqlite_sequence := sqlite_sequence (db (self s)) |}) as Hdb2.
  { rewrite Hdb. simpl. by rewrite (delete_product_present _ _ r). }
  injection Hmode as Hm1 Hm2 Hm3 Hm4.
  injection Hfields as Hf1 Hf2 Hf3 Hf4.
  assert (fields_valid (self s2) (name r) (category r) p q) as Hf.
  { unfold fields_valid. rewrite Hf1, Hf2, Hf3, Hf4. simpl.
    rewrite Hp, Hq. simpl.
    rewrite Hsn, Hsc, Hround, py_int_str_int by done.
    repeat split; try done.
    - apply orb_false_iff. split; by apply String.eqb_neq.
    - apply orb_false_iff. split; by apply String.eqb_neq.
    - by apply positive_not_le_zero. }
  assert (products (db (self s2)) !! id = None) as Hnone
    by (rewrite Hdb2; simpl; apply lookup_delete_eq).
  destruct (update_of_deleted_product s2 id (name r) (category r) p q
              Hm1 H0 Hid Hf Hq64 Hnone)
    as (Hdb3 & Hmode3 & Hfields3 & _ & Hshown3).
  simpl in *. rewrite Hdb3, Hmode3, Hfields3, Hshown3.
  split; [done|].
  unfold mode, fields. by rewrite Hm1, Hm2, Hm3, Hm4, Hf1, Hf2, Hf3, Hf4.
Qed.

(** X18: what "Edit" does. For an id the store holds: the form goes to
    edit mode for this id, the fields show the record's name and
    category and the [str] of its price and quantity, the quantity
    shown is read back by [int] as the stored integer (an integer of at
    most 4300 digits, as every 64-bit integer is), and the product's
    name is announced. For an id the store does not hold: nothing
    changes but the call made to read the table. *)
Theorem edit_product_fills_form (s : Session) (id : Z) :
  let s' := fire s (ClickEdit id) in
  match products (db (self s)) !! id with
  | Some r =>
      mode s' = (Some id, false, true, true) ∧
      fields s' = (Some (name r), Some (category r),
                   Some (py_str (price r)), Some (py_str (quantity r))) ∧
      (∀ q, quantity r = VInt q → Z.abs q < 10 ^ MAX_STR_DIGITS →
            int_of_field (quantity_field (self s')) = Ok q) ∧
      shown s' = EditingProduct (name r) :: shown s
  | None => s' = called s ReadProducts
  end.
Proof.
  simpl. unfold edit_product. simpl.
  destruct (products (db (self s)) !! id) as [r|] eqn:Hr.
  - destruct (find_product_present _ _ _ Hr) as [i ->]. simpl.
    repeat split. intros q -> Hq. by apply py_int_str_int.
  - by rewrite find_product_absent.
Qed.

(** X19: which exceptions escape the handlers. While the listing can be
    drawn, no event lets an exception escape but a change of the search
    field whose pattern [%term%] is longer than the limit of LIKE: then
    [OperationalError] escapes [search_products] of the form, which has
    no [try]. *)
Theorem uncaught_only_from_search (s : Session) (ev : event) :
  drawable (read_products (db (self s))) →
  uncaught (fire s ev) = uncaught s ∨
  ∃ t, ev = TypeSearch t ∧
       SQLITE_MAX_LIKE_PATTERN_LENGTH
       < utf8_length (search_pattern (strip t)) ∧
       uncaught (fire s ev) = OperationalError :: uncaught s.
Proof.
  intros Hd.
  destruct (fire_uncaught s ev)
    as [?|(t & e & -> & Hu & [Hs|[(ps & Hs & He)|He]])]; [by left|..].
  - right. exists t. apply search_products_Raise in Hs as [-> Hlen].
    done.
  - apply search_products_sublist in Hs.
    rewrite draw_rows_drawable in He by (by eapply drawable_sublist).
    done.
  - by rewrite draw_rows_drawable in He.
Qed.

(** X20: the table never shows a product the store does not hold. From
    the start of [main] and after any sequence of events, the rows of
    the table are records of the store as they are now, in the order of
    [read_products] (some may be missing: after a search, or when
    drawing was interrupted). *)
Theorem table_shows_stored_records (file : option database)
    (v : option string) (evs : list event) :
  let s := fire_all (main file v) evs in
  sublist (data_table (self s)) (read_products (db (self s))).
Proof.
  simpl.
  assert (∀ s, sublist (data_table (self s)) (read_products (db (self s))) →
               let s' := fire_all s evs in
               sublist (data_table (self s'))
                       (read_products (db (self s')))) as Hall.
  { induction evs as [|ev evs IH]; intros s Hs; [done|].
    simpl. apply IH.
    destruct (fire_table s ev) as [[-> ->]|?]; done. }
  apply Hall, main_table.
Qed.

(** X21: the outcome of "Update Product" in edit mode (id not 0) on a
    form that passes [validate_form]. If [update_product] reports a row:
    the record under the id has the name and category typed without the
    white space at their ends, the price and quantity typed, and its
    creation date; the form is back in create mode with empty fields;
    when the listing could be drawn the table shows the new listing and
    success is announced. If it reports no row: "Product not found!",
    and store, table, mode and fields are as before. If it raises: the
    error is shown under "Error updating product" and store, table,
    mode and fields are as before. *)
Theorem update_handler_outcome (s : Session) (id : Z) n c p q :
  current_edit_id (self s) = Some id → id ≠ 0 →
  fields_valid (self s) n c p q →
  let d := db (self s) in
  let s' := fire s ClickUpdate in
  match update_product d id (strip n) (strip c) (VFloat p) (VInt q) with
  | (Ok rows_affected, d') =>
      db (self s') = d' ∧
      if decide (rows_affected = 0) then
        mode s' = mode s ∧ fields s' = fields s ∧
        data_table (self s') = data_table (self s) ∧
        shown s' = ProductNotFound :: shown s
      else
        mode s' = (None, true, false, false) ∧
        fields s' = (Some "", Some "", Some "", Some "")%string ∧
        ∃ old,
          products d !! id = Some old ∧
          products d' !! id
          = Some (mk_row (strip n) (strip c) (VFloat p) (VInt q)
                    (created_date old)) ∧
          (drawable (read_products d) →
           data_table (self s') = read_products d' ∧
           shown s' = ProductUpdated :: shown s)
  | (Raise e, _) =>
      db (self s') = d ∧ mode s' = mode s ∧ fields s' = fields s ∧
      data_table (self s') = data_table (self s) ∧
      shown s' = ErrorUpdatingProduct e :: shown s
  end.
Proof.
  intros Hid H0 Hf. simpl. unfold click_update.
  rewrite (validate_valid s n c p q Hf).
  pose proof Hf as (Hn & Hbn & Hc & Hbc & Hp & Hle & Hq & Hq0).
  simpl. rewrite Hid, Hn, Hc, Hp, Hq.
  rewrite (proj2 (Z.eqb_neq _ _) H0).
  destruct (update_product_cases (db (self s)) id (strip n) (strip c)
              (VFloat p) (VInt q))
    as [[e He]|[[He _]|(old & bp & bq & Hold & _ & _ & _ & _ & _ & He)]].
  - rewrite He. simpl. unfold mode, fields. simpl.
    by rewrite Hid, Hn, Hc.
  - rewrite He. simpl. unfold mode, fields. simpl.
    by rewrite Hid, Hn, Hc.
  - pose proof He as (old' & Hold' & Hnan & Hq64 & Hid64 & Hd')%update_numbers_Ok.
    assert (old' = old) as -> by congruence.
    rewrite (stored_real_positive p) in Hd'
      by (by apply not_le_zero_positive).
    rewrite Hd' in He. clear Hd'. rewrite He. simpl.
    split; [|split; [|split]].
    + match goal with |- context [reload ?s] =>
        pose proof (reload_keeps s) as Hk;
        destruct (reload s) as [s1 [e|]] end; simpl in *;
        intuition congruence.
    + match goal with |- context [reload ?s] =>
        pose proof (reload_keeps s) as Hk;
        destruct (reload s) as [s1 [e|]] end; simpl in *;
        intuition congruence.
    + match goal with |- context [reload ?s] =>
        pose proof (reload_keeps s) as Hk;
        destruct (reload s) as [s1 [e|]] end; simpl in *;
        unfold fields in *; simpl in *; intuition congruence.
    + exists old. split; [done|]. split; [apply lookup_insert_eq|].
      intros Hdraw.
      rewrite reload_drawable; [done|]. simpl.
      rewrite (read_products_insert_old (db (self s)) id old) by done.
      unfold drawable in *. apply Forall_fmap.
      eapply Forall_impl; [apply Hdraw|].
      intros [k r] Hr. simpl in *. by case_decide.
Qed.

(** X22: a quantity made of digits, which is what the input filter of
    the field lets the user type. It is never refused as negative.
    [int] reads it as the number the digits spell when it has from 1 to
    4300 digits, and raises [ValueError] when it is empty or longer: a
    text of 1 to 4300 digits is not refused as an invalid quantity, an
    empty one or one of more than 4300 digits makes [validate_form]
    return [False]. *)
Theorem digits_quantity_passes (a : ProductManagerApp) (qs : string) :
  quantity_field a = Some qs →
  Forall (λ c, is_digit c = true) (list_ascii_of_string qs) →
  let a' := (validate_form a).2 in
  let n := Z.of_nat (String.length qs) in
  snack_bars a' ≠ QuantityCannotBeNegative :: snack_bars a ∧
  int_of_field (quantity_field a) =
    (if (n =? 0) || (MAX_STR_DIGITS <? n) then Raise ValueError
     else Ok (digits_val (list_ascii_of_string qs))) ∧
  (0 < n <= MAX_STR_DIGITS →
   0 <= digits_val (list_ascii_of_string qs) ∧
   snack_bars a' ≠ PleaseEnterValidQuantity :: snack_bars a) ∧
  (n = 0 ∨ MAX_STR_DIGITS < n → (validate_form a).1 = false).
Proof.
  intros Hq Hds. cbv zeta.
  pose proof (digits_val_nonneg _ Hds) as H0.
  assert (int_of_field (quantity_field a) =
          (if (Z.of_nat (String.length qs) =? 0)
              || (MAX_STR_DIGITS <? Z.of_nat (String.length qs))
           then Raise ValueError
           else Ok (digits_val (list_ascii_of_string qs)))) as Hint.
  { rewrite Hq. simpl. destruct qs as [|c qs']; [done|].
    rewrite py_int_of_digits by done.
    by destruct (_ <? _). }
  assert (∀ n, n ≠ QuantityCannotBeNegative →
               n :: snack_bars a ≠ QuantityCannotBeNegative :: snack_bars a)
    as Hother by (intros n Hn [= ?]; done).
  assert (∀ n, n ≠ PleaseEnterValidQuantity →
               n :: snack_bars a ≠ PleaseEnterValidQuantity :: snack_bars a)
    as Hother' by (intros n Hn [= ?]; done).
  split; [|split; [done|split]].
  - unfold validate_form, reject.
    destruct (blank (name_field a)); [by apply Hother|].
    destruct (blank (category_field a)); [by apply Hother|].
    destruct (float_of_field (price_field a)) as [p|e]; [|by apply Hother].
    destruct (PrimFloat.leb p 0); [by apply Hother|].
    rewrite Hint. destruct (_ || _); [by apply Hother|].
    rewrite (proj2 (Z.ltb_ge _ _) H0). apply cons_neq.
  - intros [Hn1 Hn2]. split; [done|].
    unfold validate_form, reject. rewrite Hint.
    rewrite (proj2 (Z.eqb_neq _ _)), (proj2 (Z.ltb_ge _ _)) by lia.
    destruct (blank (name_field a)); [by apply Hother'|].
    destruct (blank (category_field a)); [by apply Hother'|].
    destruct (float_of_field (price_field a)) as [p|e]; [|by apply Hother'].
    destruct (PrimFloat.leb p 0); [by apply Hother'|].
    simpl. rewrite (proj2 (Z.ltb_ge _ _) H0). apply cons_neq.
  - intros Hn. apply validate_form_refuses.
    do 4 right. left. exists ValueError. rewrite Hint.
    destruct Hn as [->|Hn]; [done|].
    rewrite (proj2 (Z.ltb_lt _ _) Hn). by rewrite orb_true_r.
Qed.

End Store.

(** * The contract at given inputs *)

(** ** Creation then listing *)

(** C1, as stated, fails: the inputs ["Widget"], ["Hardware"], 9.99 and
    the quantity 2^63 are valid, yet [create_product] on the empty store
    stops with [OverflowError] and the listing gains no record. *)
Lemma create_then_list_overflow :
  valid_input "Widget" "Hardware" 9.99 (2 ^ 63) ∧
  create_product empty_database "Widget" "Hardware" (VFloat 9.99)
    (VInt (2 ^ 63)) "2024-05-01 10:00:00"
  = (Raise OverflowError, empty_database) ∧
  ¬ create_lists_new empty_database "Widget" "Hardware" (VFloat 9.99)
      (VInt (2 ^ 63)) "2024-05-01 10:00:00".
Proof.
  assert (create_product empty_database "Widget" "Hardware" (VFloat 9.99)
            (VInt (2 ^ 63)) "2024-05-01 10:00:00"
          = (Raise OverflowError, empty_database)) as Hrun
    by (vm_compute; reflexivity).
  split; [|split; [exact Hrun|]].
  - repeat split; [done|done|]. lia.
  - unfold create_lists_new. rewrite Hrun. intros (id & Hid & _). done.
Qed.

Lemma create_then_list_witness :
  valid_input "Widget" "Hardware" 9.99 10 ∧ 10 <= INT64_MAX ∧
  largest_rowid empty_database < INT64_MAX ∧
  create_lists_new empty_database "Widget" "Hardware" (VFloat 9.99)
    (VInt 10) "2024-05-01 10:00:00".
Proof.
  assert (valid_input "Widget" "Hardware" 9.99 10) as Hv
    by (repeat split; [done|done|lia]).
  assert (10 <= INT64_MAX) as Hq by (vm_compute; discriminate).
  assert (largest_rowid empty_database < INT64_MAX) as Hid
    by (vm_compute; reflexivity).
  split; [exact Hv|]. split; [exact Hq|]. split; [exact Hid|].
  exact (create_then_list empty_database "Widget" "Hardware" 9.99 10
           "2024-05-01 10:00:00" Hv Hq Hid).
Defined.

(** The scenario of the contract: create("Widget", "Hardware", 9.99, 10)
    on a new store returns the id 1, and the first listed record is that
    product. *)
Example create_widget_scenario :
  create_product empty_database "Widget" "Hardware" (VFloat 9.99) (VInt 10)
    "2024-05-01 10:00:00" = (Ok 1, widget_database) ∧
  read_products widget_database !! 0%nat = Some (1, widget_row).
Proof. split; vm_compute; reflexivity. Qed.

(** ** Search *)

(** C3, as stated, fails: on the store that holds one product named
    "abc" of category "x", the search for "a_c" returns that record,
    though "a_c" occurs neither in "abc" nor in "x": the underscore is a
    wildcard of LIKE. *)
Lemma search_underscore_wildcard :
  let db := (create_product empty_database "abc" "x" (VFloat 1) (VInt 1)
               "2024-05-01 10:00:00").2 in
  search_products db "a_c" = Ok (read_products db) ∧
  read_products db =
    [(1, mk_row "abc" "x" (VFloat 1) (VInt 1) "2024-05-01 10:00:00")] ∧
  ¬ is_substring_nocase "a_c" "abc" ∧ ¬ is_substring_nocase "a_c" "x" ∧
  ¬ search_selects_substrings db "a_c".
Proof.
  intros db.
  assert (search_products db "a_c" = Ok (read_products db)) as Hs
    by (vm_compute; reflexivity).
  assert (read_products db =
    [(1, mk_row "abc" "x" (VFloat 1) (VInt 1) "2024-05-01 10:00:00")]) as Hl
    by (vm_compute; reflexivity).
  assert (¬ is_substring_nocase "a_c" "abc") as Hn
    by (rewrite <- contains_nocase_spec; vm_compute; discriminate).
  assert (¬ is_substring_nocase "a_c" "x") as Hc
    by (rewrite <- contains_nocase_spec; vm_compute; discriminate).
  split; [exact Hs|]. split; [exact Hl|]. split; [exact Hn|].
  split; [exact Hc|].
  intros (l & Hl' & _ & Hin). rewrite Hs in Hl'. injection Hl' as <-.
  rewrite Hl in Hin.
  destruct (proj1 (Hin _) (list_elem_of_here _ _)) as [_ [Hm|Hm]];
    simpl in Hm; auto.
Qed.

Lemma search_then_substrings_witness :
  wildcard_free "wid" = true ∧
  utf8_length (search_pattern "wid") <= SQLITE_MAX_LIKE_PATTERN_LENGTH ∧
  search_selects_substrings widget_database "wid".
Proof.
  assert (utf8_length (search_pattern "wid")
          <= SQLITE_MAX_LIKE_PATTERN_LENGTH) as Hlen
    by (vm_compute; discriminate).
  split; [reflexivity|]. split; [exact Hlen|].
  exact (search_then_substrings widget_database "wid" eq_refl Hlen).
Defined.

(** The search is blind to the case of ASCII letters: "WID" finds
    "Widget". *)
Example search_widget_nocase :
  search_products widget_database "WID" = Ok [(1, widget_row)].
Proof. vm_compute. reflexivity. Qed.

(** ** Update then listing *)

(** C5, as stated, fails: on the store that holds "Widget" under id 1,
    [update_product] with the quantity 2^63 stops with [OverflowError]
    and the record keeps its fields. *)
Lemma update_then_list_overflow :
  products widget_database !! 1 = Some widget_row ∧
  update_product widget_database 1 "Widget" "Hardware" (VFloat 12.5)
    (VInt (2 ^ 63))
  = (Raise OverflowError, widget_database) ∧
  ¬ update_shows widget_database 1 widget_row "Widget" "Hardware"
      (VFloat 12.5) (VInt (2 ^ 63)) (VFloat 12.5) (VInt (2 ^ 63)).
Proof.
  assert (update_product widget_database 1 "Widget" "Hardware" (VFloat 12.5)
            (VInt (2 ^ 63)) = (Raise OverflowError, widget_database)) as Hrun
    by (vm_compute; reflexivity).
  split; [by vm_compute|]. split; [exact Hrun|].
  unfold update_shows. rewrite Hrun. intros [? _]. done.
Qed.

Lemma update_then_list_witness :
  products widget_database !! 1 = Some widget_row ∧ is_int64 1 = true ∧
  PrimFloat.is_nan 12.5 = false ∧ is_int64 5 = true ∧
  update_shows widget_database 1 widget_row "Widget" "Hardware"
    (VFloat 12.5) (VInt 5) (VFloat (stored_real 12.5)) (VInt 5).
Proof.
  assert (products widget_database !! 1 = Some widget_row) as Hold
    by (vm_compute; reflexivity).
  split; [exact Hold|]. split; [reflexivity|].
  split; [reflexivity|]. split; [reflexivity|].
  exact (update_then_list widget_database 1 widget_row "Widget" "Hardware"
           12.5 5 Hold eq_refl eq_refl eq_refl).
Defined.

(** The scenario of the contract: create, then update(id, "Widget",
    "Hardware", 12.50, 5): the first listed record has price 12.5 and
    quantity 5. *)
Example update_widget_scenario :
  read_products
    (update_product widget_database 1 "Widget" "Hardware" (VFloat 12.5)
       (VInt 5)).2 !! 0%nat
  = Some (1, mk_row "Widget" "Hardware" (VFloat 12.5) (VInt 5)
               "2024-05-01 10:00:00").
Proof. vm_compute. reflexivity. Qed.

(** ** Deletion then listing *)

(** An integer beyond 64 bits is no id of the table: [delete_product]
    cannot bind it and stops with [OverflowError]. *)
Example delete_beyond_int64 :
  delete_product empty_database (2 ^ 63)
  = (Raise OverflowError, empty_database).
Proof. by vm_compute. Qed.

Lemma delete_then_list_witness :
  is_int64 1 = true ∧ is_Some (products widget_database !! 1) ∧
  products widget_database !! 2 = None ∧
  delete_removes widget_database 1 ∧ delete_not_found widget_database 2.
Proof.
  assert (is_Some (products widget_database !! 1)) as H1
    by (vm_compute; eauto).
  assert (products widget_database !! 2 = None) as H2
    by (vm_compute; reflexivity).
  split; [reflexivity|]. split; [exact H1|]. split; [exact H2|].
  split.
  - exact (proj1 (delete_then_list widget_database 1 eq_refl) H1).
  - exact (proj2 (delete_then_list widget_database 2 eq_refl) H2).
Defined.

(** ** What the store itself checks *)

(** C7, as stated, fails: the price ["abc"] cannot be parsed as a number,
    yet [create_product] on the empty store does not fail: it returns the
    id 1 and the table holds a record whose price is the text ["abc"]. *)
Lemma create_unparseable_price_accepted :
  parseable_as_float (VStr "abc") = false ∧
  create_product empty_database "Widget" "Hardware" (VStr "abc") (VInt 10)
    "2024-05-01 10:00:00"
  = (Ok 1,
     {| products :=
          {[ 1 := mk_row "Widget" "Hardware" (VStr "abc") (VInt 10)
                    "2024-05-01 10:00:00" ]};
        sqlite_sequence := 1 |}) ∧
  ¬ create_rejects empty_database "Widget" "Hardware" (VStr "abc") (VInt 10)
      "2024-05-01 10:00:00".
Proof.
  assert (create_product empty_database "Widget" "Hardware" (VStr "abc")
            (VInt 10) "2024-05-01 10:00:00"
          = (Ok 1,
             {| products :=
                  {[ 1 := mk_row "Widget" "Hardware" (VStr "abc") (VInt 10)
                            "2024-05-01 10:00:00" ]};
                sqlite_sequence := 1 |})) as Hrun
    by (vm_compute; reflexivity).
  split; [by vm_compute|]. split; [exact Hrun|].
  unfold create_rejects. rewrite Hrun. intros [e He]. done.
Qed.

Lemma create_text_accepted_witness :
  largest_rowid empty_database < INT64_MAX ∧
  create_stores_text empty_database "Widget" "Hardware" "abc" "xyz"
    "2024-05-01 10:00:00".
Proof.
  assert (largest_rowid empty_database < INT64_MAX) as Hid
    by (vm_compute; reflexivity).
  split; [exact Hid|].
  exact (create_text_accepted empty_database "Widget" "Hardware" "abc" "xyz"
           "2024-05-01 10:00:00" Hid).
Defined.

(** A text that is not a numeric literal is stored as it is; one that is
    becomes a number. *)
Example affinity_of_texts :
  affinity_real (VStr "abc") = VStr "abc" ∧
  affinity_integer (VStr "xyz") = VStr "xyz" ∧
  affinity_real (VStr " 12 ") = VFloat 12 ∧
  affinity_integer (VStr "1e3") = VInt 1000.
Proof. by vm_compute. Qed.

(** ** Validation by the form *)

Lemma invalid_submission_aborted_witness :
  price_no_nan (widget_form "0") ∧ invalid_submission (widget_form "0") ∧
  aborted_as_validation_error (widget_form "0")
    (add_product (widget_form "0") "2024-05-01 10:00:00").
Proof.
  assert (float_of_field (price_field (widget_form "0")) = Ok 0%float)
    as Hp by (vm_compute; reflexivity).
  assert (price_no_nan (widget_form "0")) as Hnan.
  { intros p. rewrite Hp. by intros [= <-]. }
  assert (invalid_submission (widget_form "0")) as Hbad.
  { right; right; left. intros p. rewrite Hp. by intros [= <-]. }
  split; [exact Hnan|]. split; [exact Hbad|].
  exact (invalid_submission_aborted (widget_form "0") "2024-05-01 10:00:00"
           Hnan Hbad).
Defined.

(** The text ["nan"] is not one the price field can hold. Put there all
    the same, it parses to a NaN, for which [price <= 0] is false:
    [validate_form] returns [True], [add_product] calls
    [create_product], and the store stops the insertion with
    [IntegrityError]. No row is inserted. *)
Example add_product_nan_price :
  let app := widget_form "nan" in
  let app' := add_product app "2024-05-01 10:00:00" in
  float_of_field (price_field app) = Ok PrimFloat.nan ∧
  (validate_form app).1 = true ∧
  store_calls app' =
    [CallCreateProduct "Widget" "Hardware" (VFloat PrimFloat.nan) (VInt 10)] ∧
  snack_bars app' = [ErrorAddingProduct IntegrityError] ∧
  db app' = db app.
Proof. by vm_compute. Qed.

(** The scenario of the contract: with the price ["-5"] the form stops
    at validation; nothing is called on the store. *)
Example add_product_negative_price :
  let app := widget_form "-5" in
  let app' := add_product app "2024-05-01 10:00:00" in
  snack_bars app' = [PriceMustBeGreaterThanZero] ∧
  store_calls app' = [] ∧ db app' = empty_database.
Proof. by vm_compute. Qed.

(** With valid fields the product is added and the table reloaded. *)
Example add_product_widget :
  let app' := add_product (widget_form "9.99") "2024-05-01 10:00:00" in
  snack_bars app' = [ProductAdded] ∧
  store_calls app' =
    [CallReadProducts;
     CallCreateProduct "Widget" "Hardware" (VFloat 9.99) (VInt 10)] ∧
  data_table app' = [(1, widget_row)].
Proof. by vm_compute. Qed.

(** ** One statement per call *)

(** C9, as stated, fails: the empty store holds no id 1, yet
    [update_product] for that id with the quantity 2^63 does not return
    0: it stops with [OverflowError]. *)
Lemma update_not_found_overflow :
  products empty_database !! 1 = None ∧
  update_product empty_database 1 "Widget" "Hardware" (VFloat 12.5)
    (VInt (2 ^ 63))
  = (Raise OverflowError, empty_database) ∧
  ¬ not_found_returns_zero empty_database 1 "Widget" "Hardware"
      (VFloat 12.5) (VInt (2 ^ 63)).
Proof.
  assert (update_product empty_database 1 "Widget" "Hardware" (VFloat 12.5)
            (VInt (2 ^ 63)) = (Raise OverflowError, empty_database)) as Hrun
    by (vm_compute; reflexivity).
  split; [done|]. split; [exact Hrun|].
  unfold not_found_returns_zero. rewrite Hrun. intros [? _]. done.
Qed.

(** ** Ids *)

(** Three products, the last one deleted: the next id is 4, not 3. *)
Example deleted_id_not_reused :
  (run empty_database
     [CreateProduct "a" "x" (VFloat 1) (VInt 1) "2024-05-01 10:00:00";
      CreateProduct "b" "x" (VFloat 1) (VInt 1) "2024-05-01 10:00:01";
      CreateProduct "c" "x" (VFloat 1) (VInt 1) "2024-05-01 10:00:02";
      DeleteProduct 3;
      CreateProduct "d" "x" (VFloat 1) (VInt 1) "2024-05-01 10:00:03"]).1
  = [1; 2; 3; 4].
Proof. by vm_compute. Qed.

(** * Further properties at given inputs *)

Lemma widget_row_valid : row_valid widget_row.
Proof.
  repeat split; try done.
  - by exists 9.99%float.
  - exists 10. repeat split; [lia|by vm_compute].
Qed.

Lemma widget_database_valid : table_valid widget_database.
Proof.
  intros id r Hr. unfold widget_database in Hr. simpl in Hr.
  apply lookup_singleton_Some in Hr as [<- <-]. apply widget_row_valid.
Qed.

Lemma widget_session_drawable :
  drawable (read_products (db (self widget_session))).
Proof. vm_compute. repeat constructor. Qed.

Lemma draft_session_valid :
  fields_valid (self draft_session) " Gadget " "Tools" 5 3.
Proof. repeat split; vm_compute; congruence. Qed.

Lemma editing_session_valid :
  fields_valid (self editing_session) "Widget" "Hardware" 12.5 10.
Proof. repeat split; vm_compute; congruence. Qed.

Lemma create_then_delete_witness :
  create_product empty_database "Widget" "Hardware" (VFloat 9.99) (VInt 10)
    "2024-05-01 10:00:00" = (Ok 1, widget_database) ∧
  delete_product widget_database 1 =
    (Ok 1, {| products := products empty_database; sqlite_sequence := 1 |}) ∧
  read_products (delete_product widget_database 1).2
  = read_products empty_database ∧
  largest_rowid (delete_product widget_database 1).2 = 1.
Proof.
  assert (create_product empty_database "Widget" "Hardware" (VFloat 9.99)
            (VInt 10) "2024-05-01 10:00:00" = (Ok 1, widget_database))
    as Hrun by (vm_compute; reflexivity).
  split; [exact Hrun|].
  exact (create_then_delete empty_database "Widget" "Hardware" (VFloat 9.99)
           (VInt 10) "2024-05-01 10:00:00" 1 widget_database Hrun).
Defined.

Lemma search_products_nocase_witness :
  same_nocase "WID" "wid" ∧
  search_products widget_database "WID" = search_products widget_database "wid".
Proof.
  assert (same_nocase "WID" "wid") as Hs by reflexivity.
  split; [exact Hs|].
  exact (search_products_nocase widget_database "WID" "wid" Hs).
Defined.

Lemma ids_exhausted_witness :
  INT64_MAX <= sqlite_sequence full_database ∧
  (run full_database
     [CreateProduct "Widget" "Hardware" (VFloat 9.99) (VInt 10)
        "2024-05-01 10:00:00"]).1 = [] ∧
  sqlite_sequence
    (run full_database
       [CreateProduct "Widget" "Hardware" (VFloat 9.99) (VInt 10)
          "2024-05-01 10:00:00"]).2
  = sqlite_sequence full_database.
Proof.
  assert (INT64_MAX <= sqlite_sequence full_database) as Hfull
    by (simpl; lia).
  split; [exact Hfull|].
  exact (ids_exhausted full_database
           [CreateProduct "Widget" "Hardware" (VFloat 9.99) (VInt 10)
              "2024-05-01 10:00:00"] Hfull).
Defined.

Lemma storage_classes_kept_witness :
  table_classes_ok widget_database ∧
  table_classes_ok
    (run widget_database
       [UpdateProduct 1 "Widget" "Hardware" (VInt 3) (VStr "4")]).2.
Proof.
  assert (table_classes_ok widget_database) as Hok.
  { intros id r Hr. unfold widget_database in Hr. simpl in Hr.
    apply lookup_singleton_Some in Hr as [<- <-]. by split. }
  split; [exact Hok|].
  exact (storage_classes_kept widget_database
           [UpdateProduct 1 "Widget" "Hardware" (VInt 3) (VStr "4")] Hok).
Defined.

Lemma form_keeps_rows_valid_witness :
  table_valid (db (self draft_session)) ∧
  table_valid
    (db (self (fire_all draft_session [ClickAdd "2024-05-02 09:00:00"]))).
Proof.
  assert (table_valid (db (self draft_session))) as Hok
    by exact widget_database_valid.
  split; [exact Hok|].
  exact (form_keeps_rows_valid draft_session
           [ClickAdd "2024-05-02 09:00:00"] Hok).
Defined.

Lemma record_fate_witness :
  products (db (self (fire widget_session (ClickDelete 1)))) !! 1
  = Some widget_row ∧
  let s := fire widget_session (ClickDelete 1) in
  let d' := db (self (fire s ClickYes)) in
  products d' !! 1 = Some widget_row ∨
  (ClickYes = ClickYes ∧ dialog s = Some (mk_dialog 1 true) ∧
   products d' !! 1 = None) ∨
  (ClickYes = ClickUpdate ∧ current_edit_id (self s) = Some 1 ∧
   ∃ r', products d' !! 1 = Some r' ∧
         created_date r' = created_date widget_row).
Proof.
  assert (products (db (self (fire widget_session (ClickDelete 1)))) !! 1
          = Some widget_row) as Hr by (by vm_compute).
  split; [exact Hr|].
  exact (record_fate (fire widget_session (ClickDelete 1)) ClickYes 1
           widget_row Hr).
Defined.

Lemma search_shows_matches_witness :
  drawable (read_products (db (self widget_session))) ∧
  utf8_length (search_pattern (strip " wid "))
  <= SQLITE_MAX_LIKE_PATTERN_LENGTH ∧
  let d := db (self widget_session) in
  let s' := fire widget_session (TypeSearch " wid ") in
  sublist (data_table (self s')) (read_products d) ∧
  (∀ p, p ∈ data_table (self s') ↔
        p ∈ read_products d ∧ matches_pattern (strip " wid ") p) ∧
  db (self s') = d ∧ uncaught s' = uncaught widget_session ∧
  shown s' =
    if decide (strip " wid " = EmptyString) then shown widget_session
    else FoundProducts (length (data_table (self s')))
         :: shown widget_session.
Proof.
  assert (utf8_length (search_pattern (strip " wid "))
          <= SQLITE_MAX_LIKE_PATTERN_LENGTH) as Hlen
    by (vm_compute; discriminate).
  split; [exact widget_session_drawable|]. split; [exact Hlen|].
  exact (search_shows_matches widget_session " wid "
           widget_session_drawable Hlen).
Defined.

Lemma edit_then_update_keeps_record_witness :
  products (db (self widget_session)) !! 1 = Some widget_row ∧
  row_valid widget_row ∧ 1 ≠ 0 ∧ is_int64 1 = true ∧
  price widget_row = VFloat 9.99 ∧ py_float (str_float 9.99) = Ok 9.99%float ∧
  let s' := fire_all widget_session [ClickEdit 1; ClickUpdate] in
  db (self s') = db (self widget_session) ∧
  mode s' = (None, true, false, false) ∧
  fields s' = (Some "", Some "", Some "", Some "")%string ∧
  (drawable (read_products (db (self widget_session))) →
   data_table (self s') = read_products (db (self widget_session)) ∧
   shown s'
   = ProductUpdated :: EditingProduct (name widget_row)
     :: shown widget_session).
Proof.
  assert (products (db (self widget_session)) !! 1 = Some widget_row) as Hr
    by (by vm_compute).
  assert (1 ≠ 0) as H0 by lia.
  assert (is_int64 1 = true) as Hid by reflexivity.
  assert (price widget_row = VFloat 9.99) as Hp by reflexivity.
  assert (py_float (str_float 9.99) = Ok 9.99%float) as Hround
    by (vm_compute; reflexivity).
  split; [exact Hr|]. split; [exact widget_row_valid|]. split; [exact H0|].
  split; [exact Hid|]. split; [exact Hp|]. split; [exact Hround|].
  exact (edit_then_update_keeps_record widget_session 1 widget_row 9.99
           Hr widget_row_valid H0 Hid Hp Hround).
Defined.

Lemma add_product_outcome_witness :
  fields_valid (self draft_session) " Gadget " "Tools" 5 3 ∧
  let d := db (self draft_session) in
  let s' := fire draft_session (ClickAdd "2024-05-02 09:00:00") in
  match create_product d (strip " Gadget ") (strip "Tools") (VFloat 5)
          (VInt 3) "2024-05-02 09:00:00" with
  | (Ok id, d') =>
      db (self s') = d' ∧
      fields s' = (Some "", Some "", Some "", Some "")%string ∧
      (drawable (read_products d) →
       data_table (self s')
       = (id, mk_row (strip " Gadget ") (strip "Tools") (VFloat 5) (VInt 3)
                "2024-05-02 09:00:00")
         :: read_products d ∧
       shown s' = Notice ProductAdded :: shown draft_session)
  | (Raise e, _) =>
      db (self s') = d ∧ fields s' = fields draft_session ∧
      data_table (self s') = data_table (self draft_session) ∧
      shown s' = Notice (ErrorAddingProduct e) :: shown draft_session
  end.
Proof.
  split; [exact draft_session_valid|].
  exact (add_product_outcome draft_session "2024-05-02 09:00:00"
           " Gadget " "Tools" 5 3 draft_session_valid).
Defined.

Lemma update_after_delete_witness :
  products (db (self widget_session)) !! 1 = Some widget_row ∧
  row_valid widget_row ∧ 1 ≠ 0 ∧ is_int64 1 = true ∧
  price widget_row = VFloat 9.99 ∧ py_float (str_float 9.99) = Ok 9.99%float ∧
  let s' :=
    fire_all widget_session
      [ClickEdit 1; ClickDelete 1; ClickYes; ClickUpdate] in
  products (db (self s')) !! 1 = None ∧
  mode s' = (Some 1, false, true, true) ∧
  fields s' = (Some (name widget_row), Some (category widget_row),
               Some (py_str (price widget_row)),
               Some (py_str (quantity widget_row))) ∧
  head (shown s') = Some ProductNotFound.
Proof.
  assert (products (db (self widget_session)) !! 1 = Some widget_row) as Hr
    by (by vm_compute).
  assert (1 ≠ 0) as H0 by lia.
  assert (is_int64 1 = true) as Hid by reflexivity.
  assert (price widget_row = VFloat 9.99) as Hp by reflexivity.
  assert (py_float (str_float 9.99) = Ok 9.99%float) as Hround
    by (vm_compute; reflexivity).
  split; [exact Hr|]. split; [exact widget_row_valid|]. split; [exact H0|].
  split; [exact Hid|]. split; [exact Hp|]. split; [exact Hround|].
  exact (update_after_delete widget_session 1 widget_row 9.99
           Hr widget_row_valid H0 Hid Hp Hround).
Defined.

Lemma uncaught_only_from_search_witness :
  drawable (read_products (db (self widget_session))) ∧
  (uncaught (fire widget_session (TypeSearch "wid"))
   = uncaught widget_session ∨
   ∃ t, TypeSearch "wid" = TypeSearch t ∧
        SQLITE_MAX_LIKE_PATTERN_LENGTH
        < utf8_length (search_pattern (strip t)) ∧
        uncaught (fire widget_session (TypeSearch "wid"))
        = OperationalError :: uncaught widget_session).
Proof.
  split; [exact widget_session_drawable|].
  exact (uncaught_only_from_search widget_session (TypeSearch "wid")
           widget_session_drawable).
Defined.

Lemma update_handler_outcome_witness :
  current_edit_id (self editing_session) = Some 1 ∧ 1 ≠ 0 ∧
  fields_valid (self editing_session) "Widget" "Hardware" 12.5 10 ∧
  let d := db (self editing_session) in
  let s' := fire editing_session ClickUpdate in
  match update_product d 1 (strip "Widget") (strip "Hardware")
          (VFloat 12.5) (VInt 10) with
  | (Ok rows_affected, d') =>
      db (self s') = d' ∧
      if decide (rows_affected = 0) then
        mode s' = mode editing_session ∧
        fields s' = fields editing_session ∧
        data_table (self s') = data_table (self editing_session) ∧
        shown s' = ProductNotFound :: shown editing_session
      else
        mode s' = (None, true, false, false) ∧
        fields s' = (Some "", Some "", Some "", Some "")%string ∧
        ∃ old,
          products d !! 1 = Some old ∧
          products d' !! 1
          = Some (mk_row (strip "Widget") (strip "Hardware") (VFloat 12.5)
                    (VInt 10) (created_date old)) ∧
          (drawable (read_products d) →
           data_table (self s') = read_products d' ∧
           shown s' = ProductUpdated :: shown editing_session)
  | (Raise e, _) =>
      db (self s') = d ∧ mode s' = mode editing_session ∧
      fields s' = fields editing_session ∧
      data_table (self s') = data_table (self editing_session) ∧
      shown s' = ErrorUpdatingProduct e :: shown editing_session
  end.
Proof.
  assert (current_edit_id (self editing_session) = Some 1) as Hid
    by (by vm_compute).
  assert (1 ≠ 0) as H0 by lia.
  split; [exact Hid|]. split; [exact H0|].
  split; [exact editing_session_valid|].
  exact (update_handler_outcome editing_session 1 "Widget" "Hardware" 12.5
           10 Hid H0 editing_session_valid).
Defined.

Lemma digits_quantity_passes_witness :
  quantity_field (widget_form "9.99") = Some "10"%string ∧
  Forall (λ c, is_digit c = true) (list_ascii_of_string "10") ∧
  let a := widget_form "9.99" in
  let a' := (validate_form a).2 in
  let n := Z.of_nat (String.length "10") in
  snack_bars a' ≠ QuantityCannotBeNegative :: snack_bars a ∧
  int_of_field (quantity_field a) =
    (if (n =? 0) || (MAX_STR_DIGITS <? n) then Raise ValueError
     else Ok (digits_val (list_ascii_of_string "10"))) ∧
  (0 < n <= MAX_STR_DIGITS →
   0 <= digits_val (list_ascii_of_string "10") ∧
   snack_bars a' ≠ PleaseEnterValidQuantity :: snack_bars a) ∧
  (n = 0 ∨ MAX_STR_DIGITS < n → (validate_form a).1 = false).
Proof.
  assert (quantity_field (widget_form "9.99") = Some "10"%string) as Hq
    by reflexivity.
  assert (Forall (λ c, is_digit c = true) (list_ascii_of_string "10"))
    as Hds by (repeat constructor).
  split; [exact Hq|]. split; [exact Hds|].
  exact (digits_quantity_passes (widget_form "9.99") "10" Hq Hds).
Defined.

(** A quantity of 4301 digits is refused by [validate_form]: [int] does
    not convert it. *)
Example long_quantity_refused :
  let qs := string_of_list_ascii (repeat "1"%char 4301) in
  let a := mk_app empty_database None (Some "Widget") (Some "Hardware")
             (Some "5") (Some qs) [] [] None [] in
  py_int qs = Raise ValueError ∧
  py_int (string_of_list_ascii (repeat "1"%char 4300))
  = Ok (digits_val (repeat "1"%char 4300)) ∧
  snack_bars (add_product a "2024-05-01 10:00:00")
  = [PleaseEnterValidQuantity] ∧
  store_calls (add_product a "2024-05-01 10:00:00") = [].
Proof. by vm_compute. Qed.

(** The scenarios above, computed. *)

(** Adding " Gadget " stores "Gadget" under the id 2 and shows it
    first. *)
Example add_gadget_scenario :
  let s' := fire draft_session (ClickAdd "2024-05-02 09:00:00") in
  data_table (self s')
  = [(2, mk_row "Gadget" "Tools" (VFloat 5) (VInt 3) "2024-05-02 09:00:00");
     (1, widget_row)] ∧
  shown s' = [Notice ProductAdded].
Proof. split; vm_compute; reflexivity. Qed.

(** Updating "Widget" with the price 12.5 keeps its id and its date. *)
Example update_widget_price_scenario :
  let s' := fire editing_session ClickUpdate in
  data_table (self s')
  = [(1, mk_row "Widget" "Hardware" (VFloat 12.5) (VInt 10)
           "2024-05-01 10:00:00")] ∧
  shown s' = [ProductUpdated; EditingProduct "Widget"].
Proof. split; vm_compute; reflexivity. Qed.

(** A price that is a text in the file stops the drawing of the table
    with [ValueError], at the start of the window. *)
Example text_price_stops_drawing :
  let d := {| products :=
                {[ 1 := widget_row;
                   2 := mk_row "Gadget" "Tools" (VStr "cheap") (VInt 3)
                          "2024-05-02 09:00:00" ]};
              sqlite_sequence := 2 |} in
  uncaught (main (Some d) (Some EmptyString)) = [ValueError] ∧
  data_table (self (main (Some d) (Some EmptyString))) = [].
Proof. split; vm_compute; reflexivity. Qed.
